(** * Mind Flow: the measurement-validation core

    A shallow embedding of the pure validation and scoring functions of the
    Mind Flow dashboard:

    - [src/my-app/src/App.jsx] (the part headed measurementValidation.js):
      [VIBE_ORDER], [VIBE_BY_LABEL], [validateVibeCheckIn],
      [validateVibeTimestamps], [validateStreak], [validateSupportCategory],
      [validateHealthScore], [computeHealthScore], [validateFullSnapshot];
    - [src/MindflowApp.jsx] (the dashboard): [VIBE_SCALE], [ENGAGEMENT_TIERS],
      [validateCheckIn], [computeHealthScore], and the component [App] with
      its state, its event handlers and what it computes to render
      ([avgVibe], [hs], [MoodSparkline], the streak ring).

    JavaScript numbers are IEEE 754 binary64 values.  They are modelled by
    their exact rational value, and every arithmetic operation is the exact
    operation followed by rounding to the nearest binary64 value, ties to
    even, which is how IEEE 754 defines them. *)

From Stdlib Require Import ZArith QArith Qround Qabs Qpower Qreduction.
From Stdlib Require Import Lia Lqa Bool List String Ascii Sorted SpecFloat.
Import ListNotations.

Open Scope Q_scope.

(** ** Numbers *)

Module Number.

(** A JavaScript number: not-a-number, an infinity, or a finite value.  The
    two zeros are not told apart: comparison, [===], [Math.min] against a
    positive bound and [toFixed] followed by unary plus all treat [-0] as
    [0]; the one operation that does distinguish them, division by zero,
    takes the divisor to be [+0]. *)
Inductive number : Type :=
| NaN
| Inf (negative : bool)
| Fin (q : Q).

Definition pow2 (e : Z) : Q := 2 ^ e.

(** The binade of a positive rational: the [e] with [2^e <= x < 2^(e+1)]. *)
Definition ilog2 (x : Q) : Z :=
  let e0 := (Z.log2 (Qnum x) - Z.log2 (Zpos (Qden x)))%Z in
  if Qle_bool (pow2 e0) x then e0 else (e0 - 1)%Z.

(** Rounding to the nearest integer, ties to the even one. *)
Definition rne (x : Q) : Z :=
  let n := Qfloor x in
  match Qcompare (x - inject_Z n) (1 # 2) with
  | Lt => n
  | Gt => (n + 1)%Z
  | Eq => if Z.even n then n else (n + 1)%Z
  end.

(** binary64: 53 bits of precision, least exponent of a subnormal -1074. *)
Definition fexp (e : Z) : Z := Z.max (e - 52) (-1074).

(** Rounding of a positive rational to the binary64 grid, exponent range
    unbounded above. *)
Definition round_pos (x : Q) : Q :=
  let f := fexp (ilog2 x) in
  inject_Z (rne (x / pow2 f)) * pow2 f.

(** Rounding of any rational: rounding to nearest even is symmetric. *)
Definition round_q (x : Q) : Q :=
  match Qcompare x 0 with
  | Eq => 0
  | Gt => round_pos x
  | Lt => - round_pos (- x)
  end.

(** A result that rounds to [2^1024] or more in magnitude overflows to the
    infinity of its sign. *)
Definition overflow (r : Q) : number :=
  if Qle_bool (pow2 1024) (Qabs r) then Inf (negb (Qle_bool 0 r))
  else Fin (Qred r).

(** Rounding of an exact result to a number. *)
Definition round64 (x : Q) : number := overflow (round_q x).

(** A decimal literal of the source denotes the nearest number. *)
Definition lit (q : Q) : number := round64 q.

Definition of_Z (z : Z) : number := round64 (inject_Z z).

(** *** Comparison: [<], [<=], [>], [>=], [===], [!==] *)

Definition num_lt (a b : number) : bool :=
  match a, b with
  | NaN, _ | _, NaN => false
  | Inf true, Inf true => false
  | Inf true, _ => true
  | _, Inf true => false
  | Inf false, _ => false
  | Fin _, Inf false => true
  | Fin x, Fin y => negb (Qle_bool y x)
  end.

Definition num_eq (a b : number) : bool :=
  match a, b with
  | NaN, _ | _, NaN => false
  | Inf s, Inf t => Bool.eqb s t
  | Fin x, Fin y => Qeq_bool x y
  | _, _ => false
  end.

Definition num_le (a b : number) : bool := num_lt a b || num_eq a b.
Definition num_gt (a b : number) : bool := num_lt b a.
Definition num_ge (a b : number) : bool := num_le b a.
Definition num_neq (a b : number) : bool := negb (num_eq a b).

(** *** Arithmetic: [+], [-], [*], [/], [Math.min] *)

Definition num_add (a b : number) : number :=
  match a, b with
  | NaN, _ | _, NaN => NaN
  | Inf s, Inf t => if Bool.eqb s t then Inf s else NaN
  | Inf s, Fin _ | Fin _, Inf s => Inf s
  | Fin x, Fin y => round64 (x + y)
  end.

Definition num_sub (a b : number) : number :=
  match a, b with
  | NaN, _ | _, NaN => NaN
  | Inf s, Inf t => if Bool.eqb s t then NaN else Inf s
  | Inf s, Fin _ => Inf s
  | Fin _, Inf s => Inf (negb s)
  | Fin x, Fin y => round64 (x - y)
  end.

Definition num_mul (a b : number) : number :=
  match a, b with
  | NaN, _ | _, NaN => NaN
  | Inf s, Inf t => Inf (xorb s t)
  | Inf s, Fin y | Fin y, Inf s =>
      match Qcompare y 0 with
      | Eq => NaN
      | Lt => Inf (negb s)
      | Gt => Inf s
      end
  | Fin x, Fin y => round64 (x * y)
  end.

Definition num_div (a b : number) : number :=
  match a, b with
  | NaN, _ | _, NaN => NaN
  | Inf _, Inf _ => NaN
  | Inf s, Fin y => match Qcompare y 0 with Lt => Inf (negb s) | _ => Inf s end
  | Fin x, Inf _ => Fin 0
  | Fin x, Fin y =>
      match Qcompare y 0 with
      | Eq => match Qcompare x 0 with
              | Eq => NaN
              | Lt => Inf true
              | Gt => Inf false
              end
      | _ => round64 (x / y)
      end
  end.

(** [Math.min(a, b)]: [NaN] when either argument is. *)
Definition Math_min (a b : number) : number :=
  match a, b with
  | NaN, _ | _, NaN => NaN
  | _, _ => if num_lt b a then b else a
  end.

(** [Number.isInteger(x)]. *)
Definition isInteger (a : number) : bool :=
  match a with
  | Fin q => Qeq_bool q (inject_Z (Qfloor q))
  | _ => false
  end.

(** Rounding of a non-negative rational to the nearest integer, the
    larger one on a tie. *)
Definition round_half_up (x : Q) : Z := Qfloor (x + (1 # 2)).

(** The decimal with [digits] fractional digits nearest to a non-negative
    [u]. *)
Definition nearest_decimal (digits : nat) (u : Q) : Q :=
  let scale := inject_Z (10 ^ Z.of_nat digits) in
  inject_Z (round_half_up (u * scale)) / scale.

(** The exact value of the string [x.toFixed(digits)]: the decimal
    [n / 10^digits] for the integer [n] nearest to [|x| * 10^digits] (the
    larger one on a tie), with the sign of [x]; at [|x| >= 10^21]
    [toFixed] returns [String(x)], which denotes [x] itself. *)
Definition toFixed_q (digits : nat) (x : Q) : Q :=
  if Qle_bool (inject_Z (10 ^ 21)) (Qabs x) then x
  else match Qcompare x 0 with
       | Lt => - nearest_decimal digits (- x)
       | _ => nearest_decimal digits x
       end.

(** [+x.toFixed(digits)]: unary plus reads the string back as the nearest
    number; for [NaN] and the infinities the string is their name. *)
Definition toFixed_num (digits : nat) (a : number) : number :=
  match a with
  | NaN => NaN
  | Inf s => Inf s
  | Fin x => round64 (toFixed_q digits x)
  end.

(** [a] is not above [b]: the negation of [b < a], which holds in
    particular when either is [NaN]. *)
Definition not_above (a b : number) : Prop := num_lt b a = false.

(** [0 <= a], as the source would test it. *)
Definition nonneg (a : number) : Prop := num_le (Fin 0) a = true.

(** A finite positive number, such as the weights and ceilings. *)
Definition finite_pos (c : number) : Prop := exists z, c = Fin z /\ 0 < z.

End Number.
Export Number.

(** ** The standard library's specification of binary64

    [SpecFloat] specifies the IEEE 754 operations on mantissa and
    exponent.  The definitions below read its values as numbers, so that
    the rounding of this file can be compared with it on samples. *)

Module IEEE.

Definition prec : Z := 53.
Definition emax : Z := 1024.

Definition of_spec (f : spec_float) : number :=
  match f with
  | S754_zero _ => Fin 0
  | S754_infinity s => Inf s
  | S754_nan => NaN
  | S754_finite s m e =>
      Fin (Qred ((if s then - inject_Z (Zpos m) else inject_Z (Zpos m))
                 * pow2 e))
  end.

Definition spec_of_Z (z : Z) : spec_float :=
  binary_normalize prec emax z 0 false.

(** The decimal literal [p / q], correctly rounded. *)
Definition spec_lit (p q : Z) : spec_float :=
  SFdiv prec emax (spec_of_Z p) (spec_of_Z q).

Definition number_eqb (a b : number) : bool :=
  match a, b with
  | NaN, NaN => true
  | Inf s, Inf t => Bool.eqb s t
  | Fin x, Fin y => Z.eqb (Qnum x) (Qnum y) && Pos.eqb (Qden x) (Qden y)
  | _, _ => false
  end.

Definition Zrange (lo : Z) (n : nat) : list Z :=
  map (fun k => (lo + Z.of_nat k)%Z) (seq 0 n).

Definition agree_div (p q : Z) : bool :=
  number_eqb (of_spec (spec_lit p q)) (num_div (of_Z p) (of_Z q)).

(** Sample values: the fractions [p / q] for [p] from -4 to 8 and [q] in
    1, 3 and 10. *)
Definition samples : list spec_float :=
  flat_map (fun q => map (fun p => spec_lit p q) (Zrange (-4) 13))
           [1; 3; 10]%Z.

(** Pairs at the ends of the range: the largest finite value, subnormals,
    the least normal value and its neighbour, the infinities and [NaN]. *)
Definition edge_pairs : list (spec_float * spec_float) :=
  let largest := S754_finite false 9007199254740991 971 in
  let least := S754_finite false 1 (-1074) in
  let normal := S754_finite false 4503599627370496 (-1074) in
  let above := S754_finite false 4503599627370497 (-1074) in
  [ (largest, largest); (largest, SFopp largest); (largest, least);
    (largest, spec_lit 1 10); (largest, spec_of_Z 2);
    (least, least); (least, S754_finite false 3 (-1074));
    (least, spec_lit 1 2); (least, spec_lit 3 2); (least, SFopp least);
    (normal, above); (above, spec_lit 1 2); (normal, spec_lit 1 3);
    (S754_infinity false, S754_infinity true);
    (S754_infinity false, S754_infinity false);
    (S754_infinity true, spec_of_Z 0); (S754_infinity false, spec_of_Z (-3));
    (S754_nan, spec_of_Z 1); (spec_of_Z 1, S754_nan);
    (spec_of_Z 0, spec_of_Z 0) ].

Definition agree_on (x y : spec_float) : bool :=
  number_eqb (of_spec (SFadd prec emax x y)) (num_add (of_spec x) (of_spec y))
  && number_eqb (of_spec (SFsub prec emax x y))
                (num_sub (of_spec x) (of_spec y))
  && number_eqb (of_spec (SFmul prec emax x y))
                (num_mul (of_spec x) (of_spec y))
  && number_eqb (of_spec (SFdiv prec emax x y))
                (num_div (of_spec x) (of_spec y))
  && Bool.eqb (SFltb x y) (num_lt (of_spec x) (of_spec y))
  && Bool.eqb (SFeqb x y) (num_eq (of_spec x) (of_spec y)).

Definition SFmin (x y : spec_float) : spec_float :=
  match x, y with
  | S754_nan, _ | _, S754_nan => S754_nan
  | _, _ => if SFltb y x then y else x
  end.

(** The weighted composite of [computeHealthScore] under the default
    ceilings, before [toFixed], over [SpecFloat]. *)
Definition spec_composite (streakDays vibeCheckIns averageVibeScore
    loginCount : spec_float) : spec_float :=
  let mul := SFmul prec emax in
  let div := SFdiv prec emax in
  let add := SFadd prec emax in
  let min1 x := SFmin x (spec_of_Z 1) in
  let hundred := spec_of_Z 100 in
  let normStreak := mul (min1 (div streakDays (spec_of_Z 30))) hundred in
  let normCheckins := mul (min1 (div vibeCheckIns (spec_of_Z 30))) hundred in
  let normVibe :=
    mul (div (SFsub prec emax averageVibeScore (spec_of_Z 1)) (spec_of_Z 4))
        hundred in
  let normLogins := mul (min1 (div loginCount (spec_of_Z 60))) hundred in
  add (add (add (mul normStreak (spec_lit 40 100))
                (mul normVibe (spec_lit 35 100)))
           (mul normLogins (spec_lit 15 100)))
      (mul normCheckins (spec_lit 10 100)).

End IEEE.

(** ** Plain objects used as lookup tables *)

Module JsObject.

(** The property names every plain object inherits from [Object.prototype];
    reading one of them through [obj[key]] yields a function (an accessor
    result for [__proto__]), which is truthy and has no own fields. *)
Definition Object_prototype_keys : list string :=
  [ "constructor"; "__defineGetter__"; "__defineSetter__"; "hasOwnProperty";
    "__lookupGetter__"; "__lookupSetter__"; "isPrototypeOf";
    "propertyIsEnumerable"; "toString"; "valueOf"; "__proto__";
    "toLocaleString" ]%string.

(** What reading [obj[key]] yields on an object built from entries. *)
Inductive property (A : Type) : Type :=
| Own (a : A)
| Inherited (key : string)
| Undefined.
Arguments Own {A} a.
Arguments Inherited {A} key.
Arguments Undefined {A}.

(** [Object.fromEntries(entries)]: a later entry with the same key
    replaces an earlier one. *)
Fixpoint own_property {A : Type} (entries : list (string * A)) (key : string)
  : option A :=
  match entries with
  | [] => None
  | (k, a) :: rest =>
      match own_property rest key with
      | Some b => Some b
      | None => if String.eqb k key then Some a else None
      end
  end.

Definition get {A : Type} (entries : list (string * A)) (key : string)
  : property A :=
  match own_property entries key with
  | Some a => Own a
  | None =>
      if existsb (String.eqb key) Object_prototype_keys
      then Inherited key else Undefined
  end.

(** Truthiness of a property read: only [undefined] is falsy here. *)
Definition truthy {A : Type} (p : property A) : bool :=
  match p with
  | Undefined => false
  | _ => true
  end.

End JsObject.
Export JsObject.

(** A value that may be [undefined], as a field read of a property: in a
    relational comparison [undefined] converts to [NaN]; under [!==] it
    differs from every number. *)
Definition to_number (v : option number) : number :=
  match v with
  | Some x => x
  | None => NaN
  end.

Definition strict_neq (v : option number) (x : number) : bool :=
  match v with
  | Some y => num_neq y x
  | None => true
  end.

(** ** measurementValidation.js, in [src/my-app/src/App.jsx] *)

Module Validation.

Record VibeEntry : Type := {
  label : string;
  emoji : string;
  value : number
}.

Definition VIBE_ORDER : list VibeEntry :=
  [ {| label := "Terrible"; emoji := "😢"; value := lit 1 |};
    {| label := "Down";     emoji := "😞"; value := lit 2 |};
    {| label := "Neutral";  emoji := "😐"; value := lit 3 |};
    {| label := "Good";     emoji := "🙂"; value := lit 4 |};
    {| label := "Great";    emoji := "😄"; value := lit 5 |} ].

Definition VIBE_BY_LABEL : list (string * VibeEntry) :=
  map (fun v => (label v, v)) VIBE_ORDER.

(** [entry.value] for a property read [entry]: [None] when the read throws
    (a field of [undefined]); a member of [Object.prototype] has no [value]
    field, so the read gives [undefined]. *)
Definition entry_value (p : property VibeEntry) : option (option number) :=
  match p with
  | Own e => Some (Some (value e))
  | Inherited _ => Some None
  | Undefined => None
  end.

(** The messages pushed by [validateVibeCheckIn], with the values their
    templates interpolate:
    - [OrdinalViolation]: "[Ordinal violation] moodValue=... is outside
      the valid range [1, 5]." (the spec's OutOfRange);
    - [NominalViolation]: "[Nominal violation] Unknown moodLabel ..."
      (UnknownLabel);
    - [HomomorphismViolation]: "[Homomorphism violation] ... maps to formal
      value ..., but stored value is ...";
    - [EmpiricalOrderViolation]: "[Empirical order violation] Terrible
      (...) is not less than Great (...)". *)
Inductive VibeError : Type :=
| OrdinalViolation (moodValue : number)
| NominalViolation (moodLabel : string)
| HomomorphismViolation (moodLabel : string) (formal : option number)
                        (stored : number)
| EmpiricalOrderViolation (sad happy : option number).

Record VibeResult : Type := {
  valid : bool;
  errors : list VibeError
}.

(** [errors.length === 0]. *)
Definition is_nil {A : Type} (l : list A) : bool :=
  match l with
  | [] => true
  | _ => false
  end.

(** [validateVibeCheckIn({ moodValue, moodLabel })]; [None] stands for a
    thrown [TypeError]. *)
Definition validateVibeCheckIn (moodValue : number) (moodLabel : string)
  : option VibeResult :=
  let errors := [] in
  (* (a) Range check *)
  let errors :=
    if negb (isInteger moodValue) || num_lt moodValue (lit 1)
       || num_gt moodValue (lit 5)
    then errors ++ [OrdinalViolation moodValue]
    else errors in
  (* (b) Label <-> Value homomorphism *)
  let canonicalEntry := get VIBE_BY_LABEL moodLabel in
  let errors :=
    match canonicalEntry with
    | Undefined => errors ++ [NominalViolation moodLabel]
    | Own e =>
        if num_neq (value e) moodValue
        then errors ++ [HomomorphismViolation moodLabel (Some (value e))
                                              moodValue]
        else errors
    | Inherited _ =>
        if strict_neq None moodValue
        then errors ++ [HomomorphismViolation moodLabel None moodValue]
        else errors
    end in
  (* (c) Critical ordinal sanity *)
  let sadEntry := get VIBE_BY_LABEL "Terrible" in
  let happyEntry := get VIBE_BY_LABEL "Great" in
  match entry_value sadEntry, entry_value happyEntry with
  | Some sad, Some happy =>
      let errors :=
        if num_ge (to_number sad) (to_number happy)
        then errors ++ [EmpiricalOrderViolation sad happy]
        else errors in
      Some {| valid := is_nil errors; errors := errors |}
  | _, _ => None
  end.

(** What rule (a) contributes, whatever the label. *)
Definition range_errors (moodValue : number) : list VibeError :=
  if negb (isInteger moodValue) || num_lt moodValue (lit 1)
     || num_gt moodValue (lit 5)
  then [OrdinalViolation moodValue] else [].

(** What rule (b) contributes, whatever rule (a) found. *)
Definition label_errors (moodValue : number) (moodLabel : string)
  : list VibeError :=
  match get VIBE_BY_LABEL moodLabel with
  | Undefined => [NominalViolation moodLabel]
  | Own e =>
      if num_neq (value e) moodValue
      then [HomomorphismViolation moodLabel (Some (value e)) moodValue]
      else []
  | Inherited _ => [HomomorphismViolation moodLabel None moodValue]
  end.

(** A [Date]: its time value in milliseconds, or an invalid date, whose
    [getTime()] is [NaN]. *)
Inductive Date : Type :=
| ValidDate (ms : Z)
| InvalidDate.

Definition getTime (d : Date) : number :=
  match d with
  | ValidDate ms => Fin (inject_Z ms)
  | InvalidDate => NaN
  end.

Record CheckIn : Type := {
  recordedAt : Date
}.

(** "[Ratio scale violation] Duplicate timestamp at index ...: ...", with
    the index and the date whose ISO string the message shows. *)
Inductive TimestampError : Type :=
| DuplicateTimestamp (index : nat) (recordedAt : Date).

Record TimestampResult : Type := {
  ts_valid : bool;
  ts_errors : list TimestampError
}.

(** One turn of the loop of [validateVibeTimestamps] at index [i]. *)
Definition timestamp_step (checkIns : list CheckIn)
    (errors : list TimestampError) (i : nat) : list TimestampError :=
  match nth_error checkIns i, nth_error checkIns (i - 1) with
  | Some cur, Some prev =>
      if num_eq (getTime (recordedAt cur)) (getTime (recordedAt prev))
      then errors ++ [DuplicateTimestamp i (recordedAt cur)]
      else errors
  | _, _ => errors
  end.

(** [validateVibeTimestamps(checkIns)]: [i] runs from 1 while
    [i < checkIns.length]. *)
Definition validateVibeTimestamps (checkIns : list CheckIn)
  : TimestampResult :=
  let errors :=
    fold_left (timestamp_step checkIns)
              (seq 1 (List.length checkIns - 1)) [] in
  {| ts_valid := is_nil errors; ts_errors := errors |}.

(** Two check-ins recorded at the same instant, as [===] on their
    [getTime()] decides it, and the order the argument is sorted by. *)
Definition same_instant (a b : CheckIn) : bool :=
  num_eq (getTime (recordedAt a)) (getTime (recordedAt b)).

Definition time_le (a b : CheckIn) : Prop :=
  num_le (getTime (recordedAt a)) (getTime (recordedAt b)) = true.

(** What the loop adds at index [i]: it compares with the element before. *)
Definition adjacent_error (checkIns : list CheckIn) (i : nat)
  : list TimestampError :=
  match nth_error checkIns i, nth_error checkIns (i - 1) with
  | Some cur, Some prev =>
      if same_instant cur prev
      then [DuplicateTimestamp i (recordedAt cur)] else []
  | _, _ => []
  end.

(** What the rule asks for at index [i]: one error when the element
    shares its instant with any earlier element. *)
Definition duplicate_error (checkIns : list CheckIn) (i : nat)
  : list TimestampError :=
  match nth_error checkIns i with
  | Some c =>
      if existsb (same_instant c) (firstn i checkIns)
      then [DuplicateTimestamp i (recordedAt c)] else []
  | None => []
  end.

Record HealthScoreRecord : Type := {
  streakDays : number;
  vibeCheckIns : number;
  averageVibeScore : number;
  loginCount : number;
  healthScore : number;
  engagementTier : string
}.

(** The messages pushed by [validateHealthScore]:
    - [IntervalViolation]: "[Interval violation] healthScore=... must be
      in [0, 100].";
    - [UnknownTier]: "[Ordinal violation] Unknown engagementTier: ...";
    - [TierScoreMismatch]: "[Ordinal-Interval mismatch] engagementTier ...
      expects healthScore in [..., ...], but got ...";
    - [NonNegativeIntegerViolation]: "[Absolute/Ratio violation] Input
      field ... must be a non-negative integer. Got: ...";
    - [OrdinalBoundsViolation]: "[Ordinal violation] averageVibeScore=...
      must be in [1, 5]." *)
Inductive HealthError : Type :=
| IntervalViolation (healthScore : number)
| UnknownTier (engagementTier : string)
| TierScoreMismatch (engagementTier : string) (lo hi : option number)
                    (healthScore : number)
| NonNegativeIntegerViolation (name : string) (val : number)
| OrdinalBoundsViolation (averageVibeScore : number).

Record HealthResult : Type := {
  hs_valid : bool;
  hs_errors : list HealthError
}.

Definition tierBounds : list (string * (number * number)) :=
  [ ("Low",       (lit 0,  lit 25));
    ("Moderate",  (lit 26, lit 50));
    ("High",      (lit 51, lit 75));
    ("Excellent", (lit 76, lit 100)) ]%string.

(** [bounds[i]] for [bounds = tierBounds[engagementTier]]: a member of
    [Object.prototype] has no index, nor has a pair a third one. *)
Definition bound_at (p : property (number * number)) (i : nat)
  : option number :=
  match p, i with
  | Own (lo, _), 0%nat => Some lo
  | Own (_, hi), 1%nat => Some hi
  | _, _ => None
  end.

(** [validateHealthScore(record)].  The fields of a record are numbers, so
    the two [typeof ... !== 'number'] tests are false. *)
Definition validateHealthScore (record : HealthScoreRecord) : HealthResult :=
  let errors := [] in
  (* (a) Composite score range *)
  let errors :=
    if num_lt (healthScore record) (lit 0)
       || num_gt (healthScore record) (lit 100)
    then errors ++ [IntervalViolation (healthScore record)]
    else errors in
  (* (b) Engagement tier matches score range *)
  let bounds := get tierBounds (engagementTier record) in
  let errors :=
    if negb (truthy bounds)
    then errors ++ [UnknownTier (engagementTier record)]
    else if num_lt (healthScore record) (to_number (bound_at bounds 0))
            || num_gt (healthScore record) (to_number (bound_at bounds 1))
    then errors ++ [TierScoreMismatch (engagementTier record)
                      (bound_at bounds 0) (bound_at bounds 1)
                      (healthScore record)]
    else errors in
  (* (c) Input field scale constraints *)
  let errors :=
    fold_left
      (fun errors '(name, val) =>
         if negb (isInteger val) || num_lt val (lit 0)
         then errors ++ [NonNegativeIntegerViolation name val]
         else errors)
      [ ("streakDays"%string, streakDays record);
        ("vibeCheckIns"%string, vibeCheckIns record);
        ("loginCount"%string, loginCount record) ]
      errors in
  let errors :=
    if num_lt (averageVibeScore record) (lit 1)
       || num_gt (averageVibeScore record) (lit 5)
    then errors ++ [OrdinalBoundsViolation (averageVibeScore record)]
    else errors in
  {| hs_valid := is_nil errors; hs_errors := errors |}.

(** A score strictly between the integer ranges of two tiers. *)
Definition between_tiers (score : number) : bool :=
  (num_gt score (lit 25) && num_lt score (lit 26))
  || (num_gt score (lit 50) && num_lt score (lit 51))
  || (num_gt score (lit 75) && num_lt score (lit 76)).

Record MaxValues : Type := {
  max_streakDays : number;
  max_vibeCheckIns : number;
  max_loginCount : number
}.

(** The default of the [maxValues] parameter. *)
Definition default_maxValues : MaxValues :=
  {| max_streakDays := lit 30;
     max_vibeCheckIns := lit 30;
     max_loginCount := lit 60 |}.

Record Breakdown : Type := {
  normStreak : number;
  normVibe : number;
  normLogins : number;
  normCheckins : number
}.

Record HealthScore : Type := {
  hs_healthScore : number;
  hs_engagementTier : string;
  breakdown : Breakdown
}.

(** The four normalised measures, before the rounding of the breakdown. *)
Definition norm_streak (streakDays : number) (maxValues : MaxValues) : number :=
  num_mul (Math_min (num_div streakDays (max_streakDays maxValues)) (lit 1))
          (lit 100).

Definition norm_checkins (vibeCheckIns : number) (maxValues : MaxValues)
  : number :=
  num_mul (Math_min (num_div vibeCheckIns (max_vibeCheckIns maxValues)) (lit 1))
          (lit 100).

Definition norm_vibe (averageVibeScore : number) : number :=
  num_mul (num_div (num_sub averageVibeScore (lit 1)) (lit 4)) (lit 100).

Definition norm_logins (loginCount : number) (maxValues : MaxValues) : number :=
  num_mul (Math_min (num_div loginCount (max_loginCount maxValues)) (lit 1))
          (lit 100).

(** The weighted composite, before [toFixed]. *)
Definition composite (nStreak nVibe nLogins nCheckins : number) : number :=
  num_add
    (num_add
       (num_add (num_mul nStreak (lit (40 # 100)))
                (num_mul nVibe (lit (35 # 100))))
       (num_mul nLogins (lit (15 # 100))))
    (num_mul nCheckins (lit (10 # 100))).

(** [computeHealthScore({ streakDays, vibeCheckIns, averageVibeScore,
    loginCount, maxValues })]; [maxValues = None] is an absent argument. *)
Definition computeHealthScore (streakDays vibeCheckIns averageVibeScore
    loginCount : number) (maxValues : option MaxValues) : HealthScore :=
  let maxValues :=
    match maxValues with
    | Some m => m
    | None => default_maxValues
    end in
  let nStreak := norm_streak streakDays maxValues in
  let nCheckins := norm_checkins vibeCheckIns maxValues in
  let nVibe := norm_vibe averageVibeScore in
  let nLogins := norm_logins loginCount maxValues in
  let healthScore :=
    toFixed_num 2 (composite nStreak nVibe nLogins nCheckins) in
  let engagementTier :=
    if num_ge healthScore (lit 76) then "Excellent"%string
    else if num_ge healthScore (lit 51) then "High"%string
    else if num_ge healthScore (lit 26) then "Moderate"%string
    else "Low"%string in
  {| hs_healthScore := healthScore;
     hs_engagementTier := engagementTier;
     breakdown :=
       {| normStreak := toFixed_num 2 nStreak;
          normVibe := toFixed_num 2 nVibe;
          normLogins := toFixed_num 2 nLogins;
          normCheckins := toFixed_num 2 nCheckins |} |}.

(** The healthScore returned under the default ceilings. *)
Definition healthScoreOf (streakDays vibeCheckIns averageVibeScore
    loginCount : number) : number :=
  hs_healthScore (computeHealthScore streakDays vibeCheckIns averageVibeScore
                                     loginCount None).

(** The record a caller stores: the four inputs with the computed score
    and tier. *)
Definition record_of (streakDays vibeCheckIns averageVibeScore
    loginCount : number) : HealthScoreRecord :=
  let r := computeHealthScore streakDays vibeCheckIns averageVibeScore
                              loginCount None in
  {| streakDays := streakDays;
     vibeCheckIns := vibeCheckIns;
     averageVibeScore := averageVibeScore;
     loginCount := loginCount;
     healthScore := hs_healthScore r;
     engagementTier := hs_engagementTier r |}.

End Validation.

(** A score function of the four inputs is monotone in each input when
    replacing one input by a value [x] with [input <= x], the other three
    kept, never yields a smaller score: [score' < score] is false. *)
Definition monotone_in_each
    (f : number -> number -> number -> number -> number) : Prop :=
  forall s c a l x,
    (num_le s x = true -> num_lt (f x c a l) (f s c a l) = false) /\
    (num_le c x = true -> num_lt (f s x a l) (f s c a l) = false) /\
    (num_le a x = true -> num_lt (f s c x l) (f s c a l) = false) /\
    (num_le l x = true -> num_lt (f s c a x) (f s c a l) = false).

(** ** The dashboard, [src/MindflowApp.jsx] *)

Module Dashboard.

Record Mood : Type := {
  value : number;
  label : string;
  emoji : string;
  color : string
}.

Definition VIBE_SCALE : list Mood :=
  [ {| value := lit 1; label := "Terrible"; emoji := "😢"; color := "#ff6b8a" |};
    {| value := lit 2; label := "Down";     emoji := "😞"; color := "#ff9a6c" |};
    {| value := lit 3; label := "Neutral";  emoji := "😐"; color := "#ffd166" |};
    {| value := lit 4; label := "Good";     emoji := "🙂"; color := "#a8d8a8" |};
    {| value := lit 5; label := "Great";    emoji := "😄"; color := "#5ec4b1" |} ].

Record Tier : Type := {
  tier_label : string;
  min : number;
  max : number;
  tier_color : string
}.

Definition ENGAGEMENT_TIERS : list Tier :=
  [ {| tier_label := "Low";       min := lit 0;  max := lit 25;
       tier_color := "#ff6b8a" |};
    {| tier_label := "Moderate";  min := lit 26; max := lit 50;
       tier_color := "#ffd166" |};
    {| tier_label := "High";      min := lit 51; max := lit 75;
       tier_color := "#a8d8a8" |};
    {| tier_label := "Excellent"; min := lit 76; max := lit 100;
       tier_color := "#5ec4b1" |} ].

(** The single message a failed [validateCheckIn] carries: "Unknown mood
    label: ...", "Homomorphism violation: ... should map to ..., got ..."
    or "Ordinal out of range [1-5]: ...". *)
Inductive CheckInError : Type :=
| UnknownMoodLabel (moodLabel : string)
| HomomorphismViolation (moodLabel : string) (canonical : number)
                        (moodValue : number)
| OrdinalOutOfRange (moodValue : number).

Record CheckInResult : Type := {
  valid : bool;
  error : option CheckInError
}.

(** [validateCheckIn({ moodValue, moodLabel })]: each failed test returns at
    once. *)
Definition validateCheckIn (moodValue : number) (moodLabel : string)
  : CheckInResult :=
  match find (fun v => String.eqb (label v) moodLabel) VIBE_SCALE with
  | None => {| valid := false; error := Some (UnknownMoodLabel moodLabel) |}
  | Some canonical =>
      if num_neq (value canonical) moodValue
      then {| valid := false;
              error := Some (HomomorphismViolation moodLabel (value canonical)
                                                   moodValue) |}
      else if num_lt moodValue (lit 1) || num_gt moodValue (lit 5)
      then {| valid := false; error := Some (OrdinalOutOfRange moodValue) |}
      else {| valid := true; error := None |}
  end.

(** [score >= t.min && score <= t.max], the test of the tier lookup. *)
Definition tier_contains (score : number) (t : Tier) : bool :=
  num_ge score (min t) && num_le score (max t).

(** The tier lookup of [computeHealthScore]:
    [ENGAGEMENT_TIERS.find(t => score >= t.min && score <= t.max)
     || ENGAGEMENT_TIERS[0]]; [None] is [undefined]. *)
Definition tierForScore (score : number) : option Tier :=
  match find (tier_contains score) ENGAGEMENT_TIERS with
  | Some t => Some t
  | None => nth_error ENGAGEMENT_TIERS 0
  end.

(** The label of the integer range a score falls in. *)
Definition range_label (s : Z) : string :=
  if (s <=? 25)%Z then "Low"
  else if (s <=? 50)%Z then "Moderate"
  else if (s <=? 75)%Z then "High"
  else "Excellent".

Record Health : Type := {
  score : number;
  tier : string;
  tierColor : string
}.

(** The [score] constant of [computeHealthScore]. *)
Definition healthScore (streakDays vibeCheckIns avgVibeScore
    loginCount : number) : number :=
  let normStreak := num_mul (Math_min (num_div streakDays (lit 30)) (lit 1))
                            (lit 100) in
  let normVibe := num_mul (num_div (num_sub avgVibeScore (lit 1)) (lit 4))
                          (lit 100) in
  let normLogins := num_mul (Math_min (num_div loginCount (lit 60)) (lit 1))
                            (lit 100) in
  let normCheckins := num_mul (Math_min (num_div vibeCheckIns (lit 30)) (lit 1))
                              (lit 100) in
  toFixed_num 1
    (num_add
       (num_add
          (num_add (num_mul normStreak (lit (40 # 100)))
                   (num_mul normVibe (lit (35 # 100))))
          (num_mul normLogins (lit (15 # 100))))
       (num_mul normCheckins (lit (10 # 100)))).

(** [computeHealthScore({ streakDays, vibeCheckIns, avgVibeScore,
    loginCount })]; [None] when [tier.label] would be read off
    [undefined]. *)
Definition computeHealthScore (streakDays vibeCheckIns avgVibeScore
    loginCount : number) : option Health :=
  let score := healthScore streakDays vibeCheckIns avgVibeScore loginCount in
  match tierForScore score with
  | Some t => Some {| score := score; tier := tier_label t;
                      tierColor := tier_color t |}
  | None => None
  end.

End Dashboard.

(** ** What each rule of [validateHealthScore] contributes *)

Module HealthRules.

Import Validation.

(** Rule (a), the range of the composite score. *)
Definition interval_errors (record : HealthScoreRecord) : list HealthError :=
  if num_lt (healthScore record) (lit 0)
     || num_gt (healthScore record) (lit 100)
  then [IntervalViolation (healthScore record)] else [].

(** Rule (b), the tier against the score. *)
Definition tier_errors (score : number) (tier : string) : list HealthError :=
  let bounds := get tierBounds tier in
  if negb (truthy bounds) then [UnknownTier tier]
  else if num_lt score (to_number (bound_at bounds 0))
          || num_gt score (to_number (bound_at bounds 1))
  then [TierScoreMismatch tier (bound_at bounds 0) (bound_at bounds 1) score]
  else [].

(** Rule (c) on one input field. *)
Definition field_errors (name : string) (val : number) : list HealthError :=
  if negb (isInteger val) || num_lt val (lit 0)
  then [NonNegativeIntegerViolation name val] else [].

(** Rule (c) on the average. *)
Definition average_errors (record : HealthScoreRecord) : list HealthError :=
  if num_lt (averageVibeScore record) (lit 1)
     || num_gt (averageVibeScore record) (lit 5)
  then [OrdinalBoundsViolation (averageVibeScore record)] else [].

End HealthRules.

(** ** The engagement tiers of measurementValidation.js *)

Module Engagement.

Definition ENGAGEMENT_ORDER : list string :=
  [ "Low"; "Moderate"; "High"; "Excellent" ]%string.

(** [Object.fromEntries(ENGAGEMENT_ORDER.map((t, i) => [t, i]))]. *)
Definition ENGAGEMENT_RANK : list (string * nat) :=
  combine ENGAGEMENT_ORDER (seq 0 (List.length ENGAGEMENT_ORDER)).

(** [ENGAGEMENT_RANK[tier]], when it is a rank. *)
Definition tier_rank (tier : string) : option nat :=
  match get ENGAGEMENT_RANK tier with
  | Own i => Some i
  | _ => None
  end.

(** The derivation of the tier in [computeHealthScore], as a function of
    the rounded score. *)
Definition engagementTierOf (healthScore : number) : string :=
  if num_ge healthScore (lit 76) then "Excellent"
  else if num_ge healthScore (lit 51) then "High"
  else if num_ge healthScore (lit 26) then "Moderate"
  else "Low".

End Engagement.

(** ** measurementValidation.js: streaks, categories and whole snapshots *)

Module Records.

Import Validation.

(** *** [validateStreak] *)

(** The argument of [validateStreak]; a field the object does not have
    reads as [undefined], here [None]. *)
Record Streak : Type := {
  currentStreak : option number;
  longestStreak : option number;
  totalActiveDays : option number
}.

(** The messages pushed by [validateStreak]:
    - [CountViolation]: "[Ratio/Absolute violation] ... must be a
      non-negative integer. Received: ...";
    - [LongestBelowCurrent]: "[Ratio order violation] longestStreak (...)
      < currentStreak (...)";
    - [TotalBelowCurrent]: "[Absolute scale violation] totalActiveDays
      (...) < currentStreak (...)". *)
Inductive StreakError : Type :=
| CountViolation (name : string) (val : option number)
| LongestBelowCurrent (longestStreak currentStreak : option number)
| TotalBelowCurrent (totalActiveDays currentStreak : option number).

Record StreakResult : Type := {
  st_valid : bool;
  st_errors : list StreakError
}.

(** [!Number.isInteger(val) || val < 0] on a value that may be
    [undefined]. *)
Definition not_a_count (val : option number) : bool :=
  match val with
  | Some x => negb (isInteger x) || num_lt x (lit 0)
  | None => true
  end.

(** [validateStreak({ currentStreak, longestStreak, totalActiveDays })]. *)
Definition validateStreak (streak : Streak) : StreakResult :=
  let errors := [] in
  let fields :=
    [ ("currentStreak"%string, currentStreak streak);
      ("longestStreak"%string, longestStreak streak);
      ("totalActiveDays"%string, totalActiveDays streak) ] in
  let errors :=
    fold_left
      (fun errors '(name, val) =>
         if not_a_count val
         then errors ++ [CountViolation name val]
         else errors)
      fields errors in
  let errors :=
    if num_lt (to_number (longestStreak streak))
              (to_number (currentStreak streak))
    then errors ++ [LongestBelowCurrent (longestStreak streak)
                                        (currentStreak streak)]
    else errors in
  let errors :=
    if num_lt (to_number (totalActiveDays streak))
              (to_number (currentStreak streak))
    then errors ++ [TotalBelowCurrent (totalActiveDays streak)
                                      (currentStreak streak)]
    else errors in
  {| st_valid := is_nil errors; st_errors := errors |}.

(** *** [validateSupportCategory] *)

(** [new Set([...])], in insertion order. *)
Definition SUPPORT_CATEGORIES : list string :=
  [ "Anxiety"; "Depression"; "Stress"; "Burnout"; "Study Tips";
    "Relationships"; "General Wellness" ]%string.

(** [set.has(x)]. *)
Definition has (set : list string) (x : string) : bool :=
  existsb (String.eqb x) set.

(** "[Nominal violation] ... is not a recognised Support Circle category.
    Valid classes: ...". *)
Inductive CategoryError : Type :=
| UnknownCategory (category : string) (classes : list string).

Record CategoryResult : Type := {
  cat_valid : bool;
  cat_errors : list CategoryError
}.

Definition validateSupportCategory (category : string) : CategoryResult :=
  let errors := [] in
  let errors :=
    if negb (has SUPPORT_CATEGORIES category)
    then errors ++ [UnknownCategory category SUPPORT_CATEGORIES]
    else errors in
  {| cat_valid := is_nil errors; cat_errors := errors |}.

(** *** The validators on objects with missing fields *)

(** [validateFullSnapshot] passes [{}] for a section the snapshot lacks, so
    the validators are also run on objects whose fields read as
    [undefined]. *)
Record CheckInFields : Type := {
  moodValue : option number;
  moodLabel : option string
}.

Record HealthFields : Type := {
  f_streakDays : option number;
  f_vibeCheckIns : option number;
  f_averageVibeScore : option number;
  f_loginCount : option number;
  f_healthScore : option number;
  f_engagementTier : option string
}.

(** The property key [obj[key]] is read with. *)
Definition property_key (key : option string) : string :=
  match key with
  | Some s => s
  | None => "undefined"
  end.

(** [a !== b] on values that may be [undefined]. *)
Definition strict_neq_any (a b : option number) : bool :=
  match a, b with
  | Some x, Some y => num_neq x y
  | None, None => false
  | _, _ => true
  end.

(** [typeof v !== 'number']. *)
Definition not_a_number_type (v : option number) : bool :=
  match v with
  | Some _ => false
  | None => true
  end.

(** The messages of [validateVibeCheckIn], with values that may be
    [undefined]. *)
Inductive CheckInIssue : Type :=
| OrdinalIssue (moodValue : option number)
| NominalIssue (moodLabel : option string)
| HomomorphismIssue (moodLabel : option string)
                    (formal stored : option number)
| EmpiricalOrderIssue (sad happy : option number).

Record CheckInReport : Type := {
  ci_valid : bool;
  ci_errors : list CheckInIssue
}.

(** [validateVibeCheckIn(checkIn)] on any such object; [None] stands for a
    thrown [TypeError]. *)
Definition validateVibeCheckIn_fields (checkIn : CheckInFields)
  : option CheckInReport :=
  let errors := [] in
  let errors :=
    if negb (match moodValue checkIn with
             | Some x => isInteger x
             | None => false
             end)
       || num_lt (to_number (moodValue checkIn)) (lit 1)
       || num_gt (to_number (moodValue checkIn)) (lit 5)
    then errors ++ [OrdinalIssue (moodValue checkIn)]
    else errors in
  let canonicalEntry :=
    get VIBE_BY_LABEL (property_key (moodLabel checkIn)) in
  let errors :=
    match canonicalEntry with
    | Undefined => errors ++ [NominalIssue (moodLabel checkIn)]
    | Own e =>
        if strict_neq_any (Some (value e)) (moodValue checkIn)
        then errors ++ [HomomorphismIssue (moodLabel checkIn)
                          (Some (value e)) (moodValue checkIn)]
        else errors
    | Inherited _ =>
        if strict_neq_any None (moodValue checkIn)
        then errors ++ [HomomorphismIssue (moodLabel checkIn) None
                          (moodValue checkIn)]
        else errors
    end in
  let sadEntry := get VIBE_BY_LABEL "Terrible" in
  let happyEntry := get VIBE_BY_LABEL "Great" in
  match entry_value sadEntry, entry_value happyEntry with
  | Some sad, Some happy =>
      let errors :=
        if num_ge (to_number sad) (to_number happy)
        then errors ++ [EmpiricalOrderIssue sad happy]
        else errors in
      Some {| ci_valid := is_nil errors; ci_errors := errors |}
  | _, _ => None
  end.

(** The messages of [validateHealthScore], with values that may be
    [undefined]. *)
Inductive HealthIssue : Type :=
| IntervalIssue (healthScore : option number)
| UnknownTierIssue (engagementTier : option string)
| TierScoreIssue (engagementTier : option string) (lo hi : option number)
                 (healthScore : option number)
| CountIssue (name : string) (val : option number)
| OrdinalBoundsIssue (averageVibeScore : option number).

Record HealthReport : Type := {
  hr_valid : bool;
  hr_errors : list HealthIssue
}.

(** [validateHealthScore(record)] on any such object. *)
Definition validateHealthScore_fields (record : HealthFields) : HealthReport :=
  let errors := [] in
  let healthScore := f_healthScore record in
  let errors :=
    if not_a_number_type healthScore
       || num_lt (to_number healthScore) (lit 0)
       || num_gt (to_number healthScore) (lit 100)
    then errors ++ [IntervalIssue healthScore]
    else errors in
  let bounds := get tierBounds (property_key (f_engagementTier record)) in
  let errors :=
    if negb (truthy bounds)
    then errors ++ [UnknownTierIssue (f_engagementTier record)]
    else if num_lt (to_number healthScore) (to_number (bound_at bounds 0))
            || num_gt (to_number healthScore) (to_number (bound_at bounds 1))
    then errors ++ [TierScoreIssue (f_engagementTier record)
                      (bound_at bounds 0) (bound_at bounds 1) healthScore]
    else errors in
  let errors :=
    fold_left
      (fun errors '(name, val) =>
         if not_a_count val
         then errors ++ [CountIssue name val]
         else errors)
      [ ("streakDays"%string, f_streakDays record);
        ("vibeCheckIns"%string, f_vibeCheckIns record);
        ("loginCount"%string, f_loginCount record) ]
      errors in
  let errors :=
    if not_a_number_type (f_averageVibeScore record)
       || num_lt (to_number (f_averageVibeScore record)) (lit 1)
       || num_gt (to_number (f_averageVibeScore record)) (lit 5)
    then errors ++ [OrdinalBoundsIssue (f_averageVibeScore record)]
    else errors in
  {| hr_valid := is_nil errors; hr_errors := errors |}.

(** The objects with every field present. *)
Definition checkIn_fields (moodValue : number) (moodLabel : string)
  : CheckInFields :=
  {| moodValue := Some moodValue; moodLabel := Some moodLabel |}.

Definition health_fields (record : HealthScoreRecord) : HealthFields :=
  {| f_streakDays := Some (streakDays record);
     f_vibeCheckIns := Some (vibeCheckIns record);
     f_averageVibeScore := Some (averageVibeScore record);
     f_loginCount := Some (loginCount record);
     f_healthScore := Some (healthScore record);
     f_engagementTier := Some (engagementTier record) |}.

(** *** [validateFullSnapshot] *)

(** A snapshot; a section it does not have is [None]. *)
Record Snapshot : Type := {
  latestCheckIn : option CheckInFields;
  streak : option Streak;
  category : option string;
  healthScore_section : option HealthFields
}.

Definition empty_checkIn : CheckInFields :=
  {| moodValue := None; moodLabel := None |}.

Definition empty_streak : Streak :=
  {| currentStreak := None; longestStreak := None; totalActiveDays := None |}.

Definition empty_health : HealthFields :=
  {| f_streakDays := None; f_vibeCheckIns := None;
     f_averageVibeScore := None; f_loginCount := None;
     f_healthScore := None; f_engagementTier := None |}.

(** [v || d] on a section: an object is truthy. *)
Definition or_default {A : Type} (v : option A) (d : A) : A :=
  match v with
  | Some a => a
  | None => d
  end.

(** [snapshot.category || '']: the empty string is falsy as well. *)
Definition category_or_empty (v : option string) : string :=
  match v with
  | Some s => s
  | None => ""
  end.

Record Results : Type := {
  r_vibeCheckIn : CheckInReport;
  r_streak : StreakResult;
  r_category : CategoryResult;
  r_healthScore : HealthReport
}.

Record SnapshotResult : Type := {
  allValid : bool;
  results : Results
}.

(** [validateFullSnapshot(snapshot)]; [None] stands for a thrown
    [TypeError]. *)
Definition validateFullSnapshot (snapshot : Snapshot)
  : option SnapshotResult :=
  match validateVibeCheckIn_fields
          (or_default (latestCheckIn snapshot) empty_checkIn) with
  | None => None
  | Some vibeCheckIn =>
      let results :=
        {| r_vibeCheckIn := vibeCheckIn;
           r_streak := validateStreak (or_default (streak snapshot)
                                                  empty_streak);
           r_category := validateSupportCategory
                           (category_or_empty (category snapshot));
           r_healthScore := validateHealthScore_fields
                              (or_default (healthScore_section snapshot)
                                          empty_health) |} in
      let allValid :=
        forallb (fun valid => valid)
          [ ci_valid (r_vibeCheckIn results); st_valid (r_streak results);
            cat_valid (r_category results);
            hr_valid (r_healthScore results) ] in
      Some {| allValid := allValid; results := results |}
  end.

End Records.

(** ** The component [App] of [src/MindflowApp.jsx] *)

Module App.

Import Dashboard.

(** [Math.max(a, b)]: [NaN] when either argument is. *)
Definition Math_max (a b : number) : number :=
  match a, b with
  | NaN, _ | _, NaN => NaN
  | _, _ => if num_lt a b then b else a
  end.

(** [Math.round(x)]: the nearest integer, the larger one on a tie. *)
Definition Math_round (a : number) : number :=
  match a with
  | Fin q => round64 (inject_Z (Qfloor (q + (1 # 2))))
  | _ => a
  end.

(** The number of a count, such as [array.length] or an index. *)
Definition of_nat (n : nat) : number := of_Z (Z.of_nat n).

(** [array[i]] for a number [i]: an element when [i] is one of the
    indices, [undefined] otherwise. *)
Definition array_get {A : Type} (array : list A) (i : number) : option A :=
  match i with
  | Fin q =>
      if isInteger i && Qle_bool 0 q
      then nth_error array (Z.to_nat (Qfloor q))
      else None
  | _ => None
  end.

(** [array.slice(-count)]: the last [count] elements, all of them when
    there are fewer. *)
Definition slice_last {A : Type} (count : nat) (array : list A) : list A :=
  skipn (List.length array - count) array.

(** A string of user text, as its UTF-16 code units. *)
Definition text : Type := list N.

Definition units (s : string) : text :=
  map N_of_ascii (list_ascii_of_string s).

(** White space and line terminators, the code units [trim] removes. *)
Definition is_white_space (c : N) : bool :=
  ((9 <=? c) && (c <=? 13) || (c =? 32) || (c =? 160) || (c =? 5760)
   || (8192 <=? c) && (c <=? 8202) || (c =? 8232) || (c =? 8233)
   || (c =? 8239) || (c =? 8287) || (c =? 12288) || (c =? 65279))%N.

Fixpoint trimStart (s : text) : text :=
  match s with
  | c :: rest => if is_white_space c then trimStart rest else s
  | [] => []
  end.

Definition trimEnd (s : text) : text := rev (trimStart (rev s)).

Definition trim (s : text) : text := trimEnd (trimStart s).

(** The horizontal ellipsis, one code unit. *)
Definition ellipsis : text := [8230%N].

Definition SUPPORT_CATEGORIES : list string :=
  [ "Anxiety"; "Depression"; "Stress"; "Burnout"; "Study Tips";
    "Relationships"; "General Wellness" ]%string.

Definition TABS : list string :=
  [ "dashboard"; "vibe"; "forum"; "scores" ]%string.

Record Streak : Type := {
  currentStreak : number;
  longestStreak : number;
  totalActiveDays : number
}.

Record Post : Type := {
  id : number;
  category : string;
  preview : text;
  flagged : bool
}.

Record State : Type := {
  streak : Streak;
  logins : number;
  journalsCompleted : number;
  resourceViews : list (string * number);
  checkInHistory : list number;
  forumPosts : list Post
}.

Definition INITIAL_STATE : State :=
  {| streak := {| currentStreak := lit 7; longestStreak := lit 14;
                  totalActiveDays := lit 28 |};
     logins := lit 23;
     journalsCompleted := lit 18;
     resourceViews := [ ("Anxiety", lit 12); ("Burnout", lit 8);
                        ("Stress", lit 15) ]%string;
     checkInHistory := [ lit 4; lit 3; lit 5; lit 2; lit 4; lit 5; lit 3 ];
     forumPosts :=
       [ {| id := lit 1; category := "Anxiety";
            preview := units "Feeling overwhelmed with finals...";
            flagged := false |};
         {| id := lit 2; category := "Study Tips";
            preview := units "Pomodoro technique changed my life!";
            flagged := false |};
         {| id := lit 3; category := "Burnout";
            preview := units "Can't stop doom-scrolling at 2am";
            flagged := false |} ] |}.

(** The messages passed to [showToast]: "Select a mood first!", "Vibe
    logged! ... saved.", "Validation error: ...", "Write something
    first!" and "Post submitted anonymously to Support Circle.". *)
Inductive Message : Type :=
| SelectAMoodFirst
| VibeLogged (label : string) (value : number)
| ValidationError (error : option CheckInError)
| WriteSomethingFirst
| PostSubmitted.

Record Toast : Type := {
  msg : Message;
  ok : bool
}.

(** The draft of the forum tab, [newPost]. *)
Record NewPost : Type := {
  newPost_category : string;
  content : text
}.

(** The state variables of the component. *)
Record Component : Type := {
  tab : string;
  state : State;
  selectedMood : option Mood;
  validationMsg : option CheckInResult;
  toast : option Toast;
  newPost : NewPost
}.

Definition initial : Component :=
  {| tab := "dashboard"; state := INITIAL_STATE; selectedMood := None;
     validationMsg := None; toast := None;
     newPost := {| newPost_category := "Anxiety"; content := [] |} |}.

Definition setTab (t : string) (c : Component) : Component :=
  {| tab := t; state := state c; selectedMood := selectedMood c;
     validationMsg := validationMsg c; toast := toast c;
     newPost := newPost c |}.

Definition setState (f : State -> State) (c : Component) : Component :=
  {| tab := tab c; state := f (state c); selectedMood := selectedMood c;
     validationMsg := validationMsg c; toast := toast c;
     newPost := newPost c |}.

Definition setSelectedMood (m : option Mood) (c : Component) : Component :=
  {| tab := tab c; state := state c; selectedMood := m;
     validationMsg := validationMsg c; toast := toast c;
     newPost := newPost c |}.

Definition setValidationMsg (r : option CheckInResult) (c : Component)
  : Component :=
  {| tab := tab c; state := state c; selectedMood := selectedMood c;
     validationMsg := r; toast := toast c; newPost := newPost c |}.

Definition setToast (t : option Toast) (c : Component) : Component :=
  {| tab := tab c; state := state c; selectedMood := selectedMood c;
     validationMsg := validationMsg c; toast := t; newPost := newPost c |}.

Definition setNewPost (f : NewPost -> NewPost) (c : Component) : Component :=
  {| tab := tab c; state := state c; selectedMood := selectedMood c;
     validationMsg := validationMsg c; toast := toast c;
     newPost := f (newPost c) |}.

(** [avgVibe]. *)
Definition avgVibe (s : State) : number :=
  num_div (fold_left (fun a b => num_add a b) (checkInHistory s) (lit 0))
          (of_nat (List.length (checkInHistory s))).

(** [hs]; [None] when [computeHealthScore] throws. *)
Definition hs (s : State) : option Health :=
  computeHealthScore (currentStreak (streak s)) (journalsCompleted s)
                     (avgVibe s) (logins s).

(** [showToast(msg, ok)]; the timer it starts is the event
    [ToastTimeout] below. *)
Definition showToast (m : Message) (ok : bool) (c : Component) : Component :=
  setToast (Some {| msg := m; ok := ok |}) c.

(** The update [handleVibeSubmit] passes to [setState]. *)
Definition logged (mood : Mood) (prev : State) : State :=
  let newHistory := slice_last 6 (checkInHistory prev) ++ [value mood] in
  {| streak :=
       {| currentStreak := num_add (currentStreak (streak prev)) (lit 1);
          longestStreak :=
            Math_max (longestStreak (streak prev))
                     (num_add (currentStreak (streak prev)) (lit 1));
          totalActiveDays :=
            num_add (totalActiveDays (streak prev)) (lit 1) |};
     logins := logins prev;
     journalsCompleted := num_add (journalsCompleted prev) (lit 1);
     resourceViews := resourceViews prev;
     checkInHistory := newHistory;
     forumPosts := forumPosts prev |}.

Definition handleVibeSubmit (c : Component) : Component :=
  match selectedMood c with
  | None => showToast SelectAMoodFirst false c
  | Some mood =>
      let result := validateCheckIn (value mood) (label mood) in
      let c := setValidationMsg (Some result) c in
      if valid result
      then
        let c := setState (logged mood) c in
        let c := showToast (VibeLogged (label mood) (value mood)) true c in
        setSelectedMood None c
      else showToast (ValidationError (error result)) false c
  end.

(** The update [handlePostSubmit] passes to [setState]. *)
Definition posted (post : Post) (prev : State) : State :=
  {| streak := streak prev; logins := logins prev;
     journalsCompleted := journalsCompleted prev;
     resourceViews := resourceViews prev;
     checkInHistory := checkInHistory prev;
     forumPosts := post :: forumPosts prev |}.

(** [handlePostSubmit], with the value [Date.now()] returns. *)
Definition handlePostSubmit (now : number) (c : Component) : Component :=
  match trim (content (newPost c)) with
  | [] => showToast WriteSomethingFirst false c
  | _ :: _ =>
      let post :=
        {| id := now; category := newPost_category (newPost c);
           preview := firstn 60 (content (newPost c))
                      ++ (if (60 <? List.length (content (newPost c)))%nat
                          then ellipsis else []);
           flagged := false |} in
      let c := setState (posted post) c in
      let c := setNewPost (fun _ => {| newPost_category := "Anxiety";
                                       content := [] |}) c in
      showToast PostSubmitted true c
  end.

(** What the user and the timers can do: the buttons are those the
    component renders, one per element of [TABS], [VIBE_SCALE] and
    [SUPPORT_CATEGORIES]. *)
Inductive Event : Type :=
| ClickTab (i : nat)
| ClickMood (i : nat)
| ClickLogVibe
| ClickCategory (i : nat)
| TypeContent (value : text)
| ClickPost (now : number)
| ToastTimeout.

Definition handle (c : Component) (e : Event) : Component :=
  match e with
  | ClickTab i =>
      match nth_error TABS i with
      | Some t => setTab t c
      | None => c
      end
  | ClickMood i =>
      match nth_error VIBE_SCALE i with
      | Some item => setValidationMsg None (setSelectedMood (Some item) c)
      | None => c
      end
  | ClickLogVibe => handleVibeSubmit c
  | ClickCategory i =>
      match nth_error SUPPORT_CATEGORIES i with
      | Some cat =>
          setNewPost (fun p => {| newPost_category := cat;
                                  content := content p |}) c
      | None => c
      end
  | TypeContent value =>
      setNewPost (fun p => {| newPost_category := newPost_category p;
                              content := value |}) c
  | ClickPost now => handlePostSubmit now c
  | ToastTimeout => setToast None c
  end.

(** The component after a sequence of events, each handled after the
    render that follows the previous one. *)
Definition run (events : list Event) : Component :=
  fold_left handle events initial.

(** *** What the dashboard tab computes from the state *)

(** [VIBE_SCALE[v - 1]], the entry whose emoji is shown for a history
    value. *)
Definition history_item (v : number) : option Mood :=
  array_get VIBE_SCALE (num_sub v (lit 1)).

(** The value shown in the streak ring. *)
Definition streak_percent (s : State) : number :=
  Math_round (num_mul (num_div (currentStreak (streak s))
                               (longestStreak (streak s)))
                      (lit 100)).

(** The points of [MoodSparkline]. *)
Definition sparkline_point (n : number) (i v : number) : number * number :=
  let W := lit 260 in
  let H := lit 60 in
  let pad := lit 8 in
  let x := num_add pad
             (num_mul (num_div i (num_sub n (lit 1)))
                      (num_sub W (num_mul pad (lit 2)))) in
  let y := num_sub (num_sub H pad)
             (num_mul (num_div (num_sub v (lit 1)) (lit 4))
                      (num_sub H (num_mul pad (lit 2)))) in
  (x, y).

Definition MoodSparkline_pts (history : list number)
  : list (number * number) :=
  let n := of_nat (List.length history) in
  map (fun '(i, v) => sparkline_point n (of_nat i) v)
      (combine (seq 0 (List.length history)) history).

(** *** The states the component goes through *)

(** The streak of the state, as the object [validateStreak] takes. *)
Definition streak_fields (s : Streak) : Records.Streak :=
  {| Records.currentStreak := Some (currentStreak s);
     Records.longestStreak := Some (longestStreak s);
     Records.totalActiveDays := Some (totalActiveDays s) |}.

(** The value of an entry of the scale. *)
Definition on_scale (v : number) : Prop :=
  exists item, In item VIBE_SCALE /\ v = value item.

(** No mood, or one of the buttons' moods. *)
Definition offered (m : option Mood) : Prop :=
  match m with
  | Some item => In item VIBE_SCALE
  | None => True
  end.

(** No validation result, or a valid one. *)
Definition accepted (r : option CheckInResult) : Prop :=
  match r with
  | Some result => valid result = true
  | None => True
  end.

(** No toast, or one that is not the validation error. *)
Definition no_validation_error (t : option Toast) : Prop :=
  match t with
  | Some t => forall error, msg t <> ValidationError error
  | None => True
  end.

(** What every event preserves. *)
Definition invariant (c : Component) : Prop :=
  offered (selectedMood c) /\
  List.length (checkInHistory (state c)) = 7%nat /\
  Forall on_scale (checkInHistory (state c)) /\
  nonneg (currentStreak (streak (state c))) /\
  num_le (currentStreak (streak (state c)))
         (longestStreak (streak (state c))) = true /\
  num_le (currentStreak (streak (state c)))
         (totalActiveDays (streak (state c))) = true /\
  nonneg (journalsCompleted (state c)) /\
  logins (state c) = lit 23 /\
  Forall (fun p => In (category p) SUPPORT_CATEGORIES /\
                   (List.length (preview p) <= 61)%nat)
         (forumPosts (state c)) /\
  In (newPost_category (newPost c)) SUPPORT_CATEGORIES /\
  accepted (validationMsg c) /\
  no_validation_error (toast c).

End App.

(** * Properties *)

Example round64_tenth :
  lit (1 # 10) = Fin (3602879701896397 # 36028797018963968).
Proof. vm_compute. reflexivity. Qed.

Example round64_sum : num_add (lit (1 # 10)) (lit (2 # 10)) =
  Fin (1351079888211149 # 4503599627370496).
Proof. vm_compute. reflexivity. Qed.


(** ** The test runner of measurementValidation.js

    The cases of [runTests] on the functions embedded here, with the
    outcome their names announce. *)

Section RunTests.

Import Validation.

Example test_valid_check_in :
  validateVibeCheckIn (lit 3) "Neutral"
  = Some {| valid := true; errors := [] |}.
Proof. vm_compute. reflexivity. Qed.

Example test_homomorphism_violation :
  validateVibeCheckIn (lit 1) "Great"
  = Some {| valid := false;
            errors := [HomomorphismViolation "Great" (Some (lit 5)) (lit 1)] |}.
Proof. vm_compute. reflexivity. Qed.

Example test_valid_health_score :
  validateHealthScore
    {| streakDays := lit 7; vibeCheckIns := lit 15;
       averageVibeScore := lit (42 # 10); loginCount := lit 20;
       healthScore := lit (725 # 10); engagementTier := "High" |}
  = {| hs_valid := true; hs_errors := [] |}.
Proof. vm_compute. reflexivity. Qed.

Example test_tier_score_mismatch :
  validateHealthScore
    {| streakDays := lit 7; vibeCheckIns := lit 15;
       averageVibeScore := lit (42 # 10); loginCount := lit 20;
       healthScore := lit 15; engagementTier := "Excellent" |}
  = {| hs_valid := false;
       hs_errors := [TierScoreMismatch "Excellent" (Some (lit 76))
                                       (Some (lit 100)) (lit 15)] |}.
Proof. vm_compute. reflexivity. Qed.

End RunTests.

(** ** Powers of two and binades *)

Section Binades.

Lemma pow2_pos (e : Z) : 0 < pow2 e.
Proof. apply Qpower_0_lt. reflexivity. Qed.

Lemma pow2_add (a b : Z) : pow2 (a + b) == pow2 a * pow2 b.
Proof. unfold pow2. apply Qpower_plus. discriminate. Qed.

Lemma pow2_sub (a b : Z) : pow2 (a - b) * pow2 b == pow2 a.
Proof.
  rewrite <- pow2_add. replace (a - b + b)%Z with a by ring. reflexivity.
Qed.

Lemma pow2_le (a b : Z) : (a <= b)%Z -> pow2 a <= pow2 b.
Proof. intros H. apply Qpower_le_compat_l; [exact H | discriminate]. Qed.

Lemma pow2_lt_inv (a b : Z) : pow2 a < pow2 b -> (a < b)%Z.
Proof. intros H. apply (Qpower_lt_compat_l_inv 2); [exact H | reflexivity]. Qed.

Lemma pow2_inject (e : Z) : (0 <= e)%Z -> pow2 e == inject_Z (2 ^ e).
Proof. intros H. unfold pow2. rewrite Zpower_Qpower by exact H. reflexivity. Qed.

Lemma Q_as_fraction (x : Q) : x * inject_Z (Zpos (Qden x)) == inject_Z (Qnum x).
Proof.
  destruct x as [p q]. unfold Qeq, Qmult, inject_Z. simpl. lia.
Qed.

Lemma ilog2_spec (x : Q) :
  0 < x -> pow2 (ilog2 x) <= x /\ x < pow2 (ilog2 x + 1).
Proof.
  intros Hx.
  assert (Hp : (0 < Qnum x)%Z).
  { destruct x as [p q]. unfold Qlt in Hx. simpl in *. lia. }
  set (a := Z.log2 (Qnum x)). set (b := Z.log2 (Zpos (Qden x))).
  assert (Ha : (0 <= a)%Z) by apply Z.log2_nonneg.
  assert (Hb : (0 <= b)%Z) by apply Z.log2_nonneg.
  destruct (Z.log2_spec (Qnum x) Hp) as [Ha1 Ha2].
  destruct (Z.log2_spec (Zpos (Qden x)) (Pos2Z.is_pos _)) as [Hb1 Hb2].
  fold a in Ha1, Ha2. fold b in Hb1, Hb2.
  pose proof (Q_as_fraction x) as Hfrac.
  assert (HA1 : pow2 a <= inject_Z (Qnum x)).
  { rewrite pow2_inject by exact Ha. rewrite <- Zle_Qle. exact Ha1. }
  assert (HA2 : inject_Z (Qnum x) < pow2 (a + 1)).
  { rewrite pow2_inject by lia. rewrite <- Zlt_Qlt. exact Ha2. }
  assert (HB1 : pow2 b <= inject_Z (Zpos (Qden x))).
  { rewrite pow2_inject by exact Hb. rewrite <- Zle_Qle. exact Hb1. }
  assert (HB2 : inject_Z (Zpos (Qden x)) < pow2 (b + 1)).
  { rewrite pow2_inject by lia. rewrite <- Zlt_Qlt. exact Hb2. }
  pose proof (pow2_pos b) as Hbp.
  pose proof (pow2_pos (b + 1)) as Hbp1.
  assert (Hlow : pow2 (a - b - 1) <= x).
  { pose proof (pow2_sub a (b + 1)) as E.
    replace (a - (b + 1))%Z with (a - b - 1)%Z in E by ring.
    pose proof (pow2_pos (a - b - 1)) as Hpp.
    set (T := pow2 (a - b - 1)) in *. set (B1 := pow2 (b + 1)) in *.
    set (Qq := inject_Z (Zpos (Qden x))) in *.
    set (P := inject_Z (Qnum x)) in *. set (A := pow2 a) in *.
    destruct (Qlt_le_dec x T) as [C | C]; [exfalso | exact C].
    nra. }
  assert (Hupp : x < pow2 (a - b + 1)).
  { pose proof (pow2_sub (a + 1) b) as E.
    replace (a + 1 - b)%Z with (a - b + 1)%Z in E by ring.
    pose proof (pow2_pos (a - b + 1)) as Hpp.
    set (T := pow2 (a - b + 1)) in *. set (B := pow2 b) in *.
    set (Qq := inject_Z (Zpos (Qden x))) in *.
    set (P := inject_Z (Qnum x)) in *. set (A := pow2 (a + 1)) in *.
    destruct (Qlt_le_dec x T) as [C | C]; [exact C | exfalso].
    nra. }
  unfold ilog2. fold a b.
  destruct (Qle_bool (pow2 (a - b)) x) eqn:E.
  - apply Qle_bool_iff in E. split; assumption.
  - split.
    + exact Hlow.
    + replace (a - b - 1 + 1)%Z with (a - b)%Z by ring.
      apply Qnot_le_lt. intros C. apply Qle_bool_iff in C. congruence.
Qed.

Lemma ilog2_mono (x y : Q) : 0 < x -> x <= y -> (ilog2 x <= ilog2 y)%Z.
Proof.
  intros Hx Hxy.
  destruct (ilog2_spec x Hx) as [H1 _].
  destruct (ilog2_spec y) as [_ H2]; [lra |].
  assert (H : pow2 (ilog2 x) < pow2 (ilog2 y + 1)) by lra.
  apply pow2_lt_inv in H. lia.
Qed.

End Binades.

(** ** Rounding is monotone *)

Section Rounding.

Lemma rne_cases (x : Q) : rne x = Qfloor x \/ rne x = (Qfloor x + 1)%Z.
Proof.
  unfold rne. destruct (Qcompare _ _); [destruct (Z.even _) | |]; auto.
Qed.

Lemma rne_mono (x y : Q) : x <= y -> (rne x <= rne y)%Z.
Proof.
  intros Hxy.
  pose proof (Qfloor_resp_le x y Hxy) as Hfl.
  destruct (Z.eq_dec (Qfloor x) (Qfloor y)) as [E | NE].
  - unfold rne. rewrite <- E.
    destruct (Qcompare_spec (x - inject_Z (Qfloor x)) (1 # 2)) as [Hx | Hx | Hx];
      destruct (Qcompare_spec (y - inject_Z (Qfloor x)) (1 # 2)) as [Hy | Hy | Hy];
      try destruct (Z.even (Qfloor x)); try lia; exfalso; lra.
  - destruct (rne_cases x) as [-> | ->], (rne_cases y) as [-> | ->]; lia.
Qed.

Lemma rne_Z (k : Z) : rne (inject_Z k) = k.
Proof.
  unfold rne. rewrite Qfloor_Z.
  destruct (Qcompare_spec (inject_Z k - inject_Z k) (1 # 2)) as [H | H | H];
    [exfalso; lra | reflexivity | exfalso; lra].
Qed.

Lemma rne_le_Z (x : Q) (k : Z) : x <= inject_Z k -> (rne x <= k)%Z.
Proof. intros H. rewrite <- (rne_Z k). apply rne_mono, H. Qed.

Lemma rne_ge_Z (x : Q) (k : Z) : inject_Z k <= x -> (k <= rne x)%Z.
Proof. intros H. rewrite <- (rne_Z k). apply rne_mono, H. Qed.

Lemma fexp_mono (a b : Z) : (a <= b)%Z -> (fexp a <= fexp b)%Z.
Proof. unfold fexp. lia. Qed.

Lemma scale_le (x y : Q) (f : Z) : x <= y -> x / pow2 f <= y / pow2 f.
Proof.
  intros H. pose proof (pow2_pos f) as Hp.
  unfold Qdiv. apply Qmult_le_compat_r; [exact H |].
  apply Qlt_le_weak, Qinv_lt_0_compat, Hp.
Qed.

Lemma scale_pow2 (a f : Z) : pow2 a / pow2 f == pow2 (a - f).
Proof.
  pose proof (pow2_pos f) as Hp. pose proof (pow2_sub a f) as E.
  rewrite <- E. field. lra.
Qed.

Lemma round_pos_nonneg (x : Q) : 0 < x -> 0 <= round_pos x.
Proof.
  intros Hx. unfold round_pos.
  set (f := fexp (ilog2 x)). pose proof (pow2_pos f) as Hp.
  assert (H : (0 <= rne (x / pow2 f))%Z).
  { apply rne_ge_Z. change (inject_Z 0) with 0.
    apply Qlt_le_weak, Qlt_shift_div_l; [exact Hp | lra]. }
  apply Qmult_le_0_compat; [| lra].
  change 0 with (inject_Z 0). rewrite <- Zle_Qle. exact H.
Qed.

(** A positive [x] rounds to at least the bottom of its binade, when the
    binade is not subnormal. *)
Lemma round_pos_lower (y : Q) :
  0 < y -> fexp (ilog2 y) = (ilog2 y - 52)%Z -> pow2 (ilog2 y) <= round_pos y.
Proof.
  intros Hy Hf. unfold round_pos. rewrite Hf.
  destruct (ilog2_spec y Hy) as [H1 _].
  set (e := ilog2 y) in *. pose proof (pow2_pos (e - 52)) as Hp.
  assert (H : (2 ^ 52 <= rne (y / pow2 (e - 52)))%Z).
  { apply rne_ge_Z. rewrite <- pow2_inject by lia.
    assert (E : pow2 52 == pow2 e / pow2 (e - 52)).
    { rewrite scale_pow2. replace (e - (e - 52))%Z with 52%Z by ring.
      reflexivity. }
    rewrite E. apply scale_le, H1. }
  rewrite Zle_Qle in H. rewrite <- pow2_inject in H by lia.
  pose proof (pow2_sub e (e - 52)) as E.
  replace (e - (e - 52))%Z with 52%Z in E by ring.
  set (R := inject_Z (rne (y / pow2 (e - 52)))) in *.
  set (P := pow2 (e - 52)) in *. set (A := pow2 52) in *.
  set (B := pow2 e) in *. nra.
Qed.

(** A positive [x] rounds to at most the top of its binade, or to the
    least subnormal when it lies below it. *)
Lemma round_pos_upper (x : Q) :
  0 < x -> round_pos x <= pow2 (Z.max (ilog2 x + 1) (fexp (ilog2 x))).
Proof.
  intros Hx. unfold round_pos.
  destruct (ilog2_spec x Hx) as [_ H2].
  set (e := ilog2 x) in *. set (f := fexp e).
  pose proof (pow2_pos f) as Hp.
  set (k := Z.max (e + 1 - f) 0).
  assert (H : (rne (x / pow2 f) <= 2 ^ k)%Z).
  { apply rne_le_Z. rewrite <- pow2_inject by (unfold k; lia).
    apply Qle_trans with (pow2 (e + 1) / pow2 f).
    - apply scale_le. lra.
    - rewrite scale_pow2. apply pow2_le. unfold k. lia. }
  rewrite Zle_Qle in H. rewrite <- pow2_inject in H by (unfold k; lia).
  replace (Z.max (e + 1) f) with (k + f)%Z by (unfold k; lia).
  rewrite pow2_add.
  apply Qmult_le_compat_r; [exact H | lra].
Qed.

Lemma round_pos_mono (x y : Q) :
  0 < x -> x <= y -> round_pos x <= round_pos y.
Proof.
  intros Hx Hxy.
  assert (Hy : 0 < y) by lra.
  pose proof (ilog2_mono x y Hx Hxy) as He.
  destruct (Z.eq_dec (fexp (ilog2 x)) (fexp (ilog2 y))) as [E | NE].
  - unfold round_pos. rewrite <- E.
    set (f := fexp (ilog2 x)). pose proof (pow2_pos f) as Hp.
    apply Qmult_le_compat_r; [| lra].
    rewrite <- Zle_Qle. apply rne_mono, scale_le, Hxy.
  - pose proof (fexp_mono _ _ He) as Hf.
    assert (Hfy : fexp (ilog2 y) = (ilog2 y - 52)%Z) by (unfold fexp in *; lia).
    apply Qle_trans with (pow2 (ilog2 y)).
    + eapply Qle_trans; [apply round_pos_upper, Hx |].
      apply pow2_le. unfold fexp in *. lia.
    + apply round_pos_lower; assumption.
Qed.

Lemma round_q_mono (x y : Q) : x <= y -> round_q x <= round_q y.
Proof.
  intros Hxy. unfold round_q.
  destruct (Qcompare_spec x 0) as [Hx | Hx | Hx];
    destruct (Qcompare_spec y 0) as [Hy | Hy | Hy];
    try (exfalso; lra); try lra.
  - apply round_pos_nonneg, Hy.
  - assert (H : 0 <= round_pos (- x)) by (apply round_pos_nonneg; lra). lra.
  - assert (H : round_pos (- y) <= round_pos (- x))
      by (apply round_pos_mono; lra).
    lra.
  - assert (H : 0 <= round_pos (- x)) by (apply round_pos_nonneg; lra).
    pose proof (round_pos_nonneg y Hy) as H'. lra.
  - apply round_pos_mono; assumption.
Qed.

Lemma round_q_0 : round_q 0 = 0.
Proof. reflexivity. Qed.

End Rounding.

(** ** The order of numbers and the arithmetic operations *)

Section NumberOrder.

Lemma overflow_spec (r : Q) :
  (overflow r = Inf false /\ pow2 1024 <= r) \/
  (overflow r = Inf true /\ r <= - pow2 1024) \/
  (overflow r = Fin (Qred r) /\ - pow2 1024 < r /\ r < pow2 1024).
Proof.
  pose proof (pow2_pos 1024) as Hp. unfold overflow.
  generalize dependent (pow2 1024). intros P Hp.
  destruct (Qle_bool P (Qabs r)) eqn:E.
  - apply Qle_bool_iff in E.
    destruct (Qle_bool 0 r) eqn:S; simpl.
    + apply Qle_bool_iff in S. rewrite Qabs_pos in E by exact S. auto.
    + assert (Hr : r <= 0).
      { apply Qlt_le_weak, Qnot_le_lt. intros C.
        apply Qle_bool_iff in C. congruence. }
      rewrite Qabs_neg in E by exact Hr. right; left. split; [reflexivity | lra].
  - right; right. split; [reflexivity |].
    assert (H : Qabs r < P).
    { apply Qnot_le_lt. intros C. apply Qle_bool_iff in C. congruence. }
    apply Qabs_Qlt_condition in H. exact H.
Qed.

Lemma num_lt_Fin (x y : Q) : num_lt (Fin x) (Fin y) = false <-> y <= x.
Proof.
  simpl. rewrite negb_false_iff. apply Qle_bool_iff.
Qed.

Lemma num_lt_Fin_true (x y : Q) : num_lt (Fin x) (Fin y) = true <-> x < y.
Proof.
  simpl. rewrite negb_true_iff. split; intros H.
  - apply Qnot_le_lt. intros C. apply Qle_bool_iff in C. congruence.
  - destruct (Qle_bool y x) eqn:E; [| reflexivity].
    apply Qle_bool_iff in E. exfalso. lra.
Qed.

Lemma num_lt_from_pos_inf (n : number) : num_lt (Inf false) n = false.
Proof. destruct n as [| [] |]; reflexivity. Qed.

Lemma num_lt_to_neg_inf (n : number) : num_lt n (Inf true) = false.
Proof. destruct n as [| [] |]; reflexivity. Qed.

Lemma num_lt_to_NaN (n : number) : num_lt n NaN = false.
Proof. destruct n as [| [] |]; reflexivity. Qed.

Lemma not_above_refl (a : number) : not_above a a.
Proof.
  unfold not_above. destruct a as [| [] | x]; try reflexivity.
  apply num_lt_Fin. lra.
Qed.

Lemma overflow_mono (r s : Q) :
  r <= s -> not_above (overflow r) (overflow s).
Proof.
  intros H. unfold not_above. pose proof (pow2_pos 1024) as Hp.
  destruct (overflow_spec r) as [[-> Hr] | [[-> Hr] | [-> Hr]]];
    destruct (overflow_spec s) as [[-> Hs] | [[-> Hs] | [-> Hs]]];
    try reflexivity;
    try (exfalso; generalize dependent (pow2 1024); intros; lra).
  apply num_lt_Fin. rewrite !Qred_correct. exact H.
Qed.

Lemma round64_mono (x y : Q) : x <= y -> not_above (round64 x) (round64 y).
Proof. intros H. apply overflow_mono, round_q_mono, H. Qed.

Lemma round64_not_NaN (x : Q) : round64 x <> NaN.
Proof.
  unfold round64.
  destruct (overflow_spec (round_q x)) as [[-> _] | [[-> _] | [-> _]]];
    discriminate.
Qed.

Lemma num_le_spec (a b : number) :
  num_le a b = true <-> a <> NaN /\ b <> NaN /\ not_above a b.
Proof.
  unfold not_above, num_le.
  destruct a as [| [] | x], b as [| [] | y]; simpl;
    try (split; [intros H; try discriminate H;
                 repeat split; (discriminate || reflexivity)
                | intros (H1 & H2 & H3);
                  try discriminate H3; try reflexivity;
                  congruence]).
  rewrite orb_true_iff, negb_true_iff, negb_false_iff.
  rewrite Qeq_bool_iff, Qle_bool_iff.
  split.
  - intros [H | H].
    + repeat split; try discriminate.
      apply Qlt_le_weak, Qnot_le_lt. intros C.
      apply Qle_bool_iff in C. congruence.
    + repeat split; try discriminate. lra.
  - intros (_ & _ & H).
    destruct (Qle_bool y x) eqn:E; [| left; reflexivity].
    apply Qle_bool_iff in E. right. lra.
Qed.

Lemma num_le_Fin (x y : Q) : num_le (Fin x) (Fin y) = true <-> x <= y.
Proof.
  rewrite num_le_spec. unfold not_above. rewrite num_lt_Fin.
  split; [intros (_ & _ & H); exact H | intros H; repeat split; [discriminate .. | exact H]].
Qed.

Lemma num_le_Fin_false (x y : Q) : num_le (Fin x) (Fin y) = false <-> y < x.
Proof.
  split; intros H.
  - apply Qnot_le_lt. intros C. apply num_le_Fin in C. congruence.
  - destruct (num_le (Fin x) (Fin y)) eqn:E; [| reflexivity].
    apply num_le_Fin in E. exfalso. lra.
Qed.

Lemma num_le_trans (a b c : number) :
  num_le a b = true -> num_le b c = true -> num_le a c = true.
Proof.
  rewrite !num_le_spec. unfold not_above.
  intros (Ha & Hb & Hab) (_ & Hc & Hbc). repeat split; try assumption.
  destruct a as [| [] | x], b as [| [] | y], c as [| [] | z];
    try reflexivity; try discriminate; try congruence.
  apply num_lt_Fin in Hab, Hbc. apply num_lt_Fin. lra.
Qed.

Lemma num_le_not_lt (a b : number) : num_le a b = true -> num_lt b a = false.
Proof. intros H. apply num_le_spec in H. apply H. Qed.

Lemma nonneg_spec (a : number) :
  nonneg a <-> a = Inf false \/ exists q, a = Fin q /\ 0 <= q.
Proof.
  unfold nonneg. destruct a as [| [] | x].
  - split; [discriminate | intros [H | (q & H & _)]; discriminate H].
  - split; [discriminate | intros [H | (q & H & _)]; discriminate H].
  - split; [auto | reflexivity].
  - rewrite num_le_Fin. split.
    + intros H. right. exists x. auto.
    + intros [H | (q & H & Hq)]; [discriminate H |].
      injection H as ->. exact Hq.
Qed.

Lemma round64_nonneg (q : Q) : 0 <= q -> nonneg (round64 q).
Proof.
  intros H. unfold nonneg. apply num_le_spec.
  repeat split; [discriminate | apply round64_not_NaN |].
  change (Fin 0) with (round64 0). apply round64_mono, H.
Qed.

End NumberOrder.

(** ** The operations are monotone *)

Section Monotone.

Local Arguments round64 : simpl never.

Ltac fin_order :=
  repeat match goal with
  | H : negb (Qle_bool _ _) = false |- _ =>
      apply negb_false_iff, Qle_bool_iff in H
  | H : num_lt (Fin _) (Fin _) = false |- _ => apply num_lt_Fin in H
  | H : num_lt (Fin _) (Fin _) = true |- _ => apply num_lt_Fin_true in H
  | |- num_lt (Inf false) _ = false => apply num_lt_from_pos_inf
  | |- num_lt _ (Inf true) = false => apply num_lt_to_neg_inf
  | |- num_lt _ NaN = false => apply num_lt_to_NaN
  end.

Lemma add_mono (a a' b b' : number) :
  not_above a a' -> not_above b b' ->
  not_above (num_add a b) (num_add a' b').
Proof.
  unfold not_above.
  destruct a as [| [] | x], a' as [| [] | x'], b as [| [] | y],
    b' as [| [] | y']; intros Ha Hb; cbn in Ha, Hb; cbn [num_add Bool.eqb];
    try discriminate; fin_order; try reflexivity.
  apply round64_mono. lra.
Qed.

Lemma sub_mono_l (a a' c : number) :
  not_above a a' -> not_above (num_sub a c) (num_sub a' c).
Proof.
  unfold not_above.
  destruct a as [| [] | x], a' as [| [] | x'], c as [| [] | z];
    intros Ha; cbn in Ha; cbn [num_sub Bool.eqb negb];
    try discriminate; fin_order; try reflexivity.
  apply round64_mono. lra.
Qed.

Lemma mul_mono_l (a a' c : number) :
  finite_pos c -> not_above a a' -> not_above (num_mul a c) (num_mul a' c).
Proof.
  intros (z & -> & Hz). unfold not_above.
  assert (E : Qcompare z 0 = Gt) by (apply Qgt_alt; exact Hz).
  destruct a as [| [] | x], a' as [| [] | x']; intros Ha; cbn in Ha;
    cbn [num_mul]; rewrite ?E;
    try discriminate; fin_order; try reflexivity.
  apply round64_mono. nra.
Qed.

Lemma div_mono_l (a a' c : number) :
  finite_pos c -> not_above a a' -> not_above (num_div a c) (num_div a' c).
Proof.
  intros (z & -> & Hz). unfold not_above.
  assert (E : Qcompare z 0 = Gt) by (apply Qgt_alt; exact Hz).
  destruct a as [| [] | x], a' as [| [] | x']; intros Ha; cbn in Ha;
    cbn [num_div]; rewrite ?E;
    try discriminate; fin_order; try reflexivity.
  apply round64_mono. unfold Qdiv. apply Qmult_le_compat_r; [exact Ha |].
  apply Qlt_le_weak, Qinv_lt_0_compat, Hz.
Qed.

Lemma min_mono_l (a a' c : number) :
  not_above a a' -> not_above (Math_min a c) (Math_min a' c).
Proof.
  unfold not_above.
  destruct a as [| [] | x], a' as [| [] | x'], c as [| [] | z];
    simpl; intros Ha;
    try reflexivity; try discriminate;
    repeat match goal with
    | |- context [Qle_bool ?u ?v] =>
        let E := fresh "E" in destruct (Qle_bool u v) eqn:E; simpl
    end;
    try reflexivity; try discriminate;
    repeat match goal with
    | H : Qle_bool _ _ = true |- _ => apply Qle_bool_iff in H
    | H : Qle_bool _ _ = false |- _ =>
        apply not_true_iff_false in H; rewrite Qle_bool_iff in H
    | H : negb (Qle_bool _ _) = false |- _ =>
        apply negb_false_iff, Qle_bool_iff in H
    end;
    try (exfalso; lra); try (exfalso; apply E; lra);
    try (exfalso; apply E0; lra); try (exfalso; apply E1; lra).
Qed.

End Monotone.

(** ** [toFixed] is monotone *)

Section ToFixed.

Local Arguments round64 : simpl never.

Variable digits : nat.

Abbreviation scale := (inject_Z (10 ^ Z.of_nat digits)).
Abbreviation nearest := (nearest_decimal digits).

Lemma scale_pos : 0 < scale.
Proof.
  change 0 with (inject_Z 0). rewrite <- Zlt_Qlt.
  apply Z.pow_pos_nonneg; lia.
Qed.

Lemma round_half_up_mono (u v : Q) :
  u <= v -> (round_half_up u <= round_half_up v)%Z.
Proof. intros H. apply Qfloor_resp_le. lra. Qed.

Lemma round_half_up_le_Z (u : Q) (k : Z) :
  u <= inject_Z k -> (round_half_up u <= k)%Z.
Proof.
  intros H. unfold round_half_up.
  pose proof (Qfloor_le (u + (1 # 2))) as Hf.
  assert (Hlt : inject_Z (Qfloor (u + (1 # 2))) < inject_Z (k + 1)).
  { rewrite inject_Z_plus. change (inject_Z 1) with 1. lra. }
  rewrite <- Zlt_Qlt in Hlt. lia.
Qed.

Lemma round_half_up_nonneg (u : Q) : 0 <= u -> (0 <= round_half_up u)%Z.
Proof.
  intros H. unfold round_half_up.
  change 0%Z with (Qfloor 0). apply Qfloor_resp_le. lra.
Qed.

Lemma nearest_mono (u v : Q) : u <= v -> nearest u <= nearest v.
Proof.
  intros H. pose proof scale_pos as Hs. unfold nearest_decimal, Qdiv.
  apply Qmult_le_compat_r.
  - rewrite <- Zle_Qle. apply round_half_up_mono. nra.
  - apply Qlt_le_weak, Qinv_lt_0_compat, Hs.
Qed.

Lemma nearest_nonneg (u : Q) : 0 <= u -> 0 <= nearest u.
Proof.
  intros H. pose proof scale_pos as Hs. unfold nearest_decimal.
  apply Qle_shift_div_l; [exact Hs |].
  setoid_replace (0 * scale) with (inject_Z 0) by (unfold inject_Z; ring).
  rewrite <- Zle_Qle. apply round_half_up_nonneg. nra.
Qed.

Lemma nearest_le_Z (u : Q) (k : Z) :
  u <= inject_Z k -> nearest u <= inject_Z k.
Proof.
  intros H. pose proof scale_pos as Hs. unfold nearest_decimal.
  apply Qle_shift_div_r; [exact Hs |].
  rewrite <- inject_Z_mult, <- Zle_Qle.
  apply round_half_up_le_Z. rewrite inject_Z_mult. nra.
Qed.

Lemma toFixed_q_mono (x y : Q) :
  x <= y -> toFixed_q digits x <= toFixed_q digits y.
Proof.
  intros Hxy. unfold toFixed_q.
  set (B := 10 ^ 21 : Z).
  assert (HB : 0 < inject_Z B) by reflexivity.
  destruct (Qle_bool (inject_Z B) (Qabs x)) eqn:Ex;
    destruct (Qle_bool (inject_Z B) (Qabs y)) eqn:Ey.
  - exact Hxy.
  - apply Qle_bool_iff in Ex.
    assert (Hy : Qabs y < inject_Z B).
    { apply Qnot_le_lt. intros C. apply Qle_bool_iff in C. congruence. }
    apply Qabs_Qlt_condition in Hy.
    assert (Hx : x <= - inject_Z B).
    { revert Ex. apply Qabs_case; intros; lra. }
    destruct (Qcompare_spec y 0) as [H0 | H0 | H0].
    + assert (N1 : 0 <= nearest y) by (apply nearest_nonneg; lra). lra.
    + assert (H : nearest (- y) <= inject_Z B) by (apply nearest_le_Z; lra).
      lra.
    + assert (N2 : 0 <= nearest y) by (apply nearest_nonneg; lra). lra.
  - apply Qle_bool_iff in Ey.
    assert (Hx : Qabs x < inject_Z B).
    { apply Qnot_le_lt. intros C. apply Qle_bool_iff in C. congruence. }
    apply Qabs_Qlt_condition in Hx.
    assert (Hy : inject_Z B <= y).
    { revert Ey. apply Qabs_case; intros; lra. }
    destruct (Qcompare_spec x 0) as [H0 | H0 | H0].
    + assert (H : nearest x <= inject_Z B) by (apply nearest_le_Z; lra). lra.
    + assert (N3 : 0 <= nearest (- x)) by (apply nearest_nonneg; lra). lra.
    + assert (H : nearest x <= inject_Z B) by (apply nearest_le_Z; lra). lra.
  - destruct (Qcompare_spec x 0) as [Hx | Hx | Hx];
      destruct (Qcompare_spec y 0) as [Hy | Hy | Hy];
      try (exfalso; lra);
      try (apply nearest_mono; lra).
    + assert (N4 : 0 <= nearest (- x)) by (apply nearest_nonneg; lra).
      assert (N5 : 0 <= nearest y) by (apply nearest_nonneg; lra). lra.
    + assert (H : nearest (- y) <= nearest (- x)) by (apply nearest_mono; lra).
      lra.
    + assert (N6 : 0 <= nearest (- x)) by (apply nearest_nonneg; lra).
      assert (N7 : 0 <= nearest y) by (apply nearest_nonneg; lra). lra.
Qed.

Lemma toFixed_q_nonneg (x : Q) : 0 <= x -> 0 <= toFixed_q digits x.
Proof.
  intros H. unfold toFixed_q.
  destruct (Qle_bool _ _); [exact H |].
  destruct (Qcompare_spec x 0) as [Hx | Hx | Hx].
  - apply nearest_nonneg, H.
  - exfalso. lra.
  - apply nearest_nonneg, H.
Qed.

Lemma toFixed_mono (a a' : number) :
  not_above a a' -> not_above (toFixed_num digits a) (toFixed_num digits a').
Proof.
  unfold not_above.
  destruct a as [| [] | x], a' as [| [] | x']; intros Ha; cbn in Ha;
    cbn [toFixed_num]; try discriminate; try reflexivity;
    try apply num_lt_from_pos_inf; try apply num_lt_to_neg_inf.
  apply negb_false_iff, Qle_bool_iff in Ha.
  apply round64_mono, toFixed_q_mono, Ha.
Qed.

Lemma nonneg_toFixed (a : number) :
  nonneg a -> nonneg (toFixed_num digits a).
Proof.
  intros H. apply nonneg_spec in H. destruct H as [-> | (q & -> & Hq)].
  - reflexivity.
  - cbn [toFixed_num]. apply round64_nonneg, toFixed_q_nonneg, Hq.
Qed.

End ToFixed.

(** ** Agreement with the standard library's binary64 *)

Section Agreement.

(** Rounding a quotient of integers agrees with [SFdiv] for every
    numerator from -20 to 120 and denominator from 1 to 32. *)
Lemma round64_agrees_with_SFdiv :
  forallb (fun q => forallb (fun p => IEEE.agree_div p q)
                            (IEEE.Zrange (-20) 141))
          (IEEE.Zrange 1 32) = true.
Proof. vm_compute. reflexivity. Qed.

(** Addition, subtraction, multiplication, division, [<] and [===] agree
    with [SpecFloat] on every pair of samples, and on the pairs at the
    ends of the range, in both orders. *)
Lemma arithmetic_agrees_with_SpecFloat :
  forallb (fun x => forallb (IEEE.agree_on x) IEEE.samples) IEEE.samples
  = true /\
  forallb (fun xy => IEEE.agree_on (fst xy) (snd xy)
                     && IEEE.agree_on (snd xy) (fst xy))
          IEEE.edge_pairs = true.
Proof. vm_compute. split; reflexivity. Qed.

(** The composite of the two inputs evaluated below, computed over
    [SpecFloat], is the composite of this file. *)
Lemma composite_agrees_with_SpecFloat :
  IEEE.of_spec (IEEE.spec_composite (IEEE.spec_of_Z 10) (IEEE.spec_of_Z 20)
                                    (IEEE.spec_lit 38 10) (IEEE.spec_of_Z 30))
  = Validation.composite
      (Validation.norm_streak (lit 10) Validation.default_maxValues)
      (Validation.norm_vibe (lit (38 # 10)))
      (Validation.norm_logins (lit 30) Validation.default_maxValues)
      (Validation.norm_checkins (lit 20) Validation.default_maxValues) /\
  IEEE.of_spec (IEEE.spec_composite (IEEE.spec_of_Z 18) (IEEE.spec_of_Z 3)
                                    (IEEE.spec_of_Z 1) (IEEE.spec_of_Z 2))
  = Validation.composite
      (Validation.norm_streak (lit 18) Validation.default_maxValues)
      (Validation.norm_vibe (lit 1))
      (Validation.norm_logins (lit 2) Validation.default_maxValues)
      (Validation.norm_checkins (lit 3) Validation.default_maxValues).
Proof. vm_compute. split; reflexivity. Qed.

End Agreement.

(** ** Non-negative numbers are closed under the operations *)

Section NonNegative.

Local Arguments round64 : simpl never.

Lemma nonneg_add (a b : number) :
  nonneg a -> nonneg b -> nonneg (num_add a b).
Proof.
  intros Ha Hb. apply nonneg_spec in Ha, Hb.
  destruct Ha as [-> | (x & -> & Hx)], Hb as [-> | (y & -> & Hy)];
    try reflexivity.
  cbn [num_add]. apply round64_nonneg. lra.
Qed.

Lemma nonneg_mul (a c : number) :
  nonneg a -> finite_pos c -> nonneg (num_mul a c).
Proof.
  intros Ha (z & -> & Hz). apply nonneg_spec in Ha.
  assert (E : Qcompare z 0 = Gt) by (apply Qgt_alt; exact Hz).
  destruct Ha as [-> | (x & -> & Hx)]; cbn [num_mul]; rewrite ?E.
  - reflexivity.
  - apply round64_nonneg. nra.
Qed.

Lemma nonneg_div (a c : number) :
  nonneg a -> finite_pos c -> nonneg (num_div a c).
Proof.
  intros Ha (z & -> & Hz). apply nonneg_spec in Ha.
  assert (E : Qcompare z 0 = Gt) by (apply Qgt_alt; exact Hz).
  destruct Ha as [-> | (x & -> & Hx)]; cbn [num_div]; rewrite ?E.
  - reflexivity.
  - apply round64_nonneg. apply Qle_shift_div_l; [exact Hz | lra].
Qed.

Lemma nonneg_min (a c : number) :
  nonneg a -> nonneg c -> nonneg (Math_min a c).
Proof.
  intros Ha Hc. pose proof Ha as Ha'. pose proof Hc as Hc'.
  apply nonneg_spec in Ha, Hc.
  destruct Ha as [-> | (x & -> & Hx)], Hc as [-> | (z & -> & Hz)];
    cbn [Math_min]; destruct (num_lt _ _); assumption.
Qed.

Lemma nonneg_sub (a c : number) (z : Q) :
  c = Fin z -> num_le c a = true -> nonneg (num_sub a c).
Proof.
  intros -> H. destruct a as [| [] | x]; try discriminate H.
  - reflexivity.
  - apply num_le_Fin in H. cbn [num_sub]. apply round64_nonneg. lra.
Qed.

End NonNegative.

(** ** The literals of the source *)

Section Literals.

Lemma lit_0 : lit 0 = Fin 0.
Proof. reflexivity. Qed.

Lemma lit_1 : lit 1 = Fin 1.
Proof. vm_compute. reflexivity. Qed.

Lemma lit_4 : lit 4 = Fin 4.
Proof. vm_compute. reflexivity. Qed.

Lemma lit_5 : lit 5 = Fin 5.
Proof. vm_compute. reflexivity. Qed.

Lemma lit_25 : lit 25 = Fin 25.
Proof. vm_compute. reflexivity. Qed.

Lemma lit_26 : lit 26 = Fin 26.
Proof. vm_compute. reflexivity. Qed.

Lemma lit_30 : lit 30 = Fin 30.
Proof. vm_compute. reflexivity. Qed.

Lemma lit_50 : lit 50 = Fin 50.
Proof. vm_compute. reflexivity. Qed.

Lemma lit_51 : lit 51 = Fin 51.
Proof. vm_compute. reflexivity. Qed.

Lemma lit_60 : lit 60 = Fin 60.
Proof. vm_compute. reflexivity. Qed.

Lemma lit_75 : lit 75 = Fin 75.
Proof. vm_compute. reflexivity. Qed.

Lemma lit_76 : lit 76 = Fin 76.
Proof. vm_compute. reflexivity. Qed.

Lemma lit_100 : lit 100 = Fin 100.
Proof. vm_compute. reflexivity. Qed.

Lemma finite_pos_Fin (z : Q) : 0 < z -> finite_pos (Fin z).
Proof. intros H. exists z. split; [reflexivity | exact H]. Qed.

Lemma finite_pos_lit (q z : Q) : lit q = Fin z -> 0 < z -> finite_pos (lit q).
Proof. intros -> H. apply finite_pos_Fin, H. Qed.

(** The four weights, as the numbers the literals 0.40, 0.35, 0.15 and
    0.10 denote. *)
Lemma weight_streak : lit (40 # 100) =
  Fin (3602879701896397 # 9007199254740992).
Proof. vm_compute. reflexivity. Qed.

Lemma weight_vibe : lit (35 # 100) =
  Fin (3152519739159347 # 9007199254740992).
Proof. vm_compute. reflexivity. Qed.

Lemma weight_logins : lit (15 # 100) =
  Fin (5404319552844595 # 36028797018963968).
Proof. vm_compute. reflexivity. Qed.

Lemma weight_checkins : lit (10 # 100) =
  Fin (3602879701896397 # 36028797018963968).
Proof. vm_compute. reflexivity. Qed.

End Literals.

Create HintDb numbers.

#[local] Hint Resolve not_above_refl : numbers.
#[local] Hint Extern 1 (finite_pos (lit _)) =>
  (eapply finite_pos_lit; [vm_compute; reflexivity | reflexivity]) : numbers.
#[local] Hint Extern 1 (nonneg (lit _)) => (vm_compute; reflexivity) : numbers.
#[local] Hint Resolve nonneg_add nonneg_mul nonneg_div nonneg_min
  nonneg_toFixed add_mono sub_mono_l mul_mono_l div_mono_l min_mono_l
  toFixed_mono : numbers.

(** ** The health score *)

Section HealthScore.

Import Validation.

Abbreviation score s c a l :=
  (hs_healthScore (computeHealthScore s c a l None)).

Lemma norm_streak_mono (s s' : number) :
  not_above s s' ->
  not_above (norm_streak s default_maxValues) (norm_streak s' default_maxValues).
Proof. intros H. unfold norm_streak, default_maxValues; cbn [max_streakDays].
  auto 10 with numbers. Qed.

Lemma norm_checkins_mono (c c' : number) :
  not_above c c' ->
  not_above (norm_checkins c default_maxValues)
            (norm_checkins c' default_maxValues).
Proof. intros H. unfold norm_checkins, default_maxValues; cbn [max_vibeCheckIns].
  auto 10 with numbers. Qed.

Lemma norm_logins_mono (l l' : number) :
  not_above l l' ->
  not_above (norm_logins l default_maxValues) (norm_logins l' default_maxValues).
Proof. intros H. unfold norm_logins, default_maxValues; cbn [max_loginCount].
  auto 10 with numbers. Qed.

Lemma norm_vibe_mono (a a' : number) :
  not_above a a' -> not_above (norm_vibe a) (norm_vibe a').
Proof. intros H. unfold norm_vibe. auto 10 with numbers. Qed.

Lemma composite_mono (p q r t p' q' r' t' : number) :
  not_above p p' -> not_above q q' -> not_above r r' -> not_above t t' ->
  not_above (composite p q r t) (composite p' q' r' t').
Proof. intros. unfold composite. auto 10 with numbers. Qed.

(** When no input decreases, the score does not decrease. *)
Lemma score_mono (s c a l s' c' a' l' : number) :
  not_above s s' -> not_above c c' -> not_above a a' -> not_above l l' ->
  not_above (score s c a l) (score s' c' a' l').
Proof.
  intros Hs Hc Ha Hl. unfold computeHealthScore.
  cbn [hs_healthScore].
  apply toFixed_mono, composite_mono.
  - apply norm_streak_mono, Hs.
  - apply norm_vibe_mono, Ha.
  - apply norm_logins_mono, Hl.
  - apply norm_checkins_mono, Hc.
Qed.

(** On non-negative counts and an average of at least 1 the score is a
    non-negative number, possibly infinite so far. *)
Lemma score_nonneg (s c a l : number) :
  nonneg s -> nonneg c -> num_le (lit 1) a = true -> nonneg l ->
  nonneg (score s c a l).
Proof.
  intros Hs Hc Ha Hl. unfold computeHealthScore.
  cbn [hs_healthScore].
  assert (Hv : nonneg (num_sub a (lit 1))).
  { apply (nonneg_sub a (lit 1) 1); [apply lit_1 | exact Ha]. }
  unfold composite, norm_streak, norm_vibe, norm_logins, norm_checkins,
    default_maxValues; cbn [max_streakDays max_vibeCheckIns max_loginCount].
  auto 20 with numbers.
Qed.

Lemma dashboard_score_mono (s c a l s' c' a' l' : number) :
  not_above s s' -> not_above c c' -> not_above a a' -> not_above l l' ->
  not_above (Dashboard.healthScore s c a l) (Dashboard.healthScore s' c' a' l').
Proof.
  intros Hs Hc Ha Hl. unfold Dashboard.healthScore. cbv zeta.
  apply toFixed_mono. auto 20 with numbers.
Qed.

Lemma score_top : score (Inf false) (Inf false) (lit 5) (Inf false) = Fin 100.
Proof. vm_compute. reflexivity. Qed.

Lemma score_range (s c a l : number) :
  nonneg s -> nonneg c -> nonneg l ->
  num_le (lit 1) a = true -> num_le a (lit 5) = true ->
  num_le (Fin 0) (score s c a l) = true /\
  num_le (score s c a l) (Fin 100) = true.
Proof.
  intros Hs Hc Hl Ha1 Ha5.
  pose proof (score_nonneg s c a l Hs Hc Ha1 Hl) as Hn.
  split; [exact Hn |].
  apply num_le_spec in Hn. destruct Hn as (_ & Hnan & _).
  apply num_le_spec. repeat split; [exact Hnan | discriminate |].
  rewrite <- score_top. apply score_mono.
  - apply num_lt_from_pos_inf.
  - apply num_lt_from_pos_inf.
  - apply num_le_spec in Ha5. apply Ha5.
  - apply num_lt_from_pos_inf.
Qed.

End HealthScore.

(** ** Claims on the health score *)

Section HealthScoreClaims.

Import Validation.

(** C4.  Worked example: for 10 streak days, 20 check-ins, an average vibe
    of 3.8 and 30 logins under the default ceilings 30/30/60, the
    normalised streak is 33.33... (within 10^-14 of 100/3, reported as
    33.33 in the breakdown), the normalised vibe is 70, the normalised
    logins are 50, the normalised check-ins are 66.67 (within 10^-14 of
    200/3, reported as 66.67), the rounded composite is exactly 52 and the
    tier is High; the dashboard variant, which rounds to one decimal,
    agrees on score and tier. *)
Theorem computeHealthScore_worked_example :
  let r := computeHealthScore (lit 10) (lit 20) (lit (38 # 10)) (lit 30) None in
  (exists q, norm_streak (lit 10) default_maxValues = Fin q /\
             Qabs (q - (100 # 3)) < 1 # 100000000000000) /\
  norm_vibe (lit (38 # 10)) = lit 70 /\
  norm_logins (lit 30) default_maxValues = lit 50 /\
  (exists q, norm_checkins (lit 20) default_maxValues = Fin q /\
             Qabs (q - (200 # 3)) < 1 # 100000000000000) /\
  breakdown r =
    {| normStreak := lit (3333 # 100); normVibe := lit 70;
       normLogins := lit 50; normCheckins := lit (6667 # 100) |} /\
  hs_healthScore r = lit 52 /\
  hs_engagementTier r = "High"%string /\
  Dashboard.computeHealthScore (lit 10) (lit 20) (lit (38 # 10)) (lit 30) =
    Some {| Dashboard.score := lit 52; Dashboard.tier := "High";
            Dashboard.tierColor := "#a8d8a8" |}.
Proof.
  cbv zeta. split; [| split; [| split; [| split]]].
  - eexists. split; [vm_compute; reflexivity | reflexivity].
  - vm_compute. reflexivity.
  - vm_compute. reflexivity.
  - eexists. split; [vm_compute; reflexivity | reflexivity].
  - vm_compute. repeat split; reflexivity.
Qed.

(** C5.  Monotonicity: under the default ceilings, replacing any one of
    the four inputs by a larger-or-equal value and keeping the other three
    never makes the returned healthScore smaller; likewise for the score
    of the dashboard variant. *)
Theorem computeHealthScore_monotone :
  monotone_in_each healthScoreOf /\ monotone_in_each Dashboard.healthScore.
Proof.
  split; intros s c a l x; repeat split; intros H;
    apply num_le_spec in H; destruct H as (_ & _ & H).
  1-4: apply score_mono; auto with numbers.
  all: apply dashboard_score_mono; auto with numbers.
Qed.

Lemma computeHealthScore_monotone_witness :
  num_le (lit 10) (lit 11) = true /\
  num_lt (healthScoreOf (lit 11) (lit 20) (lit (38 # 10)) (lit 30))
         (healthScoreOf (lit 10) (lit 20) (lit (38 # 10)) (lit 30)) = false /\
  num_lt (Dashboard.healthScore (lit 11) (lit 20) (lit (38 # 10)) (lit 30))
         (Dashboard.healthScore (lit 10) (lit 20) (lit (38 # 10)) (lit 30))
    = false.
Proof.
  split; [vm_compute; reflexivity |]. split.
  - apply (proj1 (proj1 computeHealthScore_monotone
                    (lit 10) (lit 20) (lit (38 # 10)) (lit 30) (lit 11))).
    vm_compute; reflexivity.
  - apply (proj1 (proj2 computeHealthScore_monotone
                    (lit 10) (lit 20) (lit (38 # 10)) (lit 30) (lit 11))).
    vm_compute; reflexivity.
Defined.

(** On inputs within their declared ranges the scores are numbers, and the
    comparison of C5 is the source's [<=]: when no input decreases, the
    old score is less than or equal to the new one. *)
Lemma computeHealthScore_monotone_le (s c a l s' c' a' l' : number) :
  num_le (lit 0) s = true -> num_le (lit 0) c = true ->
  num_le (lit 1) a = true -> num_le (lit 0) l = true ->
  num_le s s' = true -> num_le c c' = true ->
  num_le a a' = true -> num_le l l' = true ->
  num_le (hs_healthScore (computeHealthScore s c a l None))
         (hs_healthScore (computeHealthScore s' c' a' l' None)) = true.
Proof.
  intros Hs Hc Ha Hl Hss Hcc Haa Hll.
  assert (N : nonneg (hs_healthScore (computeHealthScore s c a l None)))
    by (apply score_nonneg; assumption).
  assert (N' : nonneg (hs_healthScore (computeHealthScore s' c' a' l' None))).
  { apply score_nonneg; unfold nonneg;
      eauto using num_le_trans. }
  apply num_le_spec in N, N'. apply num_le_spec.
  repeat split; [apply N | apply N' |].
  apply num_le_spec in Hss, Hcc, Haa, Hll.
  apply score_mono; [apply Hss | apply Hcc | apply Haa | apply Hll].
Qed.

(** C7.  Boundedness: for non-negative streakDays, vibeCheckIns and
    loginCount and an averageVibeScore in the closed interval [1,5], the
    healthScore returned under the default ceilings lies in [0,100]. *)
Theorem computeHealthScore_bounded (s c a l : number) :
  num_ge s (lit 0) = true -> num_ge c (lit 0) = true ->
  num_ge l (lit 0) = true ->
  num_ge a (lit 1) = true -> num_le a (lit 5) = true ->
  num_ge (hs_healthScore (computeHealthScore s c a l None)) (lit 0) = true /\
  num_le (hs_healthScore (computeHealthScore s c a l None)) (lit 100) = true.
Proof.
  intros Hs Hc Hl Ha1 Ha5. rewrite lit_100. unfold num_ge in *.
  apply score_range; assumption.
Qed.

Lemma computeHealthScore_bounded_witness :
  num_ge (hs_healthScore
            (computeHealthScore (lit 10) (lit 20) (lit (38 # 10)) (lit 30) None))
         (lit 0) = true /\
  num_le (hs_healthScore
            (computeHealthScore (lit 10) (lit 20) (lit (38 # 10)) (lit 30) None))
         (lit 100) = true.
Proof.
  apply (computeHealthScore_bounded (lit 10) (lit 20) (lit (38 # 10)) (lit 30));
    vm_compute; reflexivity.
Defined.

(** C1, at a failing input.  For 18 streak days, 3 check-ins, an average
    vibe of 1 and 2 logins, every input is within its declared range, the
    computed score is 25.5 and the derived tier is Low; the validator
    checks Low against the range [0, 25] and reports a mismatch between
    tier and score. *)
Theorem validateHealthScore_rejects_computed_record :
  computeHealthScore (lit 18) (lit 3) (lit 1) (lit 2) None =
    {| hs_healthScore := lit (255 # 10);
       hs_engagementTier := "Low";
       breakdown := {| normStreak := lit 60; normVibe := lit 0;
                       normLogins := lit (333 # 100);
                       normCheckins := lit 10 |} |} /\
  validateHealthScore (record_of (lit 18) (lit 3) (lit 1) (lit 2)) =
    {| hs_valid := false;
       hs_errors := [TierScoreMismatch "Low" (Some (lit 0)) (Some (lit 25))
                                       (lit (255 # 10))] |}.
Proof. vm_compute. split; reflexivity. Qed.


Lemma tierBounds_Low : get tierBounds "Low" = Own (Fin 0, Fin 25).
Proof. unfold tierBounds. rewrite lit_0, lit_25. reflexivity. Qed.

Lemma tierBounds_Moderate : get tierBounds "Moderate" = Own (Fin 26, Fin 50).
Proof. unfold tierBounds. rewrite lit_26, lit_50. reflexivity. Qed.

Lemma tierBounds_High : get tierBounds "High" = Own (Fin 51, Fin 75).
Proof. unfold tierBounds. rewrite lit_51, lit_75. reflexivity. Qed.

Lemma tierBounds_Excellent :
  get tierBounds "Excellent" = Own (Fin 76, Fin 100).
Proof. unfold tierBounds. rewrite lit_76, lit_100. reflexivity. Qed.

Ltac compare_fin :=
  repeat match goal with
  | |- context [num_le (Fin ?x) (Fin ?y)] =>
      first [ rewrite (proj2 (num_le_Fin x y)) by lra
            | rewrite (proj2 (num_le_Fin_false x y)) by lra ]
  | |- context [num_lt (Fin ?x) (Fin ?y)] =>
      first [ rewrite (proj2 (num_lt_Fin_true x y)) by lra
            | rewrite (proj2 (num_lt_Fin x y)) by lra ]
  end.

(** Where C1 holds and where it fails.  On inputs within their declared
    ranges the only rule of the validator that can fire on a computed
    record is the tier/score one, and it fires exactly when the rounded
    score lies strictly between the integer ranges of two tiers. *)
Lemma validateHealthScore_of_computed (s c a l : number) :
  isInteger s = true -> isInteger c = true -> isInteger l = true ->
  num_ge s (lit 0) = true -> num_ge c (lit 0) = true ->
  num_ge l (lit 0) = true ->
  num_ge a (lit 1) = true -> num_le a (lit 5) = true ->
  let r := record_of s c a l in
  (between_tiers (healthScore r) = false ->
   validateHealthScore r = {| hs_valid := true; hs_errors := [] |}) /\
  (between_tiers (healthScore r) = true ->
   exists lo hi,
     validateHealthScore r =
       {| hs_valid := false;
          hs_errors := [TierScoreMismatch (engagementTier r) lo hi
                                          (healthScore r)] |}).
Proof.
  intros Is Ic Il Hs Hc Hl Ha1 Ha5.
  destruct (score_range s c a l Hs Hc Hl Ha1 Ha5) as [H0 H100].
  unfold num_ge in Hs, Hc, Hl, Ha1.
  apply num_le_not_lt in Hs, Hc, Hl.
  pose proof (num_le_not_lt _ _ Ha1) as La1.
  pose proof (num_le_not_lt _ _ Ha5) as La5.
  unfold record_of, validateHealthScore, computeHealthScore, between_tiers.
  cbv zeta.
  cbn [streakDays vibeCheckIns averageVibeScore loginCount healthScore
       engagementTier hs_healthScore hs_engagementTier fold_left].
  unfold num_gt. rewrite Is, Ic, Il, Hs, Hc, Hl, La1, La5. cbn [negb orb app].
  change (toFixed_num 2
            (composite (norm_streak s default_maxValues) (norm_vibe a)
               (norm_logins l default_maxValues)
               (norm_checkins c default_maxValues)))
    with (hs_healthScore (computeHealthScore s c a l None)) in *.
  destruct (hs_healthScore (computeHealthScore s c a l None)) as [| [] | q];
    try discriminate.
  apply num_le_Fin in H0, H100.
  rewrite lit_0, lit_100, lit_25, lit_26, lit_50, lit_51, lit_75, lit_76.
  unfold num_ge.
  assert (Hcases : q <= 25 \/ (25 < q /\ q < 26) \/ (26 <= q /\ q <= 50) \/
                   (50 < q /\ q < 51) \/ (51 <= q /\ q <= 75) \/
                   (75 < q /\ q < 76) \/ 76 <= q).
  { destruct (Qlt_le_dec 25 q); [| lra].
    destruct (Qlt_le_dec q 26); [lra |].
    destruct (Qlt_le_dec 50 q); [| lra].
    destruct (Qlt_le_dec q 51); [lra |].
    destruct (Qlt_le_dec 75 q); [| lra].
    destruct (Qlt_le_dec q 76); lra. }
  destruct Hcases as [C | [C | [C | [C | [C | [C | C]]]]]];
    compare_fin; cbn [andb orb];
    rewrite ?tierBounds_Low, ?tierBounds_Moderate, ?tierBounds_High,
      ?tierBounds_Excellent;
    cbn [truthy negb bound_at to_number];
    compare_fin; cbn [andb orb app is_nil];
    (split; intros B; try discriminate B; eauto).
Qed.


End HealthScoreClaims.

(** ** The check-in validator of measurementValidation.js *)

Section VibeCheckIn.

Import Validation.

Lemma sad_entry_value :
  entry_value (get VIBE_BY_LABEL "Terrible") = Some (Some (lit 1)).
Proof. reflexivity. Qed.

Lemma happy_entry_value :
  entry_value (get VIBE_BY_LABEL "Great") = Some (Some (lit 5)).
Proof. reflexivity. Qed.

Lemma registry_order :
  num_ge (to_number (Some (lit 1))) (to_number (Some (lit 5))) = false.
Proof. vm_compute. reflexivity. Qed.

(** The validator never throws, and its error list is the errors of rule
    (a) followed by those of rule (b); rule (c) adds nothing. *)
Lemma validateVibeCheckIn_errors (moodValue : number) (moodLabel : string) :
  validateVibeCheckIn moodValue moodLabel =
  Some {| valid := is_nil (range_errors moodValue
                           ++ label_errors moodValue moodLabel);
          errors := range_errors moodValue
                    ++ label_errors moodValue moodLabel |}.
Proof.
  unfold validateVibeCheckIn, range_errors, label_errors. cbv zeta.
  rewrite sad_entry_value, happy_entry_value, registry_order.
  destruct (negb (isInteger moodValue) || num_lt moodValue (lit 1)
            || num_gt moodValue (lit 5));
    destruct (get VIBE_BY_LABEL moodLabel) as [e | k |];
    try destruct (num_neq (value e) moodValue); reflexivity.
Qed.

Lemma is_nil_spec {A : Type} (l : list A) : is_nil l = true <-> l = [].
Proof. destruct l; simpl; split; intros H; (reflexivity || discriminate). Qed.

Lemma In_range_errors (moodValue : number) (e : VibeError) :
  In e (range_errors moodValue) <->
  e = OrdinalViolation moodValue /\
  negb (isInteger moodValue) || num_lt moodValue (lit 1)
    || num_gt moodValue (lit 5) = true.
Proof.
  unfold range_errors.
  destruct (negb (isInteger moodValue) || num_lt moodValue (lit 1)
            || num_gt moodValue (lit 5)); simpl.
  - split; [intros [H | []]; auto | intros [H _]; auto].
  - split; [intros [] | intros [_ H]; discriminate H].
Qed.

Lemma In_label_errors (moodValue : number) (moodLabel : string)
    (e : VibeError) :
  In e (label_errors moodValue moodLabel) <->
  (e = NominalViolation moodLabel /\ get VIBE_BY_LABEL moodLabel = Undefined) \/
  (exists formal,
     e = HomomorphismViolation moodLabel formal moodValue /\
     entry_value (get VIBE_BY_LABEL moodLabel) = Some formal /\
     strict_neq formal moodValue = true).
Proof.
  unfold label_errors.
  destruct (get VIBE_BY_LABEL moodLabel) as [en | k |]; cbn [entry_value].
  - destruct (num_neq (value en) moodValue) eqn:N; simpl; split.
    + intros [H | []]. right. eexists. repeat split; [symmetry; exact H | exact N].
    + intros [[_ H] | (f & H1 & H2 & H3)]; [discriminate H |].
      injection H2 as <-. left. symmetry. exact H1.
    + intros [].
    + intros [[_ H] | (f & H1 & H2 & H3)]; [discriminate H |].
      injection H2 as <-. simpl in H3. congruence.
  - simpl; split.
    + intros [H | []]. right. eexists. repeat split. symmetry. exact H.
    + intros [[_ H] | (f & H1 & H2 & H3)]; [discriminate H |].
      injection H2 as <-. left. symmetry. exact H1.
  - simpl; split.
    + intros [H | []]. left. split; [symmetry; exact H | reflexivity].
    + intros [[H _] | (f & H1 & H2 & H3)]; [left; symmetry; exact H |].
      discriminate H2.
Qed.

End VibeCheckIn.

Section VibeCheckInClaims.

Import Validation.

(** C2.  No short-circuiting: the validator returns a result for every
    pair; the range error is reported exactly when the range rule is
    violated, whatever the label; the unknown-label error exactly when the
    label resolves to nothing, and the homomorphism error exactly when it
    resolves to something whose value differs from moodValue, whatever
    the range rule found; so violations of both rules are reported
    together; and the result is valid exactly when the error list is
    empty. *)
Theorem validateVibeCheckIn_collects_all (moodValue : number)
    (moodLabel : string) :
  exists r,
    validateVibeCheckIn moodValue moodLabel = Some r /\
    (In (OrdinalViolation moodValue) (errors r) <->
     negb (isInteger moodValue) || num_lt moodValue (lit 1)
       || num_gt moodValue (lit 5) = true) /\
    (In (NominalViolation moodLabel) (errors r) <->
     get VIBE_BY_LABEL moodLabel = Undefined) /\
    ((exists formal,
        In (HomomorphismViolation moodLabel formal moodValue) (errors r)) <->
     (exists formal,
        entry_value (get VIBE_BY_LABEL moodLabel) = Some formal /\
        strict_neq formal moodValue = true)) /\
    (valid r = true <-> errors r = []).
Proof.
  eexists. split; [apply validateVibeCheckIn_errors |].
  cbn [errors valid]. repeat split.
  - intros H. apply in_app_iff in H. destruct H as [H | H].
    + apply In_range_errors in H. apply H.
    + apply In_label_errors in H.
      destruct H as [[H _] | (f & H & _)]; discriminate H.
  - intros H. apply in_app_iff. left. apply In_range_errors. auto.
  - intros H. apply in_app_iff in H. destruct H as [H | H].
    + apply In_range_errors in H. destruct H as [H _]. discriminate H.
    + apply In_label_errors in H.
      destruct H as [[_ H] | (f & H & _)]; [exact H | discriminate H].
  - intros H. apply in_app_iff. right. apply In_label_errors. auto.
  - intros (f & H). apply in_app_iff in H. destruct H as [H | H].
    + apply In_range_errors in H. destruct H as [H _]. discriminate H.
    + apply In_label_errors in H.
      destruct H as [[H _] | (g & H & H1 & H2)]; [discriminate H |].
      injection H as <-. exists f. auto.
  - intros (f & H1 & H2). exists f. apply in_app_iff. right.
    apply In_label_errors. right. exists f. auto.
  - apply is_nil_spec.
  - apply is_nil_spec.
Qed.

(** C3.  For moodValue 6 with the label Great the result is invalid and
    its error list includes the out-of-range error (followed by the
    homomorphism error: Great maps to 5). *)
Theorem validateVibeCheckIn_six_great :
  exists r,
    validateVibeCheckIn (lit 6) "Great" = Some r /\
    valid r = false /\
    In (OrdinalViolation (lit 6)) (errors r) /\
    errors r = [ OrdinalViolation (lit 6);
                 HomomorphismViolation "Great" (Some (lit 5)) (lit 6) ].
Proof.
  eexists. split; [vm_compute; reflexivity |].
  cbn [valid errors]. repeat split. left. reflexivity.
Qed.

(** C10.  Rule (c) never fires: the registry holds Terrible at 1 and Great
    at 5, the test [1 >= 5] is false, so for every input the validator
    returns a result without the empirical-order error, and the error
    list has at most two elements. *)
Theorem validateVibeCheckIn_self_check_silent (moodValue : number)
    (moodLabel : string) :
  entry_value (get VIBE_BY_LABEL "Terrible") = Some (Some (lit 1)) /\
  entry_value (get VIBE_BY_LABEL "Great") = Some (Some (lit 5)) /\
  num_ge (lit 1) (lit 5) = false /\
  exists r,
    validateVibeCheckIn moodValue moodLabel = Some r /\
    (forall sad happy, ~ In (EmpiricalOrderViolation sad happy) (errors r)) /\
    (List.length (errors r) <= 2)%nat.
Proof.
  split; [reflexivity |]. split; [reflexivity |].
  split; [vm_compute; reflexivity |].
  eexists. split; [apply validateVibeCheckIn_errors |].
  cbn [errors]. unfold range_errors, label_errors.
  destruct (negb (isInteger moodValue) || num_lt moodValue (lit 1)
            || num_gt moodValue (lit 5));
    destruct (get VIBE_BY_LABEL moodLabel) as [e | k |];
    try destruct (num_neq (value e) moodValue);
    cbn [app In List.length];
    (split; [intros sad happy H; repeat destruct H as [H | H];
             try discriminate H; contradiction | lia]).
Qed.

(** A label that names a member of [Object.prototype] is found by the
    lookup [VIBE_BY_LABEL[moodLabel]]: it is reported as a homomorphism
    violation against an undefined formal value, not as an unknown
    label. *)
Example validateVibeCheckIn_inherited_label :
  validateVibeCheckIn (lit 3) "toString"
  = Some {| valid := false;
            errors := [HomomorphismViolation "toString" None (lit 3)] |}.
Proof. vm_compute. reflexivity. Qed.

(** Every pair of the registry itself is valid. *)
Example validateVibeCheckIn_registry :
  forallb (fun e =>
             match validateVibeCheckIn (value e) (label e) with
             | Some r => valid r && is_nil (errors r)
             | None => false
             end) VIBE_ORDER = true.
Proof. vm_compute. reflexivity. Qed.

End VibeCheckInClaims.

(** ** The dashboard validator and its tier lookup *)

Section DashboardClaims.

Import Dashboard.

Lemma num_eq_sym (a b : number) : num_eq a b = num_eq b a.
Proof.
  destruct a as [| [] | x], b as [| [] | y]; try reflexivity.
  apply Qeq_bool_comm.
Qed.

Lemma num_eq_le (a b : number) : num_eq a b = true -> num_le a b = true.
Proof. intros H. unfold num_le. rewrite H. apply orb_true_r. Qed.

(** Every entry of the scale has its value in [1, 5]. *)
Lemma VIBE_SCALE_values (m : Mood) :
  In m VIBE_SCALE ->
  num_le (lit 1) (value m) = true /\ num_le (value m) (lit 5) = true.
Proof.
  intros H. repeat destruct H as [<- | H]; try contradiction;
    vm_compute; split; reflexivity.
Qed.

(** C9.  In the dashboard validator the out-of-range branch is
    unreachable: for every input the result is valid, or carries the
    unknown-label error, or carries the homomorphism error; it never
    carries the out-of-range error. *)
Theorem validateCheckIn_range_branch_unreachable (moodValue : number)
    (moodLabel : string) :
  (forall x, error (validateCheckIn moodValue moodLabel)
             <> Some (OrdinalOutOfRange x)) /\
  (validateCheckIn moodValue moodLabel = {| valid := true; error := None |} \/
   validateCheckIn moodValue moodLabel =
     {| valid := false; error := Some (UnknownMoodLabel moodLabel) |} \/
   exists canonical,
     validateCheckIn moodValue moodLabel =
       {| valid := false;
          error := Some (HomomorphismViolation moodLabel canonical
                                               moodValue) |}).
Proof.
  unfold validateCheckIn.
  destruct (find (fun v => String.eqb (label v) moodLabel) VIBE_SCALE)
    as [c |] eqn:F.
  - destruct (num_neq (value c) moodValue) eqn:N.
    + split; [intros x; discriminate | right; right; eauto].
    + apply find_some in F. destruct F as [Hin _].
      destruct (VIBE_SCALE_values c Hin) as [Hlo Hhi].
      unfold num_neq in N. apply negb_false_iff in N.
      assert (L : num_lt moodValue (lit 1) = false).
      { apply num_le_not_lt. eapply num_le_trans; [exact Hlo |].
        apply num_eq_le, N. }
      assert (G : num_gt moodValue (lit 5) = false).
      { unfold num_gt. apply num_le_not_lt.
        eapply num_le_trans; [| exact Hhi].
        apply num_eq_le. rewrite num_eq_sym. exact N. }
      rewrite L, G. cbn [orb].
      split; [intros x; discriminate | left; reflexivity].
  - split; [intros x; discriminate | right; left; reflexivity].
Qed.

(** The dashboard validator stops at the first failed test: 6 with Great
    yields the homomorphism error alone. *)
Lemma validateCheckIn_six_great :
  validateCheckIn (lit 6) "Great" =
  {| valid := false;
     error := Some (HomomorphismViolation "Great" (lit 5) (lit 6)) |}.
Proof. vm_compute. reflexivity. Qed.

End DashboardClaims.

Section TierLookup.

Import Dashboard.

Lemma inject_Z_Qle (a b : Z) : inject_Z a <= inject_Z b <-> (a <= b)%Z.
Proof. rewrite <- Zle_Qle. reflexivity. Qed.

(** The test of the lookup at a finite score against the four tiers. *)
Lemma tier_contains_Fin (q lo hi : Q) (l c : string) :
  tier_contains (Fin q)
    {| tier_label := l; min := Fin lo; max := Fin hi; tier_color := c |} = true
  <-> lo <= q /\ q <= hi.
Proof.
  unfold tier_contains, num_ge. cbn [min max].
  rewrite andb_true_iff, !num_le_Fin. reflexivity.
Qed.

Lemma ENGAGEMENT_TIERS_eq :
  ENGAGEMENT_TIERS =
  [ {| tier_label := "Low"; min := Fin 0; max := Fin 25;
       tier_color := "#ff6b8a" |};
    {| tier_label := "Moderate"; min := Fin 26; max := Fin 50;
       tier_color := "#ffd166" |};
    {| tier_label := "High"; min := Fin 51; max := Fin 75;
       tier_color := "#a8d8a8" |};
    {| tier_label := "Excellent"; min := Fin 76; max := Fin 100;
       tier_color := "#5ec4b1" |} ].
Proof.
  unfold ENGAGEMENT_TIERS.
  rewrite lit_0, lit_25, lit_26, lit_50, lit_51, lit_75, lit_76, lit_100.
  reflexivity.
Qed.

Lemma tier_contains_Z (s lo hi : Z) (l c : string) :
  tier_contains (Fin (inject_Z s))
    {| tier_label := l; min := Fin (inject_Z lo); max := Fin (inject_Z hi);
       tier_color := c |}
  = ((lo <=? s)%Z && (s <=? hi)%Z)%bool.
Proof.
  apply eq_true_iff_eq.
  rewrite tier_contains_Fin, andb_true_iff, !Z.leb_le, !inject_Z_Qle.
  reflexivity.
Qed.

Lemma ENGAGEMENT_TIERS_Z :
  ENGAGEMENT_TIERS =
  [ {| tier_label := "Low"; min := Fin (inject_Z 0); max := Fin (inject_Z 25);
       tier_color := "#ff6b8a" |};
    {| tier_label := "Moderate"; min := Fin (inject_Z 26);
       max := Fin (inject_Z 50); tier_color := "#ffd166" |};
    {| tier_label := "High"; min := Fin (inject_Z 51);
       max := Fin (inject_Z 75); tier_color := "#a8d8a8" |};
    {| tier_label := "Excellent"; min := Fin (inject_Z 76);
       max := Fin (inject_Z 100); tier_color := "#5ec4b1" |} ].
Proof. exact ENGAGEMENT_TIERS_eq. Qed.

Ltac decide_tier :=
  repeat match goal with
  | |- context [tier_contains (Fin ?q) ?t] =>
      let E := fresh "E" in
      destruct (tier_contains (Fin q) t) eqn:E;
      [ apply tier_contains_Fin in E
      | apply not_true_iff_false in E; rewrite tier_contains_Fin in E ]
  end.

(** No tier contains a score outside [0, 100], nor [NaN]. *)
Lemma find_tier_outside (x : number) :
  num_ge x (lit 0) && num_le x (lit 100) = false ->
  find (tier_contains x) ENGAGEMENT_TIERS = None.
Proof.
  rewrite lit_0, lit_100, ENGAGEMENT_TIERS_eq. intros H.
  destruct x as [| [] | q]; try reflexivity.
  unfold num_ge in H. apply andb_false_iff in H.
  rewrite !num_le_Fin_false in H.
  cbn [find]. decide_tier; try reflexivity; exfalso; lra.
Qed.

(** C6.  The tier lookup is total with a fallback: for every integer score
    [s] in [0, 100], the number [Fin (inject_Z s)], exactly one of the
    four tiers contains it, the lookup
    returns that tier, and it is the tier of the score's range (Low 0-25,
    Moderate 26-50, High 51-75, Excellent 76-100), so 25 is Low and 26 is
    Moderate; for every score outside [0, 100], [NaN] included, the
    lookup returns the first tier, Low, and does not fail. *)
Theorem tierForScore_total_with_fallback :
  (forall s : Z, (0 <= s <= 100)%Z ->
     exists t,
       filter (tier_contains (Fin (inject_Z s))) ENGAGEMENT_TIERS = [t] /\
       tierForScore (Fin (inject_Z s)) = Some t /\
       tier_label t = range_label s) /\
  option_map tier_label (tierForScore (lit 25)) = Some "Low"%string /\
  option_map tier_label (tierForScore (lit 26)) = Some "Moderate"%string /\
  (forall x : number,
     num_ge x (lit 0) && num_le x (lit 100) = false ->
     exists t,
       tierForScore x = Some t /\
       nth_error ENGAGEMENT_TIERS 0 = Some t /\
       tier_label t = "Low"%string).
Proof.
  split; [| split; [| split]].
  - intros s Hs. unfold tierForScore, range_label.
    rewrite ENGAGEMENT_TIERS_Z. cbn [find filter].
    rewrite !tier_contains_Z.
    repeat match goal with
    | |- context [(?a <=? ?b)%Z] => destruct (Z.leb_spec a b)
    end;
    cbn [andb]; try lia; eexists; repeat split; reflexivity.
  - vm_compute. reflexivity.
  - vm_compute. reflexivity.
  - intros x Hx. unfold tierForScore. rewrite (find_tier_outside x Hx).
    eexists. repeat split.
Qed.

Lemma tierForScore_total_with_fallback_witness :
  (exists t,
     filter (tier_contains (Fin (inject_Z 25))) ENGAGEMENT_TIERS = [t] /\
     tierForScore (Fin (inject_Z 25)) = Some t /\
     tier_label t = "Low"%string) /\
  (exists t,
     tierForScore (Fin (-1)) = Some t /\
     nth_error ENGAGEMENT_TIERS 0 = Some t /\
     tier_label t = "Low"%string).
Proof.
  split.
  - apply (proj1 tierForScore_total_with_fallback 25%Z). lia.
  - apply (proj2 (proj2 (proj2 tierForScore_total_with_fallback)) (Fin (-1))).
    vm_compute. reflexivity.
Defined.

(** Inside [0, 100] the fallback is also taken by every score strictly
    between two ranges: 50.5 is looked up as Low. *)
Example tierForScore_between_ranges :
  option_map tier_label (tierForScore (lit (505 # 10))) = Some "Low"%string.
Proof. vm_compute. reflexivity. Qed.

End TierLookup.

(** ** Timestamps *)

Section Timestamps.

Import Validation.

Lemma timestamp_step_app (l : list CheckIn) (acc : list TimestampError)
    (i : nat) :
  timestamp_step l acc i = acc ++ adjacent_error l i.
Proof.
  unfold timestamp_step, adjacent_error, same_instant.
  destruct (nth_error l i) as [cur |]; [| symmetry; apply app_nil_r].
  destruct (nth_error l (i - 1)) as [prev |]; [| symmetry; apply app_nil_r].
  destruct (num_eq _ _); [reflexivity | symmetry; apply app_nil_r].
Qed.

Lemma fold_timestamp_step (l : list CheckIn) (indices : list nat)
    (acc : list TimestampError) :
  fold_left (timestamp_step l) indices acc
  = acc ++ flat_map (adjacent_error l) indices.
Proof.
  revert acc. induction indices as [| i rest IH]; intros acc; cbn [fold_left flat_map].
  - symmetry. apply app_nil_r.
  - rewrite IH, timestamp_step_app, app_assoc. reflexivity.
Qed.

Lemma flat_map_ext_in {A B : Type} (f g : A -> list B) (l : list A) :
  (forall a, In a l -> f a = g a) -> flat_map f l = flat_map g l.
Proof.
  induction l as [| a l IH]; intros H; cbn [flat_map]; [reflexivity |].
  rewrite (H a (or_introl eq_refl)), IH; [reflexivity |].
  intros b Hb. apply H. right. exact Hb.
Qed.

Lemma flat_map_nil {A B : Type} (f : A -> list B) (l : list A) :
  flat_map f l = [] <-> forall a, In a l -> f a = [].
Proof.
  induction l as [| a l IH]; cbn [flat_map].
  - split; [intros _ a [] | reflexivity].
  - split.
    + intros H. apply app_eq_nil in H. destruct H as [H1 H2].
      intros b [<- | Hb]; [exact H1 | apply IH; assumption].
    + intros H. rewrite (H a (or_introl eq_refl)).
      apply IH. intros b Hb. apply H. right. exact Hb.
Qed.

Lemma sorted_nth_error (l : list CheckIn) :
  StronglySorted time_le l ->
  forall i j a b, (i < j)%nat ->
    nth_error l i = Some a -> nth_error l j = Some b -> time_le a b.
Proof.
  induction 1 as [| x l Hs IH Hx]; intros i j a b Hij Ha Hb.
  - destruct i; discriminate Ha.
  - destruct j as [| j]; [lia |]. cbn [nth_error] in Hb.
    destruct i as [| i].
    + injection Ha as <-. rewrite Forall_forall in Hx.
      apply Hx. eapply nth_error_In. exact Hb.
    + cbn [nth_error] in Ha. apply (IH i j); [lia | assumption ..].
Qed.

Lemma In_firstn_nth_error {A : Type} (l : list A) (i : nat) (a : A) :
  In a (firstn i l) <-> exists j, (j < i)%nat /\ nth_error l j = Some a.
Proof.
  split.
  - intros H. apply In_nth_error in H. destruct H as (j & Hj).
    rewrite nth_error_firstn in Hj.
    destruct (Nat.ltb_spec j i); [eauto | discriminate Hj].
  - intros (j & Hji & Hj). apply (nth_error_In _ j).
    rewrite nth_error_firstn.
    destruct (Nat.ltb_spec j i); [exact Hj | lia].
Qed.

(** Between two equal numbers there is only that number. *)
Lemma num_eq_squeeze (a b c : number) :
  num_eq a c = true -> num_le a b = true -> num_le b c = true ->
  num_eq c b = true.
Proof.
  destruct a as [| [] | x], b as [| [] | y], c as [| [] | z];
    intros H1 H2 H3; try discriminate; try reflexivity.
  apply num_le_Fin in H2, H3. cbn in H1 |- *.
  apply Qeq_bool_iff in H1. apply Qeq_bool_iff. lra.
Qed.

Lemma existsb_same_instant (l : list CheckIn) (i : nat) (cur prev : CheckIn) :
  StronglySorted time_le l -> (1 <= i)%nat ->
  nth_error l i = Some cur -> nth_error l (i - 1) = Some prev ->
  existsb (same_instant cur) (firstn i l) = same_instant cur prev.
Proof.
  intros Hs Hi Hcur Hprev. apply eq_true_iff_eq. rewrite existsb_exists.
  split.
  - intros (c & Hin & Hc). apply In_firstn_nth_error in Hin.
    destruct Hin as (j & Hj & Hjc). unfold same_instant in *.
    destruct (Nat.eq_dec j (i - 1)) as [-> | Hne].
    + congruence.
    + rewrite num_eq_sym in Hc.
      apply (num_eq_squeeze _ _ _ Hc).
      * apply (sorted_nth_error l Hs j (i - 1)); [lia | assumption ..].
      * apply (sorted_nth_error l Hs (i - 1) i); [lia | assumption ..].
  - intros H. exists prev. split; [| exact H].
    apply In_firstn_nth_error. exists (i - 1)%nat. split; [lia | exact Hprev].
Qed.

Lemma adjacent_is_duplicate (l : list CheckIn) (i : nat) :
  StronglySorted time_le l -> (1 <= i)%nat ->
  adjacent_error l i = duplicate_error l i.
Proof.
  intros Hs Hi. unfold adjacent_error, duplicate_error.
  destruct (nth_error l i) as [cur |] eqn:Hcur; [| reflexivity].
  destruct (nth_error l (i - 1)) as [prev |] eqn:Hprev.
  - rewrite (existsb_same_instant l i cur prev Hs Hi Hcur Hprev). reflexivity.
  - exfalso. apply nth_error_None in Hprev.
    assert (H : nth_error l i <> None) by congruence.
    apply nth_error_Some in H. lia.
Qed.

(** On a sorted sequence the loop reports what the rule asks for. *)
Lemma validateVibeTimestamps_errors (l : list CheckIn) :
  StronglySorted time_le l ->
  ts_errors (validateVibeTimestamps l)
  = flat_map (duplicate_error l) (seq 0 (List.length l)).
Proof.
  intros Hs. unfold validateVibeTimestamps. cbn [ts_errors].
  rewrite fold_timestamp_step. cbn [app].
  rewrite (flat_map_ext_in (adjacent_error l) (duplicate_error l)).
  - destruct l as [| c l']; [reflexivity |].
    cbn [List.length]. rewrite Nat.sub_succ, Nat.sub_0_r.
    cbn [seq flat_map]. reflexivity.
  - intros i Hi. apply in_seq in Hi.
    apply adjacent_is_duplicate; [exact Hs | lia].
Qed.

(** C8.  Timestamp uniqueness: on a sequence sorted by recordedAt, the
    result is valid exactly when no two elements share an instant, and
    the error list holds, in index order, one DuplicateTimestamp error
    with its index for every element that shares its instant with an
    earlier one, and nothing else. *)
Theorem validateVibeTimestamps_sorted (checkIns : list CheckIn) :
  StronglySorted time_le checkIns ->
  (ts_valid (validateVibeTimestamps checkIns) = true <->
   forall i j a b, (i < j)%nat ->
     nth_error checkIns i = Some a -> nth_error checkIns j = Some b ->
     same_instant a b = false) /\
  ts_errors (validateVibeTimestamps checkIns)
  = flat_map (duplicate_error checkIns) (seq 0 (List.length checkIns)).
Proof.
  intros Hs. split; [| apply validateVibeTimestamps_errors, Hs].
  change (ts_valid (validateVibeTimestamps checkIns))
    with (is_nil (ts_errors (validateVibeTimestamps checkIns))).
  rewrite is_nil_spec, (validateVibeTimestamps_errors _ Hs), flat_map_nil.
  split.
  - intros H i j a b Hij Ha Hb.
    assert (Hj : In j (seq 0 (List.length checkIns))).
    { apply in_seq. assert (N : nth_error checkIns j <> None) by congruence.
      apply nth_error_Some in N. lia. }
    specialize (H j Hj). unfold duplicate_error in H. rewrite Hb in H.
    destruct (existsb (same_instant b) (firstn j checkIns)) eqn:E;
      [discriminate H |].
    unfold same_instant. rewrite num_eq_sym.
    destruct (same_instant b a) eqn:S; [| exact S].
    exfalso. apply not_true_iff_false in E. apply E.
    apply existsb_exists. exists a. split; [| exact S].
    apply In_firstn_nth_error. eauto.
  - intros H j _. unfold duplicate_error.
    destruct (nth_error checkIns j) as [b |] eqn:Hb; [| reflexivity].
    destruct (existsb (same_instant b) (firstn j checkIns)) eqn:E;
      [| reflexivity].
    exfalso. apply existsb_exists in E. destruct E as (a & Hin & S).
    apply In_firstn_nth_error in Hin. destruct Hin as (i & Hij & Ha).
    specialize (H i j a b Hij Ha Hb).
    unfold same_instant in *. rewrite num_eq_sym in S. congruence.
Qed.

(** Six check-ins at 1000, 1000, 2000, 3000, 3000 and 3000 ms. *)
Example sample_checkIns_errors :
  validateVibeTimestamps
    (map (fun ms => {| recordedAt := ValidDate ms |})
         [1000; 1000; 2000; 3000; 3000; 3000]%Z)
  = {| ts_valid := false;
       ts_errors := [ DuplicateTimestamp 1 (ValidDate 1000);
                      DuplicateTimestamp 4 (ValidDate 3000);
                      DuplicateTimestamp 5 (ValidDate 3000) ] |}.
Proof. vm_compute. reflexivity. Qed.

Lemma validateVibeTimestamps_sorted_witness :
  let checkIns :=
    map (fun ms => {| recordedAt := ValidDate ms |})
        [1000; 1000; 2000; 3000; 3000; 3000]%Z in
  StronglySorted time_le checkIns /\
  ((ts_valid (validateVibeTimestamps checkIns) = true <->
    forall i j a b, (i < j)%nat ->
      nth_error checkIns i = Some a -> nth_error checkIns j = Some b ->
      same_instant a b = false) /\
   ts_errors (validateVibeTimestamps checkIns)
   = flat_map (duplicate_error checkIns) (seq 0 (List.length checkIns))).
Proof.
  assert (Hs : StronglySorted time_le
                 (map (fun ms => {| recordedAt := ValidDate ms |})
                      [1000; 1000; 2000; 3000; 3000; 3000]%Z)).
  { cbn [map]. repeat constructor. }
  split; [exact Hs | apply (validateVibeTimestamps_sorted _ Hs)].
Defined.

End Timestamps.


(** ** Exact results *)

Section Exact.

Lemma rne_proper (x y : Q) : x == y -> rne x = rne y.
Proof.
  intros H. apply Z.le_antisymm; apply rne_mono; rewrite H; apply Qle_refl.
Qed.

Lemma round_q_proper (x y : Q) : x == y -> round_q x == round_q y.
Proof.
  intros H. apply Qle_antisym; apply round_q_mono; rewrite H; apply Qle_refl.
Qed.

Lemma overflow_proper (r s : Q) : r == s -> overflow r = overflow s.
Proof.
  intros H. unfold overflow.
  assert (E1 : Qle_bool (pow2 1024) (Qabs r) = Qle_bool (pow2 1024) (Qabs s))
    by (rewrite H; reflexivity).
  assert (E2 : Qle_bool 0 r = Qle_bool 0 s) by (rewrite H; reflexivity).
  rewrite E1, E2, (Qred_complete r s H). reflexivity.
Qed.

(** Rounding depends on the value of the rational alone, not on the
    fraction that represents it. *)
Lemma round64_proper (x y : Q) : x == y -> round64 x = round64 y.
Proof. intros H. apply overflow_proper, round_q_proper, H. Qed.

Lemma Qred_inject_Z (n : Z) : Qred (inject_Z n) = inject_Z n.
Proof.
  pose proof (Qred_correct (inject_Z n)) as E.
  pose proof (gcd_Qred (inject_Z n)) as G.
  destruct (Qred (inject_Z n)) as [p d]. unfold Qeq, inject_Z in *.
  cbn [Qnum Qden] in *. rewrite Z.mul_1_r in E. subst p.
  rewrite Z.mul_comm, Z.gcd_comm, Z.gcd_mul_diag_l in G by lia.
  assert (d = 1%positive) by lia. subst d. rewrite Z.mul_1_r. reflexivity.
Qed.

Lemma round_pos_Z (n : Z) :
  (1 <= n <= 2 ^ 53)%Z -> round_pos (inject_Z n) == inject_Z n.
Proof.
  intros Hn. set (x := inject_Z n).
  assert (Hx : 0 < x).
  { unfold x. change 0 with (inject_Z 0). rewrite <- Zlt_Qlt. lia. }
  assert (Hx1 : pow2 0 <= x).
  { unfold x. change (pow2 0) with (inject_Z 1). rewrite <- Zle_Qle. lia. }
  assert (Hx53 : x <= pow2 53).
  { unfold x. rewrite pow2_inject by lia. rewrite <- Zle_Qle. lia. }
  destruct (ilog2_spec x Hx) as [H1 H2]. unfold round_pos.
  set (e := ilog2 x) in *.
  assert (He0 : (0 <= e)%Z).
  { assert (H : pow2 0 < pow2 (e + 1)) by lra. apply pow2_lt_inv in H. lia. }
  assert (He53 : (e <= 53)%Z).
  { assert (H : pow2 e < pow2 54).
    { apply Qle_lt_trans with (pow2 53); [lra |].
      apply Qpower_lt_compat_l; [lia | reflexivity]. }
    apply pow2_lt_inv in H. lia. }
  replace (fexp e) with (e - 52)%Z by (unfold fexp; lia).
  pose proof (pow2_pos (e - 52)) as Hp.
  destruct (Z.eq_dec e 53) as [-> | Hne].
  - assert (Ex : x == pow2 53) by lra.
    change (53 - 52)%Z with 1%Z in *.
    assert (Es : x / pow2 1 == inject_Z (2 ^ 52)).
    { rewrite Ex, scale_pow2. change (53 - 1)%Z with 52%Z.
      apply pow2_inject. lia. }
    rewrite (rne_proper _ _ Es), rne_Z, Ex.
    rewrite <- pow2_inject by lia. rewrite <- pow2_add. reflexivity.
  - set (k := (52 - e)%Z).
    assert (Hk : pow2 (e - 52) * inject_Z (2 ^ k) == 1).
    { rewrite <- pow2_inject by (unfold k; lia). rewrite <- pow2_add.
      replace (e - 52 + k)%Z with 0%Z by (unfold k; lia). reflexivity. }
    assert (Es : x / pow2 (e - 52) == inject_Z (n * 2 ^ k)).
    { rewrite inject_Z_mult. fold x.
      set (P := pow2 (e - 52)) in *. set (K := inject_Z (2 ^ k)) in *.
      field_simplify_eq; [| lra]. nra. }
    rewrite (rne_proper _ _ Es), rne_Z, inject_Z_mult. fold x.
    set (P := pow2 (e - 52)) in *. set (K := inject_Z (2 ^ k)) in *. nra.
Qed.

(** A non-negative integer up to [2^53] is a number, exactly. *)
Lemma round64_Z (n : Z) :
  (0 <= n <= 2 ^ 53)%Z -> round64 (inject_Z n) = Fin (inject_Z n).
Proof.
  intros Hn. destruct (Z.eq_dec n 0) as [-> | Hne]; [reflexivity |].
  assert (Hx : 0 < inject_Z n).
  { change 0 with (inject_Z 0). rewrite <- Zlt_Qlt. lia. }
  assert (Er : round_q (inject_Z n) == inject_Z n).
  { unfold round_q. apply Qgt_alt in Hx. rewrite Hx. apply round_pos_Z. lia. }
  unfold round64. rewrite (overflow_proper _ _ Er).
  destruct (overflow_spec (inject_Z n)) as [[_ H] | [[_ H] | [-> _]]].
  - exfalso. rewrite pow2_inject in H by lia. rewrite <- Zle_Qle in H.
    assert (2 ^ 53 < 2 ^ 1024)%Z by (apply Z.pow_lt_mono_r; lia). lia.
  - exfalso. pose proof (pow2_pos 1024) as Hp.
    generalize dependent (pow2 1024). intros. lra.
  - rewrite Qred_inject_Z. reflexivity.
Qed.

Lemma round64_integer (q : Q) (n : Z) :
  q == inject_Z n -> (0 <= n <= 2 ^ 53)%Z -> round64 q = Fin (inject_Z n).
Proof. intros E Hn. rewrite (round64_proper _ _ E). apply round64_Z, Hn. Qed.

End Exact.


(** ** Which check-ins are accepted *)

Section AcceptedCheckIns.

Import Validation.

(** Numbers that [===] holds of behave alike under [Number.isInteger]
    and [<]. *)
Lemma num_eq_compat (a b : number) :
  num_eq a b = true ->
  isInteger b = isInteger a /\
  (forall c, num_lt b c = num_lt a c) /\
  (forall c, num_lt c b = num_lt c a).
Proof.
  destruct a as [| [] | x], b as [| [] | y]; intros H; try discriminate H;
    try (repeat split; reflexivity).
  cbn [num_eq] in H. apply Qeq_bool_iff in H. repeat split.
  - cbn [isInteger]. rewrite (Qfloor_comp _ _ H).
    apply Qeqb_comp; [symmetry; exact H | reflexivity].
  - intros [| [] | z]; try reflexivity. cbn [num_lt]. f_equal.
    apply Qleb_comp; [reflexivity | symmetry; exact H].
  - intros [| [] | z]; try reflexivity. cbn [num_lt]. f_equal.
    apply Qleb_comp; [symmetry; exact H | reflexivity].
Qed.

Lemma own_property_In {A : Type} (entries : list (string * A)) (key : string)
    (a : A) :
  own_property entries key = Some a -> In (key, a) entries.
Proof.
  induction entries as [| [k b] rest IH]; cbn [own_property]; [discriminate |].
  destruct (own_property rest key) as [c |].
  - intros H. injection H as <-. right. apply IH. reflexivity.
  - destruct (String.eqb_spec k key) as [-> | _]; [| discriminate].
    intros H. injection H as <-. left. reflexivity.
Qed.

Lemma VIBE_BY_LABEL_own (l : string) (e : VibeEntry) :
  get VIBE_BY_LABEL l = Own e <-> In e VIBE_ORDER /\ label e = l.
Proof.
  split.
  - unfold get. destruct (own_property VIBE_BY_LABEL l) as [a |] eqn:E.
    + intros H. injection H as <-. apply own_property_In in E.
      unfold VIBE_BY_LABEL in E. apply in_map_iff in E.
      destruct E as (v & Hv & Hin). injection Hv as <- <-. auto.
    + destruct (existsb _ _); discriminate.
  - intros [Hin <-].
    repeat destruct Hin as [<- | Hin]; try contradiction; reflexivity.
Qed.

Lemma VIBE_ORDER_values (e : VibeEntry) :
  In e VIBE_ORDER ->
  isInteger (value e) = true /\
  num_lt (value e) (lit 1) = false /\ num_gt (value e) (lit 5) = false.
Proof.
  intros H. repeat destruct H as [<- | H]; try contradiction;
    vm_compute; repeat split.
Qed.

(** A valid result names an entry of the registry. *)
Lemma validateVibeCheckIn_valid_entry (moodValue : number)
    (moodLabel : string) (r : VibeResult) :
  validateVibeCheckIn moodValue moodLabel = Some r -> valid r = true ->
  exists e, In e VIBE_ORDER /\ label e = moodLabel /\
            num_eq (value e) moodValue = true.
Proof.
  rewrite validateVibeCheckIn_errors. intros Hr Hv.
  injection Hr as <-. cbn [valid] in Hv.
  apply is_nil_spec, app_eq_nil in Hv. destruct Hv as [_ Hl].
  unfold label_errors in Hl.
  destruct (get VIBE_BY_LABEL moodLabel) as [e | k |] eqn:G;
    try discriminate Hl.
  apply VIBE_BY_LABEL_own in G. destruct G as [Hin Hlab].
  exists e. repeat split; try assumption.
  unfold num_neq in Hl. destruct (num_eq (value e) moodValue);
    [reflexivity | discriminate Hl].
Qed.

(** An entry of the registry with a value equal to its own is accepted
    without errors. *)
Lemma validateVibeCheckIn_entry_valid (moodValue : number) (e : VibeEntry) :
  In e VIBE_ORDER -> num_eq (value e) moodValue = true ->
  validateVibeCheckIn moodValue (label e) =
  Some {| valid := true; errors := [] |}.
Proof.
  intros Hin Heq. rewrite validateVibeCheckIn_errors.
  destruct (VIBE_ORDER_values e Hin) as (Hi & Hlo & Hhi).
  destruct (num_eq_compat _ _ Heq) as (Ci & Cl & Cr).
  unfold range_errors, label_errors, num_gt in *.
  rewrite Ci, Cl, Cr, Hi, Hlo, Hhi. cbn [negb orb app].
  rewrite (proj2 (VIBE_BY_LABEL_own (label e) e) (conj Hin eq_refl)).
  unfold num_neq. rewrite Heq. reflexivity.
Qed.

(** The dashboard validator accepts a pair exactly when the label is that
    of an entry of [VIBE_SCALE] whose value [===] the given one. *)
Lemma validateCheckIn_valid_iff (moodValue : number) (moodLabel : string) :
  Dashboard.valid (Dashboard.validateCheckIn moodValue moodLabel) = true <->
  (exists m, In m Dashboard.VIBE_SCALE /\ Dashboard.label m = moodLabel /\
             num_eq (Dashboard.value m) moodValue = true).
Proof.
  unfold Dashboard.validateCheckIn.
  destruct (find (fun v => String.eqb (Dashboard.label v) moodLabel)
                 Dashboard.VIBE_SCALE) as [c |] eqn:F.
  - pose proof F as F'. apply find_some in F'. destruct F' as [Hin Hlab].
    apply String.eqb_eq in Hlab.
    destruct (VIBE_SCALE_values c Hin) as [Hlo Hhi].
    unfold num_neq.
    destruct (num_eq (Dashboard.value c) moodValue) eqn:N; cbn [negb].
    + destruct (num_eq_compat _ _ N) as (_ & Cl & Cr).
      unfold num_gt. rewrite Cl, Cr.
      rewrite (num_le_not_lt _ _ Hlo), (num_le_not_lt _ _ Hhi). cbn [orb].
      split; [intros _; exists c; auto | reflexivity].
    + split; [discriminate |]. intros (m & Hm & Hl & He). exfalso.
      assert (m = c); [| congruence].
      subst moodLabel.
      repeat destruct Hm as [<- | Hm]; try contradiction;
        repeat destruct Hin as [<- | Hin]; try contradiction;
        try reflexivity; discriminate Hl.
  - split; [discriminate |]. intros (m & Hm & Hl & _). exfalso.
    apply (find_none _ _ F) in Hm. apply String.eqb_neq in Hm. congruence.
Qed.

(** The registry of the validation module is the scale of the dashboard
    without its colours. *)
Lemma VIBE_ORDER_of_VIBE_SCALE :
  VIBE_ORDER =
  map (fun m => {| label := Dashboard.label m; emoji := Dashboard.emoji m;
                   value := Dashboard.value m |}) Dashboard.VIBE_SCALE.
Proof. reflexivity. Qed.


(** X2.  The two validators accept exactly the same pairs. *)
Theorem validators_accept_the_same (moodValue : number) (moodLabel : string) :
  Dashboard.valid (Dashboard.validateCheckIn moodValue moodLabel) = true <->
  (exists r, validateVibeCheckIn moodValue moodLabel = Some r /\
             valid r = true).
Proof.
  rewrite validateCheckIn_valid_iff. split.
  - intros (m & Hm & <- & He).
    assert (Hin : In {| label := Dashboard.label m; emoji := Dashboard.emoji m;
                        value := Dashboard.value m |} VIBE_ORDER).
    { rewrite VIBE_ORDER_of_VIBE_SCALE.
      apply (in_map (fun m => {| label := Dashboard.label m;
                                 emoji := Dashboard.emoji m;
                                 value := Dashboard.value m |})).
      exact Hm. }
    pose proof (validateVibeCheckIn_entry_valid moodValue _ Hin He) as E.
    cbn [label] in E. rewrite E. eexists. split; reflexivity.
  - intros (r & Hr & Hv).
    destruct (validateVibeCheckIn_valid_entry _ _ r Hr Hv)
      as (e & Hin & Hl & He).
    rewrite VIBE_ORDER_of_VIBE_SCALE in Hin. apply in_map_iff in Hin.
    destruct Hin as (m & <- & Hm). exists m. auto.
Qed.

End AcceptedCheckIns.


(** ** The rules of the health score validator *)

Section HealthScoreRules.

Import Validation HealthRules.

(** The error list is the errors of rule (a), of rule (b), of the three
    input fields in the order streakDays, vibeCheckIns, loginCount, and of
    the average, in this order. *)
Lemma validateHealthScore_errors (r : HealthScoreRecord) :
  validateHealthScore r =
  let errors :=
    interval_errors r
    ++ tier_errors (healthScore r) (engagementTier r)
    ++ field_errors "streakDays" (streakDays r)
    ++ field_errors "vibeCheckIns" (vibeCheckIns r)
    ++ field_errors "loginCount" (loginCount r)
    ++ average_errors r in
  {| hs_valid := is_nil errors; hs_errors := errors |}.
Proof.
  unfold validateHealthScore, interval_errors, tier_errors, field_errors,
    average_errors. cbv zeta. cbn [fold_left].
  destruct (num_lt (healthScore r) (lit 0) || num_gt (healthScore r) (lit 100));
    destruct (negb (truthy (get tierBounds (engagementTier r))));
    try destruct (num_lt (healthScore r)
                    (to_number (bound_at (get tierBounds (engagementTier r)) 0))
                  || num_gt (healthScore r)
                       (to_number
                          (bound_at (get tierBounds (engagementTier r)) 1)));
    destruct (negb (isInteger (streakDays r)) || num_lt (streakDays r) (lit 0));
    destruct (negb (isInteger (vibeCheckIns r))
              || num_lt (vibeCheckIns r) (lit 0));
    destruct (negb (isInteger (loginCount r)) || num_lt (loginCount r) (lit 0));
    destruct (num_lt (averageVibeScore r) (lit 1)
              || num_gt (averageVibeScore r) (lit 5));
    reflexivity.
Qed.

Lemma In_if_singleton {A : Type} (b : bool) (x e : A) :
  In e (if b then [x] else []) <-> b = true /\ e = x.
Proof.
  destruct b; cbn [In].
  - split; [intros [H | []]; auto | intros [_ H]; auto].
  - split; [intros [] | intros [H _]; discriminate H].
Qed.

Lemma In_tier_errors (score : number) (tier : string) (e : HealthError) :
  In e (tier_errors score tier) <->
  (truthy (get tierBounds tier) = false /\ e = UnknownTier tier) \/
  (truthy (get tierBounds tier) = true /\
   num_lt score (to_number (bound_at (get tierBounds tier) 0))
     || num_gt score (to_number (bound_at (get tierBounds tier) 1)) = true /\
   e = TierScoreMismatch tier (bound_at (get tierBounds tier) 0)
                         (bound_at (get tierBounds tier) 1) score).
Proof.
  unfold tier_errors. cbv zeta.
  destruct (truthy (get tierBounds tier)); cbn [negb].
  - rewrite In_if_singleton. split.
    + intros [H1 H2]. right. auto.
    + intros [[H _] | (_ & H1 & H2)]; [discriminate H | auto].
  - cbn [In]. split.
    + intros [H | []]. left. auto.
    + intros [[_ H] | (H & _)]; [left; auto | discriminate H].
Qed.

Lemma In_hs_errors (r : HealthScoreRecord) (e : HealthError) :
  In e (hs_errors (validateHealthScore r)) <->
  (num_lt (healthScore r) (lit 0) || num_gt (healthScore r) (lit 100) = true
   /\ e = IntervalViolation (healthScore r)) \/
  In e (tier_errors (healthScore r) (engagementTier r)) \/
  (negb (isInteger (streakDays r)) || num_lt (streakDays r) (lit 0) = true
   /\ e = NonNegativeIntegerViolation "streakDays" (streakDays r)) \/
  (negb (isInteger (vibeCheckIns r)) || num_lt (vibeCheckIns r) (lit 0) = true
   /\ e = NonNegativeIntegerViolation "vibeCheckIns" (vibeCheckIns r)) \/
  (negb (isInteger (loginCount r)) || num_lt (loginCount r) (lit 0) = true
   /\ e = NonNegativeIntegerViolation "loginCount" (loginCount r)) \/
  (num_lt (averageVibeScore r) (lit 1)
   || num_gt (averageVibeScore r) (lit 5) = true
   /\ e = OrdinalBoundsViolation (averageVibeScore r)).
Proof.
  rewrite validateHealthScore_errors. cbv zeta. cbn [hs_errors].
  unfold interval_errors, field_errors, average_errors.
  rewrite !in_app_iff, !In_if_singleton. reflexivity.
Qed.

Lemma length_if_singleton {A : Type} (b : bool) (x : A) :
  (List.length (if b then [x] else []) <= 1)%nat.
Proof. destruct b; cbn; lia. Qed.

Lemma length_tier_errors (score : number) (tier : string) :
  (List.length (tier_errors score tier) <= 1)%nat.
Proof.
  unfold tier_errors. cbv zeta.
  destruct (negb _); [cbn; lia | apply length_if_singleton].
Qed.

(** X3.  The health score validator collects every violation: each error is
    in the list exactly when its own rule is broken, whatever the other
    rules find; there are at most six; and the record is valid exactly
    when the list is empty. *)
Theorem validateHealthScore_collects_all (r : HealthScoreRecord) :
  let errors := hs_errors (validateHealthScore r) in
  (forall x, In (IntervalViolation x) errors <->
     num_lt (healthScore r) (lit 0) || num_gt (healthScore r) (lit 100) = true
     /\ x = healthScore r) /\
  (forall t, In (UnknownTier t) errors <->
     truthy (get tierBounds (engagementTier r)) = false
     /\ t = engagementTier r) /\
  (forall t lo hi x, In (TierScoreMismatch t lo hi x) errors <->
     truthy (get tierBounds (engagementTier r)) = true /\
     num_lt (healthScore r)
            (to_number (bound_at (get tierBounds (engagementTier r)) 0))
     || num_gt (healthScore r)
               (to_number (bound_at (get tierBounds (engagementTier r)) 1))
     = true /\
     TierScoreMismatch t lo hi x =
     TierScoreMismatch (engagementTier r)
       (bound_at (get tierBounds (engagementTier r)) 0)
       (bound_at (get tierBounds (engagementTier r)) 1) (healthScore r)) /\
  (forall name val, In (NonNegativeIntegerViolation name val) errors <->
     negb (isInteger val) || num_lt val (lit 0) = true /\
     ((name, val) = ("streakDays"%string, streakDays r) \/
      (name, val) = ("vibeCheckIns"%string, vibeCheckIns r) \/
      (name, val) = ("loginCount"%string, loginCount r))) /\
  (forall x, In (OrdinalBoundsViolation x) errors <->
     num_lt (averageVibeScore r) (lit 1)
     || num_gt (averageVibeScore r) (lit 5) = true
     /\ x = averageVibeScore r) /\
  (List.length errors <= 6)%nat /\
  (hs_valid (validateHealthScore r) = true <-> errors = []).
Proof.
  cbv zeta. split; [| split; [| split; [| split; [| split; [| split]]]]].
  - intros x. rewrite In_hs_errors, In_tier_errors. split.
    + intros [[H E] | [[[_ E] | (_ & _ & E)] | [[_ E] | [[_ E] | [[_ E] | [_ E]]]]]];
        try discriminate E. injection E as ->. auto.
    + intros [H ->]. left. auto.
  - intros t. rewrite In_hs_errors, In_tier_errors. split.
    + intros [[H E] | [[[H E] | (_ & _ & E)] | [[_ E] | [[_ E] | [[_ E] | [_ E]]]]]];
        try discriminate E. injection E as ->. auto.
    + intros [H ->]. right; left. left. auto.
  - intros t lo hi x. rewrite In_hs_errors, In_tier_errors. split.
    + intros [[H E] | [[[H E] | (H1 & H2 & E)] | [[_ E] | [[_ E] | [[_ E] | [_ E]]]]]];
        try discriminate E. auto.
    + intros (H1 & H2 & E). right; left. right. auto.
  - intros name val. rewrite In_hs_errors, In_tier_errors. split.
    + intros [[H E] | [[[H E] | (_ & _ & E)] | [[H E] | [[H E] | [[H E] | [_ E]]]]]];
        try discriminate E; injection E as -> ->; auto.
    + intros [H [E | [E | E]]]; injection E as -> ->; auto 10.
  - intros x. rewrite In_hs_errors, In_tier_errors. split.
    + intros [[H E] | [[[H E] | (_ & _ & E)] | [[_ E] | [[_ E] | [[_ E] | [H E]]]]]];
        try discriminate E. injection E as ->. auto.
    + intros [H ->]. auto 10.
  - rewrite validateHealthScore_errors. cbv zeta. cbn [hs_errors].
    rewrite !length_app. unfold interval_errors, field_errors, average_errors.
    pose proof (length_tier_errors (healthScore r) (engagementTier r)).
    repeat match goal with
    | |- context [List.length (if ?b then [?x] else [])] =>
        pose proof (length_if_singleton b x);
        generalize dependent (List.length (if b then [x] else []))
    end.
    intros. lia.
  - rewrite validateHealthScore_errors. cbv zeta. cbn [hs_errors hs_valid].
    apply is_nil_spec.
Qed.

End HealthScoreRules.


Section HealthScoreEdges.

Import Validation HealthRules Engagement.

Lemma tierBounds_known (tier : string) :
  In tier ENGAGEMENT_ORDER ->
  exists lo hi, get tierBounds tier = Own (Fin lo, Fin hi).
Proof.
  intros H. repeat destruct H as [<- | H]; try contradiction.
  - rewrite tierBounds_Low. eauto.
  - rewrite tierBounds_Moderate. eauto.
  - rewrite tierBounds_High. eauto.
  - rewrite tierBounds_Excellent. eauto.
Qed.

(** X4.  A score or an average that is [NaN] passes: the range tests are
    written [x < lo || x > hi], and both comparisons are false of [NaN].
    With a known tier and non-negative integer counts such a record is
    valid. *)
Theorem validateHealthScore_accepts_NaN (s c l : number) (tier : string) :
  In tier ENGAGEMENT_ORDER ->
  isInteger s = true -> num_ge s (lit 0) = true ->
  isInteger c = true -> num_ge c (lit 0) = true ->
  isInteger l = true -> num_ge l (lit 0) = true ->
  validateHealthScore
    {| streakDays := s; vibeCheckIns := c; averageVibeScore := NaN;
       loginCount := l; healthScore := NaN; engagementTier := tier |}
  = {| hs_valid := true; hs_errors := [] |}.
Proof.
  intros Ht Is Hs Ic Hc Il Hl. unfold num_ge in *.
  apply num_le_not_lt in Hs, Hc, Hl.
  rewrite validateHealthScore_errors. cbv zeta.
  unfold interval_errors, tier_errors, field_errors, average_errors.
  cbv zeta.
  cbn [streakDays vibeCheckIns averageVibeScore loginCount healthScore
       engagementTier].
  destruct (tierBounds_known tier Ht) as (lo & hi & ->).
  rewrite Is, Ic, Il, Hs, Hc, Hl. reflexivity.
Qed.

Lemma validateHealthScore_accepts_NaN_witness :
  validateHealthScore
    {| streakDays := lit 7; vibeCheckIns := lit 15; averageVibeScore := NaN;
       loginCount := lit 20; healthScore := NaN; engagementTier := "High" |}
  = {| hs_valid := true; hs_errors := [] |}.
Proof.
  apply validateHealthScore_accepts_NaN;
    solve [ vm_compute; reflexivity | cbn; auto ].
Defined.

Lemma tierBounds_inherited (key : string) :
  In key Object_prototype_keys -> get tierBounds key = Inherited key.
Proof.
  intros H. repeat destruct H as [<- | H]; try contradiction; reflexivity.
Qed.

(** X5.  A tier named like a member of [Object.prototype] is found by the
    lookup [tierBounds[engagementTier]] and has no bounds: rule (b) then
    reports nothing, whatever the score. *)
Theorem validateHealthScore_inherited_tier (r : HealthScoreRecord) :
  In (engagementTier r) Object_prototype_keys ->
  forall e, In e (hs_errors (validateHealthScore r)) ->
    (forall t, e <> UnknownTier t) /\
    (forall t lo hi x, e <> TierScoreMismatch t lo hi x).
Proof.
  intros Hk e He. apply In_hs_errors in He.
  assert (Ht : tier_errors (healthScore r) (engagementTier r) = []).
  { unfold tier_errors. rewrite (tierBounds_inherited _ Hk). cbv zeta.
    cbn [truthy negb bound_at to_number].
    rewrite num_lt_to_NaN. unfold num_gt. reflexivity. }
  rewrite Ht in He.
  destruct He as [[_ ->] | [[] | [[_ ->] | [[_ ->] | [[_ ->] | [_ ->]]]]]];
    split; intros; discriminate.
Qed.

Lemma validateHealthScore_inherited_tier_witness :
  validateHealthScore
    {| streakDays := lit 7; vibeCheckIns := lit 15;
       averageVibeScore := lit (42 # 10); loginCount := lit 20;
       healthScore := lit 15; engagementTier := "constructor" |}
  = {| hs_valid := true; hs_errors := [] |} /\
  forall e,
    In e (hs_errors (validateHealthScore
       {| streakDays := lit 7; vibeCheckIns := lit 15;
          averageVibeScore := lit (42 # 10); loginCount := lit 20;
          healthScore := lit 1000; engagementTier := "constructor" |})) ->
    (forall t, e <> UnknownTier t) /\
    (forall t lo hi x, e <> TierScoreMismatch t lo hi x).
Proof.
  split; [vm_compute; reflexivity |].
  apply validateHealthScore_inherited_tier. cbn. auto.
Defined.

End HealthScoreEdges.


(** ** Timestamps in any order *)

Section TimestampsAnyOrder.

Import Validation.

Lemma In_adjacent_error (l : list CheckIn) (i j : nat) (d : Date) :
  In (DuplicateTimestamp j d) (adjacent_error l i) <->
  j = i /\
  exists cur prev,
    nth_error l i = Some cur /\ nth_error l (i - 1) = Some prev /\
    same_instant cur prev = true /\ d = recordedAt cur.
Proof.
  unfold adjacent_error.
  destruct (nth_error l i) as [cur |]; [| split; [intros [] |]].
  - destruct (nth_error l (i - 1)) as [prev |]; [| split; [intros [] |]].
    + destruct (same_instant cur prev) eqn:S; cbn [In].
      * split.
        -- intros [H | []]. injection H as <- <-. split; [reflexivity |].
           exists cur, prev. auto.
        -- intros (-> & c & p & Hc & Hp & _ & ->).
           injection Hc as <-. left. reflexivity.
      * split; [intros [] |].
        intros (_ & c & p & Hc & Hp & Hs & _).
        injection Hc as <-. injection Hp as <-. congruence.
    + intros (_ & c & p & _ & Hp & _). discriminate Hp.
  - intros (_ & c & p & Hc & _). discriminate Hc.
Qed.

Lemma same_instant_valid (a b : CheckIn) :
  same_instant a b = true ->
  exists ms, recordedAt a = ValidDate ms /\ recordedAt b = ValidDate ms.
Proof.
  unfold same_instant.
  destruct (recordedAt a) as [x |], (recordedAt b) as [y |];
    cbn [getTime num_eq]; try discriminate.
  intros H. apply Qeq_bool_iff in H. unfold Qeq, inject_Z in H.
  cbn [Qnum Qden] in H. exists x. split; [reflexivity |]. f_equal. lia.
Qed.

Lemma length_adjacent_error (l : list CheckIn) (i : nat) :
  (List.length (adjacent_error l i) <= 1)%nat.
Proof.
  unfold adjacent_error.
  destruct (nth_error l i); [| cbn; lia].
  destruct (nth_error l (i - 1)); [| cbn; lia].
  destruct (same_instant _ _); cbn; lia.
Qed.

Lemma length_flat_map_le {A B : Type} (f : A -> list B) (l : list A) :
  (forall a, (List.length (f a) <= 1)%nat) ->
  (List.length (flat_map f l) <= List.length l)%nat.
Proof.
  intros H. induction l as [| a l IH]; cbn [flat_map List.length]; [lia |].
  rewrite length_app. specialize (H a). lia.
Qed.

(** X6.  On any sequence, sorted or not, the validator compares each element
    with the one before it and nothing else: the result is valid exactly
    when no element has the instant of its predecessor.  What it reports
    is never the first index, never an invalid date, always an element
    that repeats its predecessor's valid instant, and at most one error
    per element after the first. *)
Theorem validateVibeTimestamps_adjacent (checkIns : list CheckIn) :
  let r := validateVibeTimestamps checkIns in
  (ts_valid r = true <->
   forall i prev cur,
     nth_error checkIns i = Some prev ->
     nth_error checkIns (S i) = Some cur ->
     same_instant cur prev = false) /\
  (forall i d, In (DuplicateTimestamp i d) (ts_errors r) ->
     (1 <= i < List.length checkIns)%nat /\
     exists ms cur prev,
       d = ValidDate ms /\
       nth_error checkIns i = Some cur /\ recordedAt cur = ValidDate ms /\
       nth_error checkIns (i - 1) = Some prev /\
       recordedAt prev = ValidDate ms) /\
  (List.length (ts_errors r) <= List.length checkIns - 1)%nat.
Proof.
  cbv zeta.
  assert (E : ts_errors (validateVibeTimestamps checkIns)
              = flat_map (adjacent_error checkIns)
                         (seq 1 (List.length checkIns - 1))).
  { unfold validateVibeTimestamps. cbn [ts_errors].
    rewrite fold_timestamp_step. reflexivity. }
  split; [| split].
  - change (ts_valid (validateVibeTimestamps checkIns))
      with (is_nil (ts_errors (validateVibeTimestamps checkIns))).
    rewrite is_nil_spec, E, flat_map_nil. split.
    + intros H i prev cur Hp Hc.
      assert (Hi : In (S i) (seq 1 (List.length checkIns - 1))).
      { apply in_seq. assert (N : nth_error checkIns (S i) <> None) by congruence.
        apply nth_error_Some in N. lia. }
      specialize (H _ Hi). unfold adjacent_error in H.
      rewrite Hc in H. cbn [Nat.sub] in H. rewrite Nat.sub_0_r, Hp in H.
      destruct (same_instant cur prev); [discriminate H | reflexivity].
    + intros H i Hi. apply in_seq in Hi. unfold adjacent_error.
      destruct (nth_error checkIns i) as [cur |] eqn:Hc; [| reflexivity].
      destruct (nth_error checkIns (i - 1)) as [prev |] eqn:Hp; [| reflexivity].
      rewrite (H (i - 1)%nat prev cur Hp); [reflexivity |].
      replace (S (i - 1)) with i by lia. exact Hc.
  - intros i d H. rewrite E in H. apply in_flat_map in H.
    destruct H as (j & Hj & H). apply in_seq in Hj.
    apply In_adjacent_error in H.
    destruct H as (-> & cur & prev & Hc & Hp & Hs & ->).
    split; [lia |].
    destruct (same_instant_valid _ _ Hs) as (ms & Ec & Ep).
    exists ms, cur, prev. auto 10.
  - rewrite E. etransitivity.
    + apply length_flat_map_le, length_adjacent_error.
    + rewrite length_seq. lia.
Qed.

End TimestampsAnyOrder.


(** ** The health score under any ceilings *)

Section AnyCeilings.

Import Validation Engagement.

Variable m : MaxValues.
Hypothesis streak_ceiling : finite_pos (max_streakDays m).
Hypothesis checkins_ceiling : finite_pos (max_vibeCheckIns m).
Hypothesis logins_ceiling : finite_pos (max_loginCount m).

Abbreviation score_with s c a l :=
  (hs_healthScore (computeHealthScore s c a l (Some m))).

Lemma min_not_above_bound (a c : number) : not_above (Math_min a c) c.
Proof.
  unfold not_above.
  destruct a as [| sa | x], c as [| sc | z]; try reflexivity;
    try apply num_lt_to_NaN; cbn [Math_min];
    match goal with
    | |- context [if ?b then _ else _] => destruct b eqn:E
    end; try exact E; apply not_above_refl.
Qed.

Lemma score_with_mono (s c a l s' c' a' l' : number) :
  not_above s s' -> not_above c c' -> not_above a a' -> not_above l l' ->
  not_above (score_with s c a l) (score_with s' c' a' l').
Proof.
  intros Hs Hc Ha Hl. unfold computeHealthScore. cbn [hs_healthScore].
  apply toFixed_mono, composite_mono.
  - unfold norm_streak. auto 10 with numbers.
  - apply norm_vibe_mono, Ha.
  - unfold norm_logins. auto 10 with numbers.
  - unfold norm_checkins. auto 10 with numbers.
Qed.

Lemma capped_at_100 (x : number) :
  not_above (num_mul (Math_min x (lit 1)) (lit 100)) (Fin 100).
Proof.
  replace (Fin 100) with (num_mul (lit 1) (lit 100))
    by (vm_compute; reflexivity).
  apply mul_mono_l; [auto with numbers | apply min_not_above_bound].
Qed.

Lemma score_with_range (s c a l : number) :
  nonneg s -> nonneg c -> nonneg l ->
  num_le (lit 1) a = true -> num_le a (lit 5) = true ->
  num_le (Fin 0) (score_with s c a l) = true /\
  num_le (score_with s c a l) (Fin 100) = true.
Proof.
  intros Hs Hc Hl Ha1 Ha5.
  assert (Hv : nonneg (num_sub a (lit 1))).
  { apply (nonneg_sub a (lit 1) 1); [apply lit_1 | exact Ha1]. }
  assert (Hn : nonneg (score_with s c a l)).
  { unfold computeHealthScore. cbn [hs_healthScore].
    unfold composite, norm_streak, norm_vibe, norm_logins, norm_checkins.
    auto 20 with numbers. }
  split; [exact Hn |].
  apply num_le_spec in Hn. destruct Hn as (_ & Hnan & _).
  apply num_le_spec. repeat split; [exact Hnan | discriminate |].
  replace (Fin 100)
    with (toFixed_num 2 (composite (Fin 100) (Fin 100) (Fin 100) (Fin 100)))
    by (vm_compute; reflexivity).
  unfold computeHealthScore. cbn [hs_healthScore].
  apply toFixed_mono, composite_mono.
  - apply capped_at_100.
  - replace (Fin 100) with (norm_vibe (lit 5)) by (vm_compute; reflexivity).
    apply norm_vibe_mono. apply num_le_spec in Ha5. apply Ha5.
  - apply capped_at_100.
  - apply capped_at_100.
Qed.

End AnyCeilings.

Section CeilingClaims.

Import Validation Engagement.

(** X7.  With any finite positive ceilings passed as [maxValues], the
    returned healthScore is monotone in each input. *)
Theorem computeHealthScore_monotone_any_ceilings (m : MaxValues) :
  finite_pos (max_streakDays m) -> finite_pos (max_vibeCheckIns m) ->
  finite_pos (max_loginCount m) ->
  monotone_in_each
    (fun s c a l => hs_healthScore (computeHealthScore s c a l (Some m))).
Proof.
  intros H1 H2 H3 s c a l x. repeat split; intros H;
    apply num_le_spec in H; destruct H as (_ & _ & H);
    apply score_with_mono; auto with numbers.
Qed.

Lemma computeHealthScore_monotone_any_ceilings_witness :
  monotone_in_each
    (fun s c a l =>
       hs_healthScore
         (computeHealthScore s c a l
            (Some {| max_streakDays := lit 7; max_vibeCheckIns := lit 10;
                     max_loginCount := lit (25 # 10) |}))).
Proof.
  apply computeHealthScore_monotone_any_ceilings;
    cbn [max_streakDays max_vibeCheckIns max_loginCount];
    (eapply finite_pos_lit; [vm_compute; reflexivity | reflexivity]).
Defined.

(** X8.  With any finite positive ceilings, non-negative counts and an
    average in [1, 5] give a healthScore in [0, 100]. *)
Theorem computeHealthScore_bounded_any_ceilings (m : MaxValues)
    (s c a l : number) :
  finite_pos (max_streakDays m) -> finite_pos (max_vibeCheckIns m) ->
  finite_pos (max_loginCount m) ->
  num_ge s (lit 0) = true -> num_ge c (lit 0) = true ->
  num_ge l (lit 0) = true ->
  num_ge a (lit 1) = true -> num_le a (lit 5) = true ->
  num_ge (hs_healthScore (computeHealthScore s c a l (Some m))) (lit 0) = true
  /\ num_le (hs_healthScore (computeHealthScore s c a l (Some m))) (lit 100)
     = true.
Proof.
  intros H1 H2 H3 Hs Hc Hl Ha1 Ha5. rewrite lit_100. unfold num_ge in *.
  apply score_with_range; assumption.
Qed.

Lemma computeHealthScore_bounded_any_ceilings_witness :
  let m := {| max_streakDays := lit 7; max_vibeCheckIns := lit 10;
              max_loginCount := lit (25 # 10) |} in
  num_ge (hs_healthScore
            (computeHealthScore (lit 10) (lit 3) (lit (38 # 10)) (lit 2)
                                (Some m))) (lit 0) = true /\
  num_le (hs_healthScore
            (computeHealthScore (lit 10) (lit 3) (lit (38 # 10)) (lit 2)
                                (Some m))) (lit 100) = true.
Proof.
  apply computeHealthScore_bounded_any_ceilings;
    cbn [max_streakDays max_vibeCheckIns max_loginCount];
    solve [ eapply finite_pos_lit; [vm_compute; reflexivity | reflexivity]
          | vm_compute; reflexivity ].
Defined.

Lemma num_add_NaN_r (a : number) : num_add a NaN = NaN.
Proof. destruct a as [| [] |]; reflexivity. Qed.

Lemma computeHealthScore_tier (s c a l : number) (m : option MaxValues) :
  hs_engagementTier (computeHealthScore s c a l m)
  = engagementTierOf (hs_healthScore (computeHealthScore s c a l m)).
Proof. reflexivity. Qed.

(** X9.  [NaN] in any of the four inputs, as a missing field gives, makes the
    healthScore [NaN], and the tier of a [NaN] score is Low, under any
    ceilings. *)
Theorem computeHealthScore_NaN (s c a l : number) (m : option MaxValues) :
  s = NaN \/ c = NaN \/ a = NaN \/ l = NaN ->
  hs_healthScore (computeHealthScore s c a l m) = NaN /\
  hs_engagementTier (computeHealthScore s c a l m) = "Low"%string.
Proof.
  intros H.
  assert (E : hs_healthScore (computeHealthScore s c a l m) = NaN).
  { unfold computeHealthScore. cbn [hs_healthScore].
    unfold composite, norm_streak, norm_vibe, norm_logins, norm_checkins.
    destruct H as [-> | [-> | [-> | ->]]]; cbn [num_div num_sub Math_min num_mul];
      rewrite ?num_add_NaN_r; cbn [num_add toFixed_num];
      rewrite ?num_add_NaN_r; reflexivity. }
  split; [exact E |]. rewrite computeHealthScore_tier, E. reflexivity.
Qed.

Lemma computeHealthScore_NaN_witness :
  hs_healthScore (computeHealthScore (lit 10) NaN (lit 3) (lit 30) None) = NaN
  /\ hs_engagementTier (computeHealthScore (lit 10) NaN (lit 3) (lit 30) None)
     = "Low"%string.
Proof. apply computeHealthScore_NaN. auto. Defined.



End CeilingClaims.


(** ** Tiers of the two variants *)

Section Tiers.

Import Validation Engagement.

Ltac decide_comparisons :=
  repeat match goal with
  | |- context [num_le (Fin ?x) (Fin ?y)] =>
      first [ rewrite (proj2 (num_le_Fin x y)) by lra
            | rewrite (proj2 (num_le_Fin_false x y)) by lra ]
  | |- context [num_lt (Fin ?x) (Fin ?y)] =>
      first [ rewrite (proj2 (num_lt_Fin_true x y)) by lra
            | rewrite (proj2 (num_lt_Fin x y)) by lra ]
  end.

Lemma score_intervals (q : Q) :
  q < 0 \/ (0 <= q /\ q <= 25) \/ (25 < q /\ q < 26) \/ (26 <= q /\ q <= 50) \/
  (50 < q /\ q < 51) \/ (51 <= q /\ q <= 75) \/ (75 < q /\ q < 76) \/
  (76 <= q /\ q <= 100) \/ 100 < q.
Proof.
  destruct (Qlt_le_dec q 0); [lra |].
  destruct (Qlt_le_dec 25 q); [| lra].
  destruct (Qlt_le_dec q 26); [lra |].
  destruct (Qlt_le_dec 50 q); [| lra].
  destruct (Qlt_le_dec q 51); [lra |].
  destruct (Qlt_le_dec 75 q); [| lra].
  destruct (Qlt_le_dec q 76); [lra |].
  destruct (Qlt_le_dec 100 q); lra.
Qed.

Lemma engagementTierOf_Fin (q : Q) :
  engagementTierOf (Fin q) =
  if Qle_bool 76 q then "Excellent"%string
  else if Qle_bool 51 q then "High"%string
  else if Qle_bool 26 q then "Moderate"%string
  else "Low"%string.
Proof.
  unfold engagementTierOf, num_ge. rewrite lit_76, lit_51, lit_26.
  destruct (Qle_bool 76 q) eqn:E1.
  { apply Qle_bool_iff in E1. decide_comparisons. reflexivity. }
  apply not_true_iff_false in E1. rewrite Qle_bool_iff in E1.
  destruct (Qle_bool 51 q) eqn:E2.
  { apply Qle_bool_iff in E2. decide_comparisons. reflexivity. }
  apply not_true_iff_false in E2. rewrite Qle_bool_iff in E2.
  destruct (Qle_bool 26 q) eqn:E3.
  { apply Qle_bool_iff in E3. decide_comparisons. reflexivity. }
  apply not_true_iff_false in E3. rewrite Qle_bool_iff in E3.
  decide_comparisons. reflexivity.
Qed.

(** The tier derived by [computeHealthScore] never ranks lower for a
    larger score, in the order of [ENGAGEMENT_RANK]. *)
Lemma engagementTierOf_mono (x y : number) :
  num_le x y = true ->
  exists i j,
    tier_rank (engagementTierOf x) = Some i /\
    tier_rank (engagementTierOf y) = Some j /\ (i <= j)%nat.
Proof.
  intros H.
  destruct x as [| [] | p], y as [| [] | q]; try discriminate H.
  - exists 0%nat, 0%nat. split; [reflexivity | split; [reflexivity | lia]].
  - exists 0%nat, 3%nat. split; [reflexivity | split; [reflexivity | lia]].
  - rewrite engagementTierOf_Fin.
    exists 0%nat. destruct (Qle_bool 76 q); [| destruct (Qle_bool 51 q);
      [| destruct (Qle_bool 26 q)]];
      (eexists; split; [reflexivity | split; [reflexivity | lia]]).
  - exists 3%nat, 3%nat. split; [reflexivity | split; [reflexivity | lia]].
  - rewrite engagementTierOf_Fin.
    exists (match engagementTierOf (Fin p) with
            | "Excellent"%string => 3 | "High"%string => 2
            | "Moderate"%string => 1 | _ => 0 end)%nat, 3%nat.
    rewrite engagementTierOf_Fin.
    destruct (Qle_bool 76 p); [| destruct (Qle_bool 51 p);
      [| destruct (Qle_bool 26 p)]];
      (split; [reflexivity | split; [reflexivity | lia]]).
  - apply num_le_Fin in H. rewrite !engagementTierOf_Fin.
    destruct (Qle_bool 76 p) eqn:P1; destruct (Qle_bool 51 p) eqn:P2;
      destruct (Qle_bool 26 p) eqn:P3;
      destruct (Qle_bool 76 q) eqn:Q1; destruct (Qle_bool 51 q) eqn:Q2;
      destruct (Qle_bool 26 q) eqn:Q3;
      repeat match goal with
      | E : Qle_bool _ _ = true |- _ => apply Qle_bool_iff in E
      | E : Qle_bool _ _ = false |- _ =>
          apply not_true_iff_false in E; rewrite Qle_bool_iff in E
      end;
      try (exfalso; lra);
      try (exfalso;
           match goal with E : ~ _ <= _ |- _ => apply E; lra end);
      (eexists; eexists; split; [reflexivity | split; [reflexivity | lia]]).
Qed.

(** X11.  On inputs within their declared ranges, when no input decreases the
    tier returned by [computeHealthScore] does not rank lower. *)
Theorem computeHealthScore_tier_monotone (s c a l s' c' a' l' : number) :
  num_le (lit 0) s = true -> num_le (lit 0) c = true ->
  num_le (lit 1) a = true -> num_le (lit 0) l = true ->
  num_le s s' = true -> num_le c c' = true ->
  num_le a a' = true -> num_le l l' = true ->
  exists i j,
    tier_rank (hs_engagementTier (computeHealthScore s c a l None)) = Some i /\
    tier_rank (hs_engagementTier (computeHealthScore s' c' a' l' None))
    = Some j /\
    (i <= j)%nat.
Proof.
  intros. rewrite !computeHealthScore_tier.
  apply engagementTierOf_mono, computeHealthScore_monotone_le; assumption.
Qed.

Lemma computeHealthScore_tier_monotone_witness :
  exists i j,
    tier_rank (hs_engagementTier
                 (computeHealthScore (lit 10) (lit 20) (lit 3) (lit 30) None))
    = Some i /\
    tier_rank (hs_engagementTier
                 (computeHealthScore (lit 29) (lit 20) (lit 3) (lit 30) None))
    = Some j /\
    (i <= j)%nat.
Proof.
  apply computeHealthScore_tier_monotone; vm_compute; reflexivity.
Defined.

(** X12.  On the same score the dashboard lookup and the derivation of
    [computeHealthScore] name the same tier, except strictly between 50
    and 51 and between 75 and 76, where the lookup falls back to Low, and
    above 100, where the lookup falls back to Low and the derivation says
    Excellent. *)
Theorem tier_lookup_against_derivation (x : number) :
  option_map Dashboard.tier_label (Dashboard.tierForScore x)
  = Some (engagementTierOf x)
  <->
  (num_gt x (lit 50) && num_lt x (lit 51))
  || (num_gt x (lit 75) && num_lt x (lit 76))
  || num_gt x (lit 100) = false.
Proof.
  unfold Dashboard.tierForScore. rewrite ENGAGEMENT_TIERS_eq.
  unfold num_gt. rewrite lit_50, lit_51, lit_75, lit_76, lit_100.
  destruct x as [| [] | q].
  - cbn. split; reflexivity.
  - cbn. split; reflexivity.
  - cbn. split; discriminate.
  - rewrite engagementTierOf_Fin.
    unfold Dashboard.tier_contains, num_ge.
    cbn [find Dashboard.min Dashboard.max].
    destruct (score_intervals q) as [C | [C | [C | [C | [C | [C | [C | [C | C]]]]]]]];
      decide_comparisons; cbn [andb orb nth_error option_map Dashboard.tier_label];
      repeat match goal with
      | |- context [Qle_bool ?u ?v] =>
          first [ rewrite (proj2 (Qle_bool_iff u v)) by lra
                | replace (Qle_bool u v) with false
                    by (symmetry; apply not_true_iff_false;
                        rewrite Qle_bool_iff; lra) ]
      end;
      split; intros E; (reflexivity || discriminate E).
Qed.

End Tiers.

(** ** Streaks *)

Section StreakRules.

Import Validation Records.

(** [errors.length === 0] after a conditional [push]. *)
Lemma is_nil_push {A : Type} (b : bool) (l : list A) (x : A) :
  is_nil (if b then l ++ [x] else l) = negb b && is_nil l.
Proof. destruct b, l; reflexivity. Qed.

Lemma is_integer_finite (x : number) :
  isInteger x = true -> exists q, x = Fin q.
Proof. destruct x as [| s | q]; try discriminate. eauto. Qed.

(** An integer is not below zero exactly when it is at least zero. *)
Lemma count_nonneg (x : number) :
  negb (isInteger x) || num_lt x (lit 0) = false <->
  isInteger x = true /\ nonneg x.
Proof.
  rewrite orb_false_iff, negb_false_iff, lit_0. unfold nonneg.
  split; intros [Hi H]; split; try exact Hi.
  - destruct (is_integer_finite _ Hi) as [q ->].
    apply num_le_Fin. apply num_lt_Fin in H. exact H.
  - apply num_le_not_lt, H.
Qed.

Lemma validateStreak_valid (s : Streak) :
  st_valid (validateStreak s) =
  negb (not_a_count (currentStreak s)) && negb (not_a_count (longestStreak s))
  && negb (not_a_count (totalActiveDays s))
  && negb (num_lt (to_number (longestStreak s)) (to_number (currentStreak s)))
  && negb (num_lt (to_number (totalActiveDays s))
                  (to_number (currentStreak s))).
Proof.
  unfold validateStreak. cbv zeta. cbn [fold_left st_valid].
  rewrite !is_nil_push. cbn [is_nil app].
  destruct (not_a_count (currentStreak s)), (not_a_count (longestStreak s)),
    (not_a_count (totalActiveDays s)),
    (num_lt (to_number (longestStreak s)) (to_number (currentStreak s))),
    (num_lt (to_number (totalActiveDays s)) (to_number (currentStreak s)));
    reflexivity.
Qed.

(** The error list is the count errors of the three fields, in the order
    currentStreak, longestStreak, totalActiveDays, then the two order
    errors. *)
Lemma validateStreak_errors (s : Streak) :
  st_errors (validateStreak s) =
  (if not_a_count (currentStreak s)
   then [CountViolation "currentStreak" (currentStreak s)] else [])
  ++ (if not_a_count (longestStreak s)
      then [CountViolation "longestStreak" (longestStreak s)] else [])
  ++ (if not_a_count (totalActiveDays s)
      then [CountViolation "totalActiveDays" (totalActiveDays s)] else [])
  ++ (if num_lt (to_number (longestStreak s)) (to_number (currentStreak s))
      then [LongestBelowCurrent (longestStreak s) (currentStreak s)] else [])
  ++ (if num_lt (to_number (totalActiveDays s)) (to_number (currentStreak s))
      then [TotalBelowCurrent (totalActiveDays s) (currentStreak s)] else []).
Proof.
  unfold validateStreak. cbv zeta. cbn [fold_left st_errors].
  destruct (not_a_count (currentStreak s)), (not_a_count (longestStreak s)),
    (not_a_count (totalActiveDays s)),
    (num_lt (to_number (longestStreak s)) (to_number (currentStreak s))),
    (num_lt (to_number (totalActiveDays s)) (to_number (currentStreak s)));
    reflexivity.
Qed.

End StreakRules.

Section StreakClaims.

Import Validation Records.

(** X13.  validateStreak: a streak is valid exactly when its three fields are
    present, each a non-negative integer, and the current streak is at
    most the longest streak and at most the total of active days. *)
Theorem validateStreak_valid_iff (s : Streak) :
  st_valid (validateStreak s) = true <->
  exists c g t : number,
    s = {| currentStreak := Some c; longestStreak := Some g;
           totalActiveDays := Some t |} /\
    (isInteger c = true /\ nonneg c) /\
    (isInteger g = true /\ nonneg g) /\
    (isInteger t = true /\ nonneg t) /\
    num_le c g = true /\ num_le c t = true.
Proof.
  rewrite validateStreak_valid, !andb_true_iff, !negb_true_iff.
  destruct s as [[c |] [g |] [t |]]; cbn [currentStreak longestStreak
    totalActiveDays not_a_count to_number];
    try (split; [intros [[[[H1 H2] H3] _] _]; discriminate
                | intros (c' & g' & t' & E & _); discriminate E]).
  rewrite !count_nonneg. split.
  - intros [[[[Hc Hg] Ht] Hgc] Htc]. exists c, g, t.
    destruct (is_integer_finite _ (proj1 Hc)) as [qc Ec].
    destruct (is_integer_finite _ (proj1 Hg)) as [qg Eg].
    destruct (is_integer_finite _ (proj1 Ht)) as [qt Et].
    repeat split; try tauto.
    + apply num_le_spec. subst. repeat split; [discriminate .. | exact Hgc].
    + apply num_le_spec. subst. repeat split; [discriminate .. | exact Htc].
  - intros (c' & g' & t' & E & Hc & Hg & Ht & Hcg & Hct).
    injection E as -> -> ->.
    repeat split; try tauto; apply num_le_not_lt; assumption.
Qed.

(** X14.  validateStreak reports every failed rule: a count error for each field
    that is missing or not a non-negative integer, and an order error for
    each of the two comparisons that holds; a field that is missing or
    [NaN] takes part in no order error. *)
Theorem validateStreak_collects_all (s : Streak) :
  let errors := st_errors (validateStreak s) in
  (forall name val, In (CountViolation name val) errors <->
     not_a_count val = true /\
     ((name, val) = ("currentStreak"%string, currentStreak s) \/
      (name, val) = ("longestStreak"%string, longestStreak s) \/
      (name, val) = ("totalActiveDays"%string, totalActiveDays s))) /\
  (forall g c, In (LongestBelowCurrent g c) errors <->
     (exists x y, g = Some x /\ c = Some y /\ num_lt x y = true) /\
     g = longestStreak s /\ c = currentStreak s) /\
  (forall t c, In (TotalBelowCurrent t c) errors <->
     (exists x y, t = Some x /\ c = Some y /\ num_lt x y = true) /\
     t = totalActiveDays s /\ c = currentStreak s) /\
  (List.length errors <= 5)%nat /\
  (st_valid (validateStreak s) = true <-> errors = []).
Proof.
  assert (Hlt : forall a b : option number,
             num_lt (to_number a) (to_number b) = true <->
             exists x y, a = Some x /\ b = Some y /\ num_lt x y = true).
  { intros [x |] [y |]; cbn [to_number].
    - split; [intros H; exists x, y; auto
             | intros (x' & y' & E1 & E2 & H); congruence].
    - rewrite num_lt_to_NaN.
      split; [discriminate | intros (x' & y' & _ & E & _); discriminate E].
    - split; [discriminate | intros (x' & y' & E & _); discriminate E].
    - split; [discriminate | intros (x' & y' & E & _); discriminate E]. }
  cbv zeta. rewrite validateStreak_errors.
  split; [| split; [| split; [| split]]].
  - intros name val. rewrite !in_app_iff, !In_if_singleton. split.
    + intros [[H E] | [[H E] | [[H E] | [[_ E] | [_ E]]]]];
        try discriminate E; injection E as -> ->; auto.
    + intros [H [E | [E | E]]]; injection E as -> ->; auto 10.
  - intros g c. rewrite !in_app_iff, !In_if_singleton. split.
    + intros [[_ E] | [[_ E] | [[_ E] | [[H E] | [_ E]]]]];
        try discriminate E. injection E as -> ->.
      split; [apply Hlt, H | auto].
    + intros [H [-> ->]]. right; right; right; left.
      split; [apply Hlt, H | reflexivity].
  - intros t c. rewrite !in_app_iff, !In_if_singleton. split.
    + intros [[_ E] | [[_ E] | [[_ E] | [[_ E] | [H E]]]]];
        try discriminate E. injection E as -> ->.
      split; [apply Hlt, H | auto].
    + intros [H [-> ->]]. right; right; right; right.
      split; [apply Hlt, H | reflexivity].
  - rewrite !length_app.
    repeat match goal with
    | |- context [List.length (if ?b then [?x] else [])] =>
        pose proof (length_if_singleton b x);
        generalize dependent (List.length (if b then [x] else []))
    end.
    intros. lia.
  - rewrite <- validateStreak_errors. unfold validateStreak. cbv zeta.
    cbn [st_valid st_errors]. apply is_nil_spec.
Qed.

End StreakClaims.

(** ** Whole snapshots *)

Section Snapshots.

Import Validation Records.

(** On an object with both fields, the validator decides as on the values
    themselves. *)
Lemma validateVibeCheckIn_fields_valid (v : number) (l : string) :
  option_map ci_valid (validateVibeCheckIn_fields (checkIn_fields v l)) =
  option_map valid (validateVibeCheckIn v l).
Proof.
  unfold validateVibeCheckIn_fields, validateVibeCheckIn, checkIn_fields.
  cbv zeta. cbn [moodValue moodLabel property_key to_number strict_neq_any].
  rewrite sad_entry_value, happy_entry_value, registry_order.
  destruct (negb (isInteger v) || num_lt v (lit 1) || num_gt v (lit 5));
    destruct (get VIBE_BY_LABEL l) as [e | k |];
    try destruct (num_neq (value e) v); reflexivity.
Qed.

(** A check-in without a value or without a label is invalid. *)
Lemma validateVibeCheckIn_fields_missing (ci : CheckInFields) :
  moodValue ci = None \/ moodLabel ci = None ->
  option_map ci_valid (validateVibeCheckIn_fields ci) = Some false.
Proof.
  destruct ci as [mv ml]. cbn [moodValue moodLabel].
  unfold validateVibeCheckIn_fields. cbv zeta. cbn [moodValue moodLabel].
  rewrite sad_entry_value, happy_entry_value, registry_order.
  cbn [option_map ci_valid].
  intros [-> | ->]; cbn [negb orb property_key].
  - destruct (get VIBE_BY_LABEL (property_key ml)) as [e | k |];
      try destruct (strict_neq_any _ _); reflexivity.
  - change (get VIBE_BY_LABEL "undefined") with (@Undefined VibeEntry).
    destruct (_ || _); reflexivity.
Qed.

(** On a record with every field, the validator decides as on the typed
    record. *)
Lemma validateHealthScore_fields_valid (r : HealthScoreRecord) :
  hr_valid (validateHealthScore_fields (health_fields r)) =
  hs_valid (validateHealthScore r).
Proof.
  unfold validateHealthScore_fields, validateHealthScore, health_fields.
  cbv zeta.
  cbn [f_streakDays f_vibeCheckIns f_averageVibeScore f_loginCount
       f_healthScore f_engagementTier property_key to_number
       not_a_number_type not_a_count orb fold_left hr_valid hs_valid].
  destruct (num_lt (healthScore r) (lit 0) || num_gt (healthScore r) (lit 100));
    destruct (negb (truthy (get tierBounds (engagementTier r))));
    try destruct (num_lt (healthScore r)
                    (to_number (bound_at (get tierBounds (engagementTier r)) 0))
                  || num_gt (healthScore r)
                       (to_number
                          (bound_at (get tierBounds (engagementTier r)) 1)));
    destruct (negb (isInteger (streakDays r)) || num_lt (streakDays r) (lit 0));
    destruct (negb (isInteger (vibeCheckIns r))
              || num_lt (vibeCheckIns r) (lit 0));
    destruct (negb (isInteger (loginCount r)) || num_lt (loginCount r) (lit 0));
    destruct (num_lt (averageVibeScore r) (lit 1)
              || num_gt (averageVibeScore r) (lit 5));
    reflexivity.
Qed.

Lemma is_nil_snoc {A : Type} (l : list A) (x : A) : is_nil (l ++ [x]) = false.
Proof. destruct l; reflexivity. Qed.

Lemma validateHealthScore_fields_validity (f : HealthFields) :
  hr_valid (validateHealthScore_fields f) =
  negb (not_a_number_type (f_healthScore f)
        || num_lt (to_number (f_healthScore f)) (lit 0)
        || num_gt (to_number (f_healthScore f)) (lit 100))
  && (truthy (get tierBounds (property_key (f_engagementTier f)))
      && negb (num_lt (to_number (f_healthScore f))
                 (to_number (bound_at (get tierBounds
                                         (property_key (f_engagementTier f)))
                                      0))
               || num_gt (to_number (f_healthScore f))
                    (to_number (bound_at (get tierBounds
                                            (property_key (f_engagementTier f)))
                                         1))))
  && negb (not_a_count (f_streakDays f))
  && negb (not_a_count (f_vibeCheckIns f))
  && negb (not_a_count (f_loginCount f))
  && negb (not_a_number_type (f_averageVibeScore f)
           || num_lt (to_number (f_averageVibeScore f)) (lit 1)
           || num_gt (to_number (f_averageVibeScore f)) (lit 5)).
Proof.
  unfold validateHealthScore_fields. cbv zeta. cbn [fold_left hr_valid].
  destruct (not_a_number_type (f_healthScore f)
            || num_lt (to_number (f_healthScore f)) (lit 0)
            || num_gt (to_number (f_healthScore f)) (lit 100));
    destruct (truthy (get tierBounds (property_key (f_engagementTier f))));
    cbn [negb];
    try destruct (num_lt (to_number (f_healthScore f)) _ || _);
    destruct (not_a_count (f_streakDays f));
    destruct (not_a_count (f_vibeCheckIns f));
    destruct (not_a_count (f_loginCount f));
    destruct (not_a_number_type (f_averageVibeScore f)
              || num_lt (to_number (f_averageVibeScore f)) (lit 1)
              || num_gt (to_number (f_averageVibeScore f)) (lit 5));
    reflexivity.
Qed.

(** A health record that lacks a field is invalid. *)
Lemma validateHealthScore_fields_missing (f : HealthFields) :
  hr_valid (validateHealthScore_fields f) = true ->
  exists r, f = health_fields r.
Proof.
  rewrite validateHealthScore_fields_validity.
  destruct f as [[s |] [c |] [a |] [l |] [h |] [t |]];
    cbn [f_streakDays f_vibeCheckIns f_averageVibeScore f_loginCount
         f_healthScore f_engagementTier not_a_number_type not_a_count
         property_key orb negb andb];
    rewrite ?andb_false_r; try discriminate.
  intros _.
  exists {| streakDays := s; vibeCheckIns := c; averageVibeScore := a;
              loginCount := l; healthScore := h; engagementTier := t |}.
    reflexivity.
Qed.

Lemma validateSupportCategory_valid (c : string) :
  cat_valid (validateSupportCategory c) = true <-> In c SUPPORT_CATEGORIES.
Proof.
  unfold validateSupportCategory, has. cbv zeta. cbn [cat_valid].
  rewrite is_nil_push. cbn [is_nil]. rewrite andb_true_r, negb_involutive.
  rewrite existsb_exists. split.
  - intros (x & Hx & E). apply String.eqb_eq in E. subst. exact Hx.
  - intros H. exists c. split; [exact H | apply String.eqb_refl].
Qed.

End Snapshots.

Section SnapshotClaims.

Import Validation Records.

(** X15.  validateFullSnapshot: it returns for every snapshot, and allValid holds
    exactly when the four sections are all there, the check-in and the
    health record with every field, and each section passes its own
    validator.  A missing section is validated as an empty object (an
    empty string for the category) and fails. *)
Theorem validateFullSnapshot_allValid_iff (s : Snapshot) :
  exists r, validateFullSnapshot s = Some r /\
    (allValid r = true <->
     exists v l st c rec,
       s = {| latestCheckIn := Some (checkIn_fields v l);
              streak := Some st; category := Some c;
              healthScore_section := Some (health_fields rec) |} /\
       (exists res, validateVibeCheckIn v l = Some res /\ valid res = true) /\
       st_valid (validateStreak st) = true /\
       In c SUPPORT_CATEGORIES /\
       hs_valid (validateHealthScore rec) = true).
Proof.
  unfold validateFullSnapshot.
  destruct (validateVibeCheckIn_fields
              (or_default (latestCheckIn s) empty_checkIn)) as [vr |] eqn:Ev.
  2:{ exfalso. revert Ev. unfold validateVibeCheckIn_fields. cbv zeta.
      rewrite sad_entry_value, happy_entry_value. discriminate. }
  eexists. split; [reflexivity |].
  cbn [allValid forallb r_vibeCheckIn r_streak r_category r_healthScore].
  rewrite andb_true_r, !andb_true_iff, validateSupportCategory_valid.
  split.
  - intros (Hv & Hs & Hc & Hh).
    destruct s as [[[mv ml] |] [st |] [c |] [hf |]];
      cbn [latestCheckIn streak category healthScore_section or_default
           category_or_empty] in *.
    all: try (exfalso;
              pose proof (validateVibeCheckIn_fields_missing empty_checkIn
                            (or_introl eq_refl)) as M;
              rewrite Ev in M; cbn [option_map] in M; congruence).
    all: try (exfalso; revert Hs; vm_compute; discriminate).
    all: try (exfalso; revert Hh; vm_compute; discriminate).
    all: try (exfalso; revert Hc; cbn [SUPPORT_CATEGORIES In];
              intuition discriminate).
    destruct mv as [v |], ml as [l |];
      try (exfalso;
           match type of Ev with
           | validateVibeCheckIn_fields ?ci = _ =>
               pose proof (validateVibeCheckIn_fields_missing ci) as M
           end;
           cbn [moodValue moodLabel] in M; rewrite Ev in M;
           cbn [option_map] in M;
           assert (Some (ci_valid vr) = Some false) by auto; congruence).
    destruct (validateHealthScore_fields_missing _ Hh) as [rec ->].
    exists v, l, st, c, rec. split; [reflexivity |].
    repeat split; try assumption.
    + pose proof (validateVibeCheckIn_fields_valid v l) as E.
      unfold checkIn_fields in E. rewrite Ev in E. cbn [option_map] in E.
      destruct (validateVibeCheckIn v l) as [res |]; [| discriminate E].
      exists res. split; [reflexivity |]. cbn [option_map] in E. congruence.
    + rewrite <- validateHealthScore_fields_valid. exact Hh.
  - intros (v & l & st & c & rec & -> & (res & Er & Hr) & Hs & Hc & Hh).
    cbn [latestCheckIn streak category healthScore_section or_default
         category_or_empty] in *.
    repeat split; try assumption.
    + pose proof (validateVibeCheckIn_fields_valid v l) as E.
      rewrite Ev, Er in E. cbn [option_map] in E. congruence.
    + rewrite validateHealthScore_fields_valid. exact Hh.
Qed.

End SnapshotClaims.

(** ** The dashboard component *)

Section Counts.

Local Arguments round64 : simpl never.

Lemma add_counts (a b : Z) :
  (0 <= a)%Z -> (0 <= b)%Z -> (a + b <= 2 ^ 53)%Z ->
  num_add (Fin (inject_Z a)) (Fin (inject_Z b)) = Fin (inject_Z (a + b)).
Proof.
  intros Ha Hb H. cbn [num_add]. apply round64_integer; [| lia].
  rewrite inject_Z_plus. reflexivity.
Qed.

Lemma sub_counts (a b : Z) :
  (0 <= b <= a)%Z -> (a <= 2 ^ 53)%Z ->
  num_sub (Fin (inject_Z a)) (Fin (inject_Z b)) = Fin (inject_Z (a - b)).
Proof.
  intros Hb Ha. cbn [num_sub]. apply round64_integer; [| lia].
  unfold Z.sub. rewrite inject_Z_plus, inject_Z_opp. reflexivity.
Qed.

Lemma count_le (a b : Z) :
  num_le (Fin (inject_Z a)) (Fin (inject_Z b)) = true <-> (a <= b)%Z.
Proof. rewrite num_le_Fin, <- Zle_Qle. reflexivity. Qed.

Lemma count_lt (a b : Z) :
  num_lt (Fin (inject_Z a)) (Fin (inject_Z b)) = true <-> (a < b)%Z.
Proof. rewrite num_lt_Fin_true, <- Zlt_Qlt. reflexivity. Qed.

Lemma max_counts (a b : Z) :
  App.Math_max (Fin (inject_Z a)) (Fin (inject_Z b)) =
  Fin (inject_Z (Z.max a b)).
Proof.
  unfold App.Math_max.
  destruct (num_lt (Fin (inject_Z a)) (Fin (inject_Z b))) eqn:E.
  - apply count_lt in E. rewrite Z.max_r by lia. reflexivity.
  - apply num_lt_Fin in E. rewrite <- Zle_Qle in E.
    rewrite Z.max_l by lia. reflexivity.
Qed.

Lemma count_is_integer (n : Z) : isInteger (Fin (inject_Z n)) = true.
Proof.
  cbn [isInteger]. rewrite Qfloor_Z. apply Qeq_bool_iff. reflexivity.
Qed.

Lemma count_nonneg_Z (n : Z) : (0 <= n)%Z -> nonneg (Fin (inject_Z n)).
Proof. intros H. apply (count_le 0 n), H. Qed.

Lemma of_nat_count (n : nat) :
  (Z.of_nat n <= 2 ^ 53)%Z -> App.of_nat n = Fin (inject_Z (Z.of_nat n)).
Proof. intros H. apply round64_Z. lia. Qed.

End Counts.

Section Average.

Import Dashboard App.

Local Arguments round64 : simpl never.

Lemma on_scale_count (v : number) :
  on_scale v -> exists k, (1 <= k <= 5)%Z /\ v = Fin (inject_Z k).
Proof.
  intros (item & H & ->).
  repeat destruct H as [<- | H]; try contradiction; cbn [value].
  - exists 1%Z. split; [lia | reflexivity].
  - exists 2%Z. split; [lia | reflexivity].
  - exists 3%Z. split; [lia | reflexivity].
  - exists 4%Z. split; [lia | reflexivity].
  - exists 5%Z. split; [lia | reflexivity].
Qed.

(** The sum of scale values is exact, and lies between the number of
    values and five times that number. *)
Lemma sum_on_scale (h : list number) :
  Forall on_scale h ->
  forall n, (0 <= n)%Z -> (n + 5 * Z.of_nat (List.length h) <= 2 ^ 53)%Z ->
  exists S, (Z.of_nat (List.length h) <= S <= 5 * Z.of_nat (List.length h))%Z /\
    fold_left (fun a b => num_add a b) h (Fin (inject_Z n)) =
    Fin (inject_Z (n + S)).
Proof.
  induction 1 as [| v h Hv Hh IH]; intros n Hn Hb.
  - exists 0%Z. cbn [List.length fold_left]. split; [lia |].
    rewrite Z.add_0_r. reflexivity.
  - destruct (on_scale_count v Hv) as (k & Hk & ->).
    cbn [List.length] in *. cbn [fold_left].
    rewrite add_counts by lia.
    destruct (IH (n + k)%Z ltac:(lia) ltac:(lia)) as (S' & HS & E).
    exists (k + S')%Z. split; [lia |]. rewrite E. f_equal. f_equal. lia.
Qed.

(** The average of a non-empty history of scale values lies in [1, 5],
    rounding included. *)
Lemma avgVibe_range (s : State) :
  checkInHistory s <> [] -> Forall on_scale (checkInHistory s) ->
  (5 * Z.of_nat (List.length (checkInHistory s)) <= 2 ^ 53)%Z ->
  num_le (lit 1) (avgVibe s) = true /\ num_le (avgVibe s) (lit 5) = true.
Proof.
  intros Hne Hh Hb. unfold avgVibe.
  set (L := Z.of_nat (List.length (checkInHistory s))) in *.
  assert (HL : (1 <= L)%Z).
  { unfold L. destruct (checkInHistory s); [contradiction | cbn; lia]. }
  rewrite lit_0. change (Fin 0) with (Fin (inject_Z 0)).
  destruct (sum_on_scale _ Hh 0%Z ltac:(lia) ltac:(fold L; lia))
    as (S & HS & ->).
  fold L in HS. rewrite of_nat_count by (fold L; lia). fold L.
  cbn [Z.add num_div].
  assert (HLq : 0 < inject_Z L).
  { change 0 with (inject_Z 0). rewrite <- Zlt_Qlt. lia. }
  assert (E : Qcompare (inject_Z L) 0 = Gt) by (apply Qgt_alt; exact HLq).
  rewrite E.
  assert (H1 : 1 <= inject_Z S / inject_Z L).
  { apply Qle_shift_div_l; [exact HLq |]. rewrite Qmult_1_l.
    rewrite <- Zle_Qle. lia. }
  assert (H5 : inject_Z S / inject_Z L <= 5).
  { apply Qle_shift_div_r; [exact HLq |].
    change 5 with (inject_Z 5). rewrite <- inject_Z_mult, <- Zle_Qle. lia. }
  split; apply num_le_spec; repeat split;
    try apply round64_not_NaN; try (unfold lit; apply round64_not_NaN).
  - apply round64_mono, H1.
  - apply round64_mono, H5.
Qed.

End Average.

Section DashboardScore.

Import Dashboard.

Lemma dashboard_score_nonneg (s c a l : number) :
  nonneg s -> nonneg c -> num_le (lit 1) a = true -> nonneg l ->
  nonneg (healthScore s c a l).
Proof.
  intros Hs Hc Ha Hl. unfold healthScore. cbv zeta.
  assert (Hv : nonneg (num_sub a (lit 1))).
  { apply (nonneg_sub a (lit 1) 1); [apply lit_1 | exact Ha]. }
  auto 20 with numbers.
Qed.

Lemma dashboard_score_top :
  healthScore (Inf false) (Inf false) (lit 5) (Inf false) = Fin 100.
Proof. vm_compute. reflexivity. Qed.

Lemma dashboard_score_range (s c a l : number) :
  nonneg s -> nonneg c -> nonneg l ->
  num_le (lit 1) a = true -> num_le a (lit 5) = true ->
  num_le (lit 0) (healthScore s c a l) = true /\
  num_le (healthScore s c a l) (lit 100) = true.
Proof.
  intros Hs Hc Hl Ha1 Ha5. rewrite lit_0, lit_100.
  pose proof (dashboard_score_nonneg s c a l Hs Hc Ha1 Hl) as Hn.
  split; [exact Hn |].
  apply num_le_spec in Hn. destruct Hn as (_ & Hnan & _).
  apply num_le_spec. repeat split; [exact Hnan | discriminate |].
  rewrite <- dashboard_score_top. apply dashboard_score_mono.
  - apply num_lt_from_pos_inf.
  - apply num_lt_from_pos_inf.
  - apply num_le_spec in Ha5. apply Ha5.
  - apply num_lt_from_pos_inf.
Qed.

(** The lookup always yields one of the four tiers. *)
Lemma tierForScore_In (x : number) :
  exists t, tierForScore x = Some t /\ In t ENGAGEMENT_TIERS.
Proof.
  unfold tierForScore.
  destruct (find (tier_contains x) ENGAGEMENT_TIERS) as [t |] eqn:F.
  - exists t. split; [reflexivity |]. apply find_some in F. apply F.
  - eexists. split; [reflexivity |]. left. reflexivity.
Qed.

End DashboardScore.

Section Events.

Import Dashboard App.

Lemma slice_last_length {A : Type} (n : nat) (l : list A) :
  List.length (slice_last n l) = Nat.min n (List.length l).
Proof. unfold slice_last. rewrite length_skipn. lia. Qed.

Lemma Forall_slice_last {A : Type} (P : A -> Prop) (n : nat) (l : list A) :
  Forall P l -> Forall P (slice_last n l).
Proof.
  intros H. unfold slice_last.
  rewrite <- (firstn_skipn (List.length l - n) l) in H.
  apply Forall_app in H. apply H.
Qed.

Lemma one_more_le (a b : number) :
  num_le a b = true -> num_le (num_add a (lit 1)) (num_add b (lit 1)) = true.
Proof.
  intros H. apply num_le_spec in H. destruct H as (Ha & Hb & H).
  apply num_le_spec. rewrite lit_1. repeat split.
  - destruct a as [| [] | x]; try discriminate; [congruence |].
    cbn [num_add]. apply round64_not_NaN.
  - destruct b as [| [] | x]; try discriminate; [congruence |].
    cbn [num_add]. apply round64_not_NaN.
  - apply add_mono; [exact H | apply not_above_refl].
Qed.

Lemma max_at_least (g x : number) :
  g <> NaN -> x <> NaN -> num_le x (Math_max g x) = true.
Proof.
  intros Hg Hx. unfold Math_max.
  destruct g as [| sg | qg]; [congruence | |];
    (destruct x as [| sx | qx]; [congruence | |]).
  all: match goal with
       | |- num_le ?x (if num_lt ?g ?x then _ else _) = true =>
           destruct (num_lt g x) eqn:E;
           [ apply num_le_spec; repeat split; try discriminate;
             apply not_above_refl
           | apply num_le_spec; repeat split; try discriminate; exact E ]
       end.
Qed.

Lemma logged_invariant (c : Component) (mood : Mood) :
  invariant c -> In mood VIBE_SCALE ->
  valid (validateCheckIn (value mood) (label mood)) = true ->
  invariant (setSelectedMood None
               (showToast (VibeLogged (label mood) (value mood)) true
                  (setState (logged mood)
                     (setValidationMsg
                        (Some (validateCheckIn (value mood) (label mood)))
                        c)))).
Proof.
  intros (_ & Hlen & Hh & Hc & Hg & Ht & Hj & Hl & Hp & Hd & _ & _) Hm Hv.
  repeat split;
    cbn [selectedMood state streak checkInHistory currentStreak longestStreak
         totalActiveDays journalsCompleted logins forumPosts newPost
         validationMsg toast msg
         setSelectedMood showToast setToast setState setValidationMsg logged
         offered accepted no_validation_error].
  - rewrite length_app, slice_last_length, Hlen. reflexivity.
  - apply Forall_app. split; [apply Forall_slice_last, Hh |].
    constructor; [| constructor]. exists mood. auto.
  - auto with numbers.
  - apply max_at_least.
    + apply num_le_spec in Hg. apply Hg.
    + apply one_more_le in Ht. apply num_le_spec in Ht. apply Ht.
  - apply one_more_le, Ht.
  - auto with numbers.
  - exact Hl.
  - exact Hp.
  - exact Hd.
  - exact Hv.
  - discriminate.
Qed.

(** The dashboard validator accepts every entry of its scale. *)
Lemma validateCheckIn_offered (mood : Mood) :
  In mood VIBE_SCALE ->
  valid (validateCheckIn (value mood) (label mood)) = true.
Proof.
  intros H. repeat destruct H as [<- | H]; try contradiction;
    vm_compute; reflexivity.
Qed.

Lemma handleVibeSubmit_invariant (c : Component) :
  invariant c -> invariant (handleVibeSubmit c).
Proof.
  intros H. unfold handleVibeSubmit.
  destruct (selectedMood c) as [mood |] eqn:E.
  - cbv zeta.
    assert (Hm : In mood VIBE_SCALE).
    { destruct H as (Ho & _). rewrite E in Ho. exact Ho. }
    rewrite (validateCheckIn_offered mood Hm).
    apply logged_invariant;
      [exact H | exact Hm | apply validateCheckIn_offered, Hm].
  - destruct H as (Ho & Hlen & Hh & Hc & Hg & Ht & Hj & Hl & Hp & Hd & Hv & _).
    repeat split; try assumption.
    cbn [toast showToast setToast no_validation_error msg]. discriminate.
Qed.

Lemma preview_length (content : text) :
  (List.length (firstn 60 content
                ++ (if (60 <? List.length content)%nat then ellipsis else []))
   <= 61)%nat.
Proof.
  rewrite length_app, length_firstn.
  destruct (60 <? List.length content)%nat; cbn [List.length ellipsis]; lia.
Qed.

Lemma handlePostSubmit_invariant (now : number) (c : Component) :
  invariant c -> invariant (handlePostSubmit now c).
Proof.
  intros H. unfold handlePostSubmit.
  destruct H as (Ho & Hlen & Hh & Hc & Hg & Ht & Hj & Hl & Hp & Hd & Hv & Hto).
  destruct (trim (content (newPost c))).
  - repeat split; try assumption.
    cbn [toast showToast setToast no_validation_error msg]. discriminate.
  - repeat split; try assumption;
      cbn [state forumPosts newPost newPost_category showToast setToast
           setNewPost setState posted toast no_validation_error msg].
    + constructor; [| exact Hp]. cbn [category preview].
      split; [exact Hd | apply preview_length].
    + left. reflexivity.
    + discriminate.
Qed.

Lemma handle_invariant (c : Component) (e : Event) :
  invariant c -> invariant (handle c e).
Proof.
  intros H. destruct e as [i | i | | i | v | now |]; cbn [handle].
  - destruct (nth_error TABS i); exact H.
  - destruct (nth_error VIBE_SCALE i) as [item |] eqn:E; [| exact H].
    destruct H as (_ & Hlen & Hh & Hc & Hg & Ht & Hj & Hl & Hp & Hd & _ & Hto).
    repeat split; try assumption.
    cbn [selectedMood setValidationMsg setSelectedMood offered].
    eapply nth_error_In, E.
  - apply handleVibeSubmit_invariant, H.
  - destruct (nth_error SUPPORT_CATEGORIES i) as [cat |] eqn:E; [| exact H].
    destruct H as (Ho & Hlen & Hh & Hc & Hg & Ht & Hj & Hl & Hp & Hd & Hv & Hto).
    repeat split; try assumption.
    cbn [newPost setNewPost newPost_category]. eapply nth_error_In, E.
  - exact H.
  - apply handlePostSubmit_invariant, H.
  - destruct H as (Ho & Hlen & Hh & Hc & Hg & Ht & Hj & Hl & Hp & Hd & Hv & _).
    repeat split; assumption.
Qed.

Lemma initial_invariant : invariant initial.
Proof.
  unfold invariant, initial, INITIAL_STATE.
  cbn [selectedMood state streak checkInHistory currentStreak longestStreak
       totalActiveDays journalsCompleted logins forumPosts newPost
       validationMsg toast accepted no_validation_error
       newPost_category offered List.length].
  repeat split; try (vm_compute; reflexivity).
  - repeat constructor.
    + eexists. split; [do 3 right; left; reflexivity | reflexivity].
    + eexists. split; [right; right; left; reflexivity | reflexivity].
    + eexists. split; [do 4 right; left; reflexivity | reflexivity].
    + eexists. split; [right; left; reflexivity | reflexivity].
    + eexists. split; [do 3 right; left; reflexivity | reflexivity].
    + eexists. split; [do 4 right; left; reflexivity | reflexivity].
    + eexists. split; [right; right; left; reflexivity | reflexivity].
  - repeat constructor; cbn [category preview]; try (cbn; tauto);
      vm_compute; intros E; discriminate E.
  - left. reflexivity.
Qed.

Lemma run_snoc (events : list Event) (e : Event) :
  run (events ++ [e]) = handle (run events) e.
Proof. unfold run. rewrite fold_left_app. reflexivity. Qed.

Lemma run_invariant (events : list Event) : invariant (run events).
Proof.
  induction events as [| e events IH] using rev_ind.
  - apply initial_invariant.
  - rewrite run_snoc. apply handle_invariant, IH.
Qed.

End Events.

Section EventClaims.

Import Dashboard App.

(** X16.  The history the dashboard renders: after any sequence of events it
    holds seven entries, and for each entry [v] the lookup
    [VIBE_SCALE[v - 1]] of its emoji finds the entry of the scale whose
    value is [v]. *)
Theorem run_history_renders (events : list Event) :
  let history := checkInHistory (state (run events)) in
  List.length history = 7%nat /\
  forall v, In v history ->
    exists item, history_item v = Some item /\ In item VIBE_SCALE /\
                 value item = v.
Proof.
  cbv zeta. destruct (run_invariant events) as (_ & Hlen & Hh & _).
  split; [exact Hlen |]. intros v Hv.
  rewrite Forall_forall in Hh. destruct (Hh v Hv) as (item & Hi & ->).
  exists item. split; [| auto].
  repeat destruct Hi as [<- | Hi]; try contradiction; vm_compute; reflexivity.
Qed.

(** X17.  The health score the dashboard shows: after any sequence of events the
    average of the history lies in [1, 5], [computeHealthScore] returns,
    its score lies in [0, 100] and its tier is one of ENGAGEMENT_TIERS. *)
Theorem run_health_score (events : list Event) :
  let s := state (run events) in
  num_le (lit 1) (avgVibe s) = true /\ num_le (avgVibe s) (lit 5) = true /\
  exists h t, hs s = Some h /\
    num_le (lit 0) (score h) = true /\ num_le (score h) (lit 100) = true /\
    In t ENGAGEMENT_TIERS /\ tier h = tier_label t /\
    tierColor h = tier_color t.
Proof.
  cbv zeta.
  destruct (run_invariant events)
    as (_ & Hlen & Hh & Hc & _ & _ & Hj & Hl & _).
  set (s := state (run events)) in *.
  assert (Ha : num_le (lit 1) (avgVibe s) = true /\
               num_le (avgVibe s) (lit 5) = true).
  { apply avgVibe_range.
    - intros E. rewrite E in Hlen. discriminate Hlen.
    - exact Hh.
    - rewrite Hlen. vm_compute. discriminate. }
  destruct Ha as [Ha1 Ha5]. split; [exact Ha1 |]. split; [exact Ha5 |].
  unfold hs, computeHealthScore.
  destruct (tierForScore_In
              (healthScore (currentStreak (streak s)) (journalsCompleted s)
                           (avgVibe s) (logins s))) as (t & -> & Ht).
  eexists. exists t. split; [reflexivity |]. cbn [score tier tierColor].
  assert (Hn : nonneg (logins s)) by (rewrite Hl; vm_compute; reflexivity).
  destruct (dashboard_score_range (currentStreak (streak s))
              (journalsCompleted s) (avgVibe s) (logins s)
              Hc Hj Hn Ha1 Ha5) as [H0 H100].
  auto.
Qed.

(** X18.  The forum: after any sequence of events every post carries a category
    that [validateSupportCategory] accepts, and a preview of at most 61
    code units. *)
Theorem run_posts_valid (events : list Event) :
  Forall (fun p =>
            Records.cat_valid (Records.validateSupportCategory (category p))
            = true /\
            (List.length (preview p) <= 61)%nat)
         (forumPosts (state (run events))).
Proof.
  destruct (run_invariant events) as (_ & _ & _ & _ & _ & _ & _ & _ & Hp & _).
  eapply Forall_impl; [| exact Hp]. cbv beta. intros p [Hc Hl].
  split; [| exact Hl]. apply validateSupportCategory_valid. exact Hc.
Qed.

End EventClaims.

Section Logged.

Import Dashboard App.

Local Arguments round64 : simpl never.

(** A rational between two numbers rounds to a number between them. *)
Lemma round64_between (a b x : Q) :
  round64 a = Fin a -> round64 b = Fin b -> a <= x <= b ->
  exists q, round64 x = Fin q /\ a <= q <= b.
Proof.
  intros Ha Hb [H1 H2].
  pose proof (round64_mono a x H1) as L.
  pose proof (round64_mono x b H2) as U.
  rewrite Ha in L. rewrite Hb in U. unfold not_above in L, U.
  destruct (round64 x) as [| [] | q] eqn:E.
  - exfalso. exact (round64_not_NaN x E).
  - discriminate L.
  - discriminate U.
  - exists q. split; [reflexivity |].
    apply num_lt_Fin in L, U. split; assumption.
Qed.

Lemma slice_last_snoc {A : Type} (n : nat) (l : list A) (x : A) :
  slice_last (S n) (l ++ [x]) = slice_last n l ++ [x].
Proof.
  unfold slice_last. rewrite length_app. cbn [List.length].
  replace (List.length l + 1 - S n)%nat with (List.length l - n)%nat by lia.
  rewrite skipn_app.
  replace (List.length l - n - List.length l)%nat with 0%nat by lia.
  reflexivity.
Qed.

Lemma slice_last_twice {A : Type} (n m : nat) (l : list A) :
  (n <= m)%nat -> slice_last n (slice_last m l) = slice_last n l.
Proof.
  intros H. unfold slice_last. rewrite length_skipn, skipn_skipn.
  f_equal. lia.
Qed.

(** An event leaves the streak, the journal count and the history as they
    are, or logs one of the offered moods. *)
Lemma handle_data (c : Component) (e : Event) :
  offered (selectedMood c) ->
  (streak (state (handle c e)) = streak (state c) /\
   journalsCompleted (state (handle c e)) = journalsCompleted (state c) /\
   checkInHistory (state (handle c e)) = checkInHistory (state c)) \/
  exists mood, In mood VIBE_SCALE /\
               state (handle c e) = logged mood (state c).
Proof.
  intros Ho. destruct e as [i | i | | i | v | now |]; cbn [handle].
  - left. destruct (nth_error TABS i); auto.
  - left. destruct (nth_error VIBE_SCALE i); auto.
  - unfold handleVibeSubmit. destruct (selectedMood c) as [mood |].
    + cbn [offered] in Ho. cbv zeta.
      rewrite (validateCheckIn_offered mood Ho). right. exists mood. auto.
    + left. auto.
  - left. destruct (nth_error SUPPORT_CATEGORIES i); auto.
  - left. auto.
  - left. unfold handlePostSubmit.
    destruct (trim (content (newPost c))); auto.
  - left. auto.
Qed.

(** The data of the state after a sequence of events, in terms of the
    moods logged on the way. *)
Lemma run_data (events : list Event) :
  (Z.of_nat (List.length events) + 28 <= 2 ^ 53)%Z ->
  exists logs : list Mood,
    Forall (fun mood => In mood VIBE_SCALE) logs /\
    (List.length logs <= List.length events)%nat /\
    streak (state (run events)) =
      {| currentStreak := Fin (inject_Z (7 + Z.of_nat (List.length logs)));
         longestStreak :=
           Fin (inject_Z (Z.max 14 (7 + Z.of_nat (List.length logs))));
         totalActiveDays :=
           Fin (inject_Z (28 + Z.of_nat (List.length logs))) |} /\
    journalsCompleted (state (run events)) =
      Fin (inject_Z (18 + Z.of_nat (List.length logs))) /\
    checkInHistory (state (run events)) =
      slice_last 7 (checkInHistory INITIAL_STATE ++ map value logs).
Proof.
  induction events as [| e events IH] using rev_ind; intros Hb.
  - exists []. split; [constructor |]. split; [apply Nat.le_refl |].
    cbn [List.length Z.of_nat map]. repeat split; vm_compute; reflexivity.
  - rewrite length_app in Hb. cbn [List.length] in Hb.
    destruct (IH ltac:(lia)) as (logs & Hlogs & Hlen & Hs & Hj & Hh).
    rewrite run_snoc, length_app. cbn [List.length].
    destruct (run_invariant events) as (Ho & _).
    destruct (handle_data (run events) e Ho)
      as [(Es & Ej & Eh) | (mood & Hm & E)].
    + exists logs. rewrite Es, Ej, Eh.
      split; [exact Hlogs |]. split; [lia |]. auto.
    + exists (logs ++ [mood]). rewrite E.
      split; [apply Forall_app; split;
               [exact Hlogs | constructor; [exact Hm | constructor]] |].
      rewrite length_app. cbn [List.length].
      split; [lia |].
      cbn [logged streak journalsCompleted checkInHistory].
      rewrite Hs, Hj, Hh. cbn [currentStreak longestStreak totalActiveDays].
      rewrite lit_1. change (Fin 1) with (Fin (inject_Z 1)).
      rewrite !add_counts by lia. rewrite max_counts.
      replace (Z.of_nat (List.length logs + 1)) with
        (Z.of_nat (List.length logs) + 1)%Z by lia.
      split; [| split].
      * f_equal; f_equal; f_equal; lia.
      * f_equal; f_equal; lia.
      * rewrite slice_last_twice by lia.
        rewrite map_app, app_assoc. cbn [map].
        symmetry. apply slice_last_snoc.
Qed.

Lemma count_not_a_count (n : Z) :
  (0 <= n)%Z -> Records.not_a_count (Some (Fin (inject_Z n))) = false.
Proof.
  intros H. cbn [Records.not_a_count]. rewrite count_is_integer, lit_0.
  cbn [negb orb]. apply num_lt_Fin.
  change 0 with (inject_Z 0). rewrite <- Zle_Qle. exact H.
Qed.

End Logged.

Section LoggedClaims.

Import Dashboard App.

Local Arguments round64 : simpl never.

(** X19.  The validation error is never shown: the moods offered all pass
    [validateCheckIn], so after any sequence of events the toast is not
    the validation error, and the validation message, when there is one,
    says valid. *)
Theorem run_never_rejects (events : list Event) :
  (forall t error, toast (run events) = Some t ->
                   msg t <> ValidationError error) /\
  (forall r, validationMsg (run events) = Some r -> valid r = true).
Proof.
  destruct (run_invariant events)
    as (_ & _ & _ & _ & _ & _ & _ & _ & _ & _ & Hv & Ht).
  split.
  - intros t e E. rewrite E in Ht. apply Ht.
  - intros r E. rewrite E in Hv. exact Hv.
Qed.



(** X21.  The streak of the dashboard passes the streak validator: after any
    sequence of at most 2^53 - 28 events, [validateStreak] on the streak of
    the state answers valid. *)
Theorem run_streak_valid (events : list Event) :
  (Z.of_nat (List.length events) + 28 <= 2 ^ 53)%Z ->
  Records.st_valid
    (Records.validateStreak (streak_fields (streak (state (run events)))))
  = true.
Proof.
  intros Hb. destruct (run_data events Hb) as (logs & _ & _ & Hs & _).
  rewrite Hs, validateStreak_valid. unfold streak_fields.
  cbn [Records.currentStreak Records.longestStreak Records.totalActiveDays
       currentStreak longestStreak totalActiveDays to_number].
  rewrite !count_not_a_count by lia. cbn [negb andb].
  assert (E1 : num_lt
                 (Fin (inject_Z (Z.max 14 (7 + Z.of_nat (List.length logs)))))
                 (Fin (inject_Z (7 + Z.of_nat (List.length logs)))) = false).
  { apply num_lt_Fin. rewrite <- Zle_Qle. lia. }
  assert (E2 : num_lt
                 (Fin (inject_Z (28 + Z.of_nat (List.length logs))))
                 (Fin (inject_Z (7 + Z.of_nat (List.length logs)))) = false).
  { apply num_lt_Fin. rewrite <- Zle_Qle. lia. }
  rewrite E1, E2. reflexivity.
Qed.

Lemma run_streak_valid_witness :
  (Z.of_nat (List.length [ClickMood 4; ClickLogVibe]) + 28 <= 2 ^ 53)%Z /\
  Records.st_valid
    (Records.validateStreak
       (streak_fields (streak (state (run [ClickMood 4; ClickLogVibe])))))
  = true.
Proof.
  assert (H : (Z.of_nat (List.length [ClickMood 4; ClickLogVibe]) + 28
               <= 2 ^ 53)%Z) by (vm_compute; discriminate).
  split; [exact H | apply (run_streak_valid [ClickMood 4; ClickLogVibe] H)].
Defined.

(** X22.  The streak ring: after any sequence of at most 2^53 - 28 events the
    percentage shown is a whole number between 50 and 100, and it is 100
    when the current streak is the longest one. *)
Theorem run_streak_percent (events : list Event) :
  (Z.of_nat (List.length events) + 28 <= 2 ^ 53)%Z ->
  let s := state (run events) in
  exists n, (50 <= n <= 100)%Z /\ streak_percent s = Fin (inject_Z n) /\
    (num_eq (currentStreak (streak s)) (longestStreak (streak s)) = true ->
     n = 100%Z).
Proof.
  intros Hb. cbv zeta.
  destruct (run_data events Hb) as (logs & _ & _ & Hs & _).
  unfold streak_percent. rewrite Hs.
  cbn [currentStreak longestStreak].
  set (a := (7 + Z.of_nat (List.length logs))%Z).
  assert (Ha : (7 <= a)%Z) by (unfold a; lia).
  set (g := Z.max 14 a).
  assert (Hg : (14 <= g)%Z /\ (a <= g)%Z /\ (g <= 2 * a)%Z) by (unfold g; lia).
  assert (Hgq : 0 < inject_Z g).
  { change 0 with (inject_Z 0). rewrite <- Zlt_Qlt. lia. }
  assert (Haq : inject_Z a <= inject_Z g) by (rewrite <- Zle_Qle; lia).
  assert (Hhalf : inject_Z g <= 2 * inject_Z a).
  { change 2 with (inject_Z 2). rewrite <- inject_Z_mult, <- Zle_Qle. lia. }
  cbn [num_div].
  assert (E : Qcompare (inject_Z g) 0 = Gt) by (apply Qgt_alt; exact Hgq).
  rewrite E.
  destruct (round64_between (1 # 2) 1 (inject_Z a / inject_Z g))
    as (q & Eq & Hq); [vm_compute; reflexivity .. | |].
  { split.
    - apply Qle_shift_div_l; [exact Hgq | lra].
    - apply Qle_shift_div_r; [exact Hgq | lra]. }
  rewrite Eq, lit_100. cbn [num_mul].
  destruct (round64_between 50 100 (q * 100))
    as (p & Ep & Hp); [vm_compute; reflexivity .. | lra |].
  rewrite Ep. cbn [Math_round].
  set (n := Qfloor (p + (1 # 2))).
  assert (Hn : (50 <= n <= 100)%Z).
  { unfold n. split.
    - apply (Qfloor_resp_le 50 (p + (1 # 2))). lra.
    - destruct (Z_le_gt_dec (Qfloor (p + (1 # 2))) 100) as [L | G];
        [exact L | exfalso].
      pose proof (Qfloor_le (p + (1 # 2))) as F.
      assert (H101 : inject_Z 101 <= inject_Z (Qfloor (p + (1 # 2))))
        by (rewrite <- Zle_Qle; lia).
      change (inject_Z 101) with 101 in H101. lra. }
  exists n. split; [exact Hn |]. split.
  - apply round64_Z. lia.
  - intros Heq. cbn [num_eq] in Heq. apply Qeq_bool_iff in Heq.
    assert (Er : inject_Z a / inject_Z g == 1).
    { rewrite Heq. field. lra. }
    rewrite (round64_proper _ _ Er) in Eq.
    assert (q = 1) by (vm_compute in Eq; congruence). subst q.
    assert (Ep' : round64 (1 * 100) = Fin 100) by (vm_compute; reflexivity).
    assert (p = 100) by congruence. subst p.
    unfold n. vm_compute. reflexivity.
Qed.

Lemma run_streak_percent_witness :
  (Z.of_nat (List.length [ClickMood 4; ClickLogVibe]) + 28 <= 2 ^ 53)%Z /\
  let s := state (run [ClickMood 4; ClickLogVibe]) in
  exists n, (50 <= n <= 100)%Z /\ streak_percent s = Fin (inject_Z n) /\
    (num_eq (currentStreak (streak s)) (longestStreak (streak s)) = true ->
     n = 100%Z).
Proof.
  assert (H : (Z.of_nat (List.length [ClickMood 4; ClickLogVibe]) + 28
               <= 2 ^ 53)%Z) by (vm_compute; discriminate).
  split; [exact H | apply (run_streak_percent [ClickMood 4; ClickLogVibe] H)].
Defined.

End LoggedClaims.

(** ** The sparkline and the forum *)

Section Sparkline.

Import Dashboard App.

Local Arguments round64 : simpl never.

Lemma nth_error_indexed {A : Type} (l : list A) :
  forall start i v, nth_error l i = Some v ->
    nth_error (combine (seq start (List.length l)) l) i = Some ((start + i)%nat, v).
Proof.
  induction l as [| a l IH]; intros start [| i] v H; try discriminate H.
  - cbn in *. rewrite Nat.add_0_r. congruence.
  - cbn [List.length seq combine nth_error] in *.
    rewrite (IH (S start) i v H). f_equal. f_equal. lia.
Qed.

Lemma sparkline_literals :
  lit 8 = Fin 8 /\ lit 252 = Fin 252 /\
  num_sub (lit 260) (num_mul (lit 8) (lit 2)) = Fin 244.
Proof. repeat split; vm_compute; reflexivity. Qed.

(** The vertical position depends on the value alone: 52, 41, 30, 19 and
    8 for the values 1 to 5. *)
Lemma sparkline_y (n i : number) (k : Z) :
  (1 <= k <= 5)%Z ->
  snd (sparkline_point n i (Fin (inject_Z k))) =
  Fin (inject_Z (52 - 11 * (k - 1))).
Proof.
  intros Hk. unfold sparkline_point. cbv zeta. cbn [snd].
  assert (C : k = 1%Z \/ k = 2%Z \/ k = 3%Z \/ k = 4%Z \/ k = 5%Z) by lia.
  destruct C as [-> | [-> | [-> | [-> | ->]]]]; vm_compute; reflexivity.
Qed.

(** The horizontal position of entry [i] of [n]. *)
Lemma sparkline_x (n i : nat) (v : number) :
  (2 <= n)%nat -> (Z.of_nat n <= 2 ^ 53)%Z -> (i < n)%nat ->
  exists q, fst (sparkline_point (of_nat n) (of_nat i) v) = Fin q /\
    8 <= q <= 252 /\
    (i = 0%nat -> q = 8) /\ (i = (n - 1)%nat -> q = 252).
Proof.
  intros Hn Hb Hi. unfold sparkline_point. cbv zeta. cbn [fst].
  destruct sparkline_literals as (E8 & _ & EW). rewrite EW, E8, lit_1.
  rewrite !of_nat_count by lia.
  change (Fin 1) with (Fin (inject_Z 1)). rewrite sub_counts by lia.
  set (d := (Z.of_nat n - 1)%Z).
  assert (Hd : 0 < inject_Z d).
  { change 0 with (inject_Z 0). rewrite <- Zlt_Qlt. unfold d. lia. }
  assert (Hi0 : 0 <= inject_Z (Z.of_nat i)).
  { change 0 with (inject_Z 0). rewrite <- Zle_Qle. lia. }
  assert (Hid : inject_Z (Z.of_nat i) <= inject_Z d).
  { rewrite <- Zle_Qle. unfold d. lia. }
  cbn [num_div].
  assert (E : Qcompare (inject_Z d) 0 = Gt) by (apply Qgt_alt; exact Hd).
  rewrite E.
  destruct (round64_between 0 1 (inject_Z (Z.of_nat i) / inject_Z d))
    as (r & Er & Hr); [vm_compute; reflexivity .. | |].
  { split.
    - apply Qle_shift_div_l; [exact Hd | lra].
    - apply Qle_shift_div_r; [exact Hd | lra]. }
  rewrite Er. cbn [num_mul].
  destruct (round64_between 0 244 (r * 244))
    as (w & Ew & Hw); [vm_compute; reflexivity .. | lra |].
  rewrite Ew. cbn [num_add].
  destruct (round64_between 8 252 (8 + w))
    as (x & Ex & Hx); [vm_compute; reflexivity .. | lra |].
  exists x. split; [exact Ex |]. split; [exact Hx |]. split.
  - intros ->.
    assert (R : inject_Z (Z.of_nat 0) / inject_Z d == 0).
    { cbn [Z.of_nat]. change (inject_Z 0) with 0. field. lra. }
    rewrite (round64_proper _ _ R) in Er.
    assert (r = 0) by (vm_compute in Er; congruence). subst r.
    assert (w = 0) by (vm_compute in Ew; congruence). subst w.
    vm_compute in Ex. congruence.
  - intros ->.
    assert (R : inject_Z (Z.of_nat (n - 1)) / inject_Z d == 1).
    { replace (Z.of_nat (n - 1)) with d by (unfold d; lia). field. lra. }
    rewrite (round64_proper _ _ R) in Er.
    assert (r = 1) by (vm_compute in Er; congruence). subst r.
    assert (w = 244) by (vm_compute in Ew; congruence). subst w.
    vm_compute in Ex. congruence.
Qed.

End Sparkline.

Section SparklineClaims.

Import Dashboard App.

(** X23.  MoodSparkline: for a history of at least two scale values there is one
    point per entry; entry [i] with value [k] is drawn at height
    52 - 11 (k - 1), so between 8 and 52 and higher for a better mood, and
    at a horizontal position between 8 and 252, which is 8 for the first
    entry and 252 for the last. *)
Theorem MoodSparkline_pts_in_box (history : list number) :
  Forall on_scale history ->
  (2 <= List.length history)%nat ->
  (Z.of_nat (List.length history) <= 2 ^ 53)%Z ->
  List.length (MoodSparkline_pts history) = List.length history /\
  forall i v, nth_error history i = Some v ->
    exists x k,
      nth_error (MoodSparkline_pts history) i =
        Some (Fin x, Fin (inject_Z (52 - 11 * (k - 1)))) /\
      v = Fin (inject_Z k) /\ (1 <= k <= 5)%Z /\
      8 <= x <= 252 /\
      (i = 0%nat -> x = 8) /\
      (i = (List.length history - 1)%nat -> x = 252).
Proof.
  intros Hh Hn Hb. unfold MoodSparkline_pts. cbv zeta. split.
  - rewrite length_map, length_combine, length_seq. lia.
  - intros i v Hv.
    assert (Hi : (i < List.length history)%nat).
    { apply nth_error_Some. rewrite Hv. discriminate. }
    rewrite nth_error_map, (nth_error_indexed history 0 i v Hv).
    cbn [option_map Nat.add].
    rewrite Forall_forall in Hh.
    destruct (on_scale_count v (Hh v (nth_error_In _ _ Hv))) as (k & Hk & ->).
    destruct (sparkline_x (List.length history) i (Fin (inject_Z k)) Hn Hb Hi)
      as (x & Ex & Hx & H0 & Hlast).
    pose proof (sparkline_y (of_nat (List.length history)) (of_nat i) k Hk)
      as Ey.
    exists x, k.
    destruct (sparkline_point (of_nat (List.length history)) (of_nat i)
                (Fin (inject_Z k))) as [px py].
    cbn [fst snd] in Ex, Ey. subst px py. auto 10.
Qed.

Lemma MoodSparkline_pts_in_box_witness :
  let history := checkInHistory INITIAL_STATE in
  Forall on_scale history /\
  (2 <= List.length history)%nat /\
  (Z.of_nat (List.length history) <= 2 ^ 53)%Z /\
  List.length (MoodSparkline_pts history) = List.length history /\
  forall i v, nth_error history i = Some v ->
    exists x k,
      nth_error (MoodSparkline_pts history) i =
        Some (Fin x, Fin (inject_Z (52 - 11 * (k - 1)))) /\
      v = Fin (inject_Z k) /\ (1 <= k <= 5)%Z /\
      8 <= x <= 252 /\
      (i = 0%nat -> x = 8) /\
      (i = (List.length history - 1)%nat -> x = 252).
Proof.
  cbv zeta.
  assert (H1 : Forall on_scale (checkInHistory INITIAL_STATE))
    by apply initial_invariant.
  assert (H2 : (2 <= List.length (checkInHistory INITIAL_STATE))%nat)
    by (cbn; lia).
  assert (H3 : (Z.of_nat (List.length (checkInHistory INITIAL_STATE))
                <= 2 ^ 53)%Z) by (vm_compute; discriminate).
  split; [exact H1 |]. split; [exact H2 |]. split; [exact H3 |].
  apply (MoodSparkline_pts_in_box (checkInHistory INITIAL_STATE) H1 H2 H3).
Defined.

(** X24.  MoodSparkline on a history of one entry: the horizontal position is
    0 / 0 scaled, so the only point has no x coordinate. *)
Theorem MoodSparkline_pts_single (v : number) :
  map fst (MoodSparkline_pts [v]) = [NaN].
Proof. vm_compute. reflexivity. Qed.

End SparklineClaims.

Section Forum.

Import Dashboard App.

Lemma trimStart_nil (s : text) :
  trimStart s = [] <-> forallb is_white_space s = true.
Proof.
  induction s as [| c s IH]; cbn [trimStart forallb].
  - split; reflexivity.
  - destruct (is_white_space c); cbn [andb]; [exact IH |].
    split; discriminate.
Qed.

(** [trim] leaves nothing exactly of the strings made of white space. *)
Lemma trim_nil (s : text) :
  trim s = [] <-> forallb is_white_space s = true.
Proof.
  unfold trim, trimEnd. split.
  - intros H. apply trimStart_nil.
    destruct (trimStart s) as [| c r] eqn:E; [reflexivity | exfalso].
    assert (Hc : is_white_space c = false).
    { clear H. induction s as [| a s IH]; [discriminate E |].
      cbn [trimStart] in E. destruct (is_white_space a) eqn:W.
      - apply IH, E.
      - injection E as -> _. exact W. }
    apply (f_equal (@rev N)) in H. rewrite rev_involutive in H.
    cbn [rev] in H. apply trimStart_nil in H.
    rewrite forallb_app in H. cbn [forallb] in H.
    rewrite Hc, andb_false_r in H. discriminate H.
  - intros H. apply trimStart_nil in H. rewrite H. reflexivity.
Qed.

End Forum.

Section ForumClaims.

Import Dashboard App.

(** X25.  handlePostSubmit: a draft made of white space only (the empty one
    included) is refused, and nothing but the toast changes.  Any other
    draft becomes the first post, with the draft's category and content
    as they are, white space around included: the preview is the content
    when it has at most 60 code units, else its first 60 followed by the
    ellipsis; the posts there were are kept in order, the rest of the
    state is untouched and the draft is reset to an empty one for
    Anxiety. *)
Theorem handlePostSubmit_cases (now : number) (c : Component) :
  let c' := handlePostSubmit now c in
  if forallb is_white_space (content (newPost c))
  then state c' = state c /\ newPost c' = newPost c /\
       toast c' = Some {| msg := WriteSomethingFirst; ok := false |}
  else forumPosts (state c') =
         {| id := now; category := newPost_category (newPost c);
            preview :=
              if (List.length (content (newPost c)) <=? 60)%nat
              then content (newPost c)
              else firstn 60 (content (newPost c)) ++ ellipsis;
            flagged := false |} :: forumPosts (state c) /\
       streak (state c') = streak (state c) /\
       logins (state c') = logins (state c) /\
       journalsCompleted (state c') = journalsCompleted (state c) /\
       resourceViews (state c') = resourceViews (state c) /\
       checkInHistory (state c') = checkInHistory (state c) /\
       newPost c' = {| newPost_category := "Anxiety"; content := [] |} /\
       toast c' = Some {| msg := PostSubmitted; ok := true |}.
Proof.
  cbv zeta. unfold handlePostSubmit.
  destruct (forallb is_white_space (content (newPost c))) eqn:W.
  - apply trim_nil in W. rewrite W. auto.
  - destruct (trim (content (newPost c))) as [| u r] eqn:T.
    + apply trim_nil in T. congruence.
    + cbn [state forumPosts streak logins journalsCompleted resourceViews
           checkInHistory newPost toast showToast setToast setNewPost
           setState posted].
      repeat split. f_equal. f_equal.
      destruct (Nat.leb_spec (List.length (content (newPost c))) 60) as [L | G].
      * rewrite firstn_all2 by exact L.
        destruct (Nat.ltb_spec 60 (List.length (content (newPost c))));
          [lia | apply app_nil_r].
      * destruct (Nat.ltb_spec 60 (List.length (content (newPost c))));
          [reflexivity | lia].
Qed.

End ForumClaims.

(** ** The dashboard's health data against the validator *)

Section DashboardRecord.

Import Validation Dashboard.

Ltac settle_comparisons :=
  repeat match goal with
  | |- context [num_le (Fin ?x) (Fin ?y)] =>
      first [ rewrite (proj2 (num_le_Fin x y)) by lra
            | rewrite (proj2 (num_le_Fin_false x y)) by lra ]
  | |- context [num_lt (Fin ?x) (Fin ?y)] =>
      first [ rewrite (proj2 (num_lt_Fin_true x y)) by lra
            | rewrite (proj2 (num_lt_Fin x y)) by lra ]
  end.

(** The tier the dashboard looks up for a score in [0, 100], and what the
    validator makes of the pair. *)
Lemma dashboard_tier_validates (q : Q) :
  0 <= q <= 100 ->
  exists t,
    tierForScore (Fin q) = Some t /\
    (between_tiers (Fin q) = false ->
     HealthRules.tier_errors (Fin q) (tier_label t) = []) /\
    (between_tiers (Fin q) = true ->
     tier_label t = "Low"%string /\
     HealthRules.tier_errors (Fin q) (tier_label t) =
       [TierScoreMismatch "Low" (Some (lit 0)) (Some (lit 25)) (Fin q)]).
Proof.
  intros [H0 H100].
  unfold tierForScore, between_tiers, HealthRules.tier_errors.
  rewrite ENGAGEMENT_TIERS_eq. cbn [find nth_error]. unfold tier_contains.
  cbn [min max]. unfold num_ge, num_gt.
  rewrite lit_25, lit_26, lit_50, lit_51, lit_75, lit_76.
  destruct (score_intervals q)
    as [C | [C | [C | [C | [C | [C | [C | [C | C]]]]]]]];
    try (exfalso; lra);
    settle_comparisons; cbn [andb orb];
    eexists; (split; [reflexivity |]); cbn [tier_label]; cbv zeta;
    rewrite ?tierBounds_Low, ?tierBounds_Moderate, ?tierBounds_High,
      ?tierBounds_Excellent;
    cbn [truthy negb bound_at to_number];
    settle_comparisons; cbn [andb orb];
    (split; intros B; try discriminate B; try reflexivity).
  all: rewrite ?lit_0, ?lit_25; split; reflexivity.
Qed.

End DashboardRecord.

Section DashboardRecordClaims.

Import Validation Dashboard.

(** X26.  The dashboard's computeHealthScore against validateHealthScore: on
    whole non-negative counts and an average in [1, 5] the dashboard
    returns a score and a tier, and the record made of the inputs, that
    score and that tier passes the validator exactly when the score is not
    strictly between 25 and 26, 50 and 51, or 75 and 76; for a score
    between two ranges the dashboard's tier is Low. *)
Theorem dashboard_record_validates_iff (s c a l : number) :
  isInteger s = true -> isInteger c = true -> isInteger l = true ->
  num_ge s (lit 0) = true -> num_ge c (lit 0) = true ->
  num_ge l (lit 0) = true ->
  num_ge a (lit 1) = true -> num_le a (lit 5) = true ->
  exists h,
    Dashboard.computeHealthScore s c a l = Some h /\
    (hs_valid (validateHealthScore
                 {| streakDays := s; vibeCheckIns := c;
                    averageVibeScore := a; loginCount := l;
                    Validation.healthScore := score h; engagementTier := tier h |})
     = true <-> between_tiers (score h) = false) /\
    (between_tiers (score h) = true -> tier h = "Low"%string).
Proof.
  intros Is Ic Il Hs Hc Hl Ha1 Ha5. unfold num_ge in Hs, Hc, Hl, Ha1.
  rewrite lit_0 in Hs, Hc, Hl.
  destruct (dashboard_score_range s c a l Hs Hc Hl Ha1 Ha5) as [H0 H100].
  unfold Dashboard.computeHealthScore.
  set (x := Dashboard.healthScore s c a l) in *.
  rewrite lit_0 in H0. rewrite lit_100 in H100.
  destruct x as [| [] | q] eqn:Ex; try discriminate.
  apply num_le_Fin in H0, H100.
  destruct (dashboard_tier_validates q (conj H0 H100)) as (t & -> & Hin & Hout).
  eexists. split; [reflexivity |]. cbn [score tier].
  rewrite validateHealthScore_errors. cbv zeta.
  cbn [hs_valid streakDays vibeCheckIns averageVibeScore loginCount
       Validation.healthScore engagementTier].
  unfold HealthRules.interval_errors, HealthRules.field_errors,
    HealthRules.average_errors.
  cbn [streakDays vibeCheckIns averageVibeScore loginCount
       Validation.healthScore engagementTier].
  rewrite Is, Ic, Il.
  rewrite <- lit_0 in Hs, Hc, Hl.
  rewrite (num_le_not_lt _ _ Hs), (num_le_not_lt _ _ Hc),
    (num_le_not_lt _ _ Hl), (num_le_not_lt _ _ Ha1).
  unfold num_gt. rewrite (num_le_not_lt _ _ Ha5).
  rewrite lit_0, lit_100.
  rewrite (proj2 (num_lt_Fin q 0)) by exact H0.
  rewrite (proj2 (num_lt_Fin 100 q)) by exact H100.
  cbn [negb orb app]. rewrite app_nil_r.
  destruct (between_tiers (Fin q)) eqn:B.
  - destruct (Hout eq_refl) as [El Et]. rewrite Et. cbn [is_nil].
    split; [split; discriminate | intros _; exact El].
  - rewrite (Hin eq_refl). cbn [is_nil].
    split; [split; reflexivity | discriminate].
Qed.

Lemma dashboard_record_validates_iff_witness :
  exists h,
    Dashboard.computeHealthScore (lit 10) (lit 20) (lit 4) (lit 30) = Some h /\
    (hs_valid (validateHealthScore
                 {| streakDays := lit 10; vibeCheckIns := lit 20;
                    averageVibeScore := lit 4; loginCount := lit 30;
                    Validation.healthScore := score h; engagementTier := tier h |})
     = true <-> between_tiers (score h) = false) /\
    (between_tiers (score h) = true -> tier h = "Low"%string).
Proof.
  apply (dashboard_record_validates_iff (lit 10) (lit 20) (lit 4) (lit 30));
    vm_compute; reflexivity.
Defined.


End DashboardRecordClaims.
